(** * NeXOS A2 hydrophone client: command protocol and stream capture

    A shallow embedding of [src/nexosA2/nexos.py] (class [NeXOS]) and the
    properties of its set-then-verify protocol, its parameter guards, its
    configuration cache and its packet capture loop.

    The Python object is a record [NeXOS]; everything outside the
    interpreter (the serial line, the two UDP sockets, the file system, the
    console, the clock, started threads) is a record [World].  A method is a
    function from a [State] to a [Result]: it returns, raises (the state
    reached when the exception leaves the method is kept, because
    assignments made before the [raise] stay visible on the object), or
    never comes back ([Hang]: a blocking [recv] with nothing left to
    receive, or the serial read loop spinning on time-outs).

    What is left out: the pauses of [time.sleep]; the diagnostic lines that
    go straight to [rich.print] (the lines printed through [msg] are kept);
    text that is not ASCII; [info]; the tagging done by [add_id3_tags] in
    its own thread, of which only the start is recorded.  The endless loop
    of [write_wav_continuous] is taken pass by pass.  Of the libraries,
    [int], the true division and the [wave] writer are modelled as far as
    the class uses them: a WAV file is its parameters, the chunks written
    and whether its handle was released, and a sample rate of [2^31] or
    more, for which the header has no room, is not covered.  Assertions are
    taken as enabled. *)

From Stdlib Require Import ZArith String Ascii List Bool Lia.
From Stdlib Require Import DecimalString.
From Stdlib.Strings Require Import Byte.
Import ListNotations.

Local Open Scope string_scope.
Local Open Scope Z_scope.

(** ** Python strings *)

Module PyStr.

Definition CR : ascii := "013"%char.
Definition LF : ascii := "010"%char.
Definition DQUOTE : ascii := "034"%char.

(** The terminator: carriage return, line feed. *)
Definition CRLF : string := String CR (String LF EmptyString).

Definition len (s : string) : Z := Z.of_nat (String.length s).

(** The last two characters of [s] are the terminator: [s[-2:] == end]
    in [recv_udp], [response.endswith(...)] in [recv_serial]. *)
Fixpoint ends_crlf (s : string) : bool :=
  match s with
  | EmptyString => false
  | String c s' =>
      match s' with
      | String d EmptyString => Ascii.eqb c CR && Ascii.eqb d LF
      | _ => ends_crlf s'
      end
  end.

(** [s.replace(terminator, empty)]: every occurrence, scanning left to
    right. *)
Fixpoint remove_crlf (s : string) : string :=
  match s with
  | EmptyString => EmptyString
  | String c s' =>
      match s' with
      | String d s'' =>
          if Ascii.eqb c CR && Ascii.eqb d LF then remove_crlf s''
          else String c (remove_crlf s')
      | EmptyString => String c EmptyString
      end
  end.

(** [s.replace(quote, empty)] for the double-quote character. *)
Fixpoint remove_quotes (s : string) : string :=
  match s with
  | EmptyString => EmptyString
  | String c s' =>
      if Ascii.eqb c DQUOTE then remove_quotes s'
      else String c (remove_quotes s')
  end.

(** [str(z)] for an [int]. *)
Definition str_of_int (z : Z) : string :=
  NilZero.string_of_int (Z.to_int z).

(** [data[:n]]. *)
Definition prefix (n : nat) (s : string) : string := String.substring 0 n s.

(** *** [int(s)] for a [str]

    Surrounding white space is dropped, one sign is allowed, and the
    digits may be grouped by single underscores.  Only ASCII text is
    covered; [None] is Python's [ValueError]. *)

(** The characters [int] skips at both ends of an ASCII string: tab, line
    feed, vertical tab, form feed, carriage return and the space.  The
    separators 28 to 31, which [str.strip] drops, are not among them. *)
Definition is_space (c : ascii) : bool :=
  let n := nat_of_ascii c in
  ((9 <=? n) && (n <=? 13) || (n =? 32))%nat.

Definition is_digit (c : ascii) : bool :=
  let n := nat_of_ascii c in ((48 <=? n) && (n <=? 57))%nat.

Definition digit_val (c : ascii) : Z := Z.of_nat (nat_of_ascii c) - 48.

Fixpoint lstrip (s : string) : string :=
  match s with
  | EmptyString => EmptyString
  | String c s' => if is_space c then lstrip s' else s
  end.

Fixpoint rstrip (s : string) : string :=
  match s with
  | EmptyString => EmptyString
  | String c s' =>
      match rstrip s' with
      | EmptyString => if is_space c then EmptyString else String c EmptyString
      | r => String c r
      end
  end.

Definition strip (s : string) : string := rstrip (lstrip s).

(** [after_digit] tells whether the character just read was a digit: an
    underscore is accepted only there, and the literal must end there. *)
Fixpoint parse_digits (s : string) (acc : Z) (after_digit : bool) : option Z :=
  match s with
  | EmptyString => if after_digit then Some acc else None
  | String c s' =>
      if is_digit c then parse_digits s' (acc * 10 + digit_val c) true
      else if Ascii.eqb c "_"%char && after_digit then parse_digits s' acc false
      else None
  end.

Definition int_of_str (s : string) : option Z :=
  match strip s with
  | String "-"%char s' => option_map Z.opp (parse_digits s' 0 false)
  | String "+"%char s' => parse_digits s' 0 false
  | s' => parse_digits s' 0 false
  end.

End PyStr.

(** ** Values and exceptions *)

(** The values the client stores in dynamically typed slots: the cache
    fields start as the integer [-1] and later hold strings. *)
Inductive PyVal : Type :=
| VInt (z : Z)
| VStr (s : string).

(** [str(v)], the conversion [set] applies to a value that is not a string. *)
Definition py_str (v : PyVal) : string :=
  match v with
  | VInt z => PyStr.str_of_int z
  | VStr s => s
  end.

(** A header slot: the integer it is initialised with, or a slice of the
    datagram. *)
Inductive RtpField : Type :=
| RInt (z : Z)
| RBytes (b : list byte).

Inductive Iface : Type := Udp | Serial.

(** The configuration dict, in insertion order; [[]] is the empty dict. *)
Definition Config : Type := list (string * PyVal).

(** The command socket; [settimeout(2)] is its only attribute. *)
Record CmdSocket : Type := mkCmdSocket { timeout : Z }.

(** The stream socket: the port it is bound to ([None] when [bind] failed)
    and whether [close] was called on it. *)
Record StreamSocket : Type := mkStreamSocket {
  bound_port : option Z;
  closed : bool
}.

Inductive Tx : Type :=
| TxSerial (data : string)
| TxUdp (dest : string * Z) (data : string).

(** A WAV file and the [wave] writer it belongs to: the parameters set
    before the first write (0 while unset), the raw chunks handed to
    [writeframesraw], oldest first, and whether the file handle was
    released, which [close] does whether it succeeds or not. *)
Record WavFile : Type := mkWavFile {
  nchannels : Z;
  sampwidth : Z;
  framerate : Z;
  frames : list (list byte);
  finalized : bool
}.

Inductive exn : Type :=
| AssertionError
| ValueError (msg : string)
| AttributeError
| IndexError
| SocketTimeout
| OSError
| SerialException
| ZeroDivisionError
| OverflowError
| WaveError
| StructError.

(** ** Python numbers *)

Module PyNum.

(** The integer nearest to [n / d], ties going to the even one, for
    [0 <= n] and [0 < d]. *)
Definition round_half_even (n d : Z) : Z :=
  let q := n / d in
  let r := n mod d in
  if 2 * r <? d then q
  else if d <? 2 * r then q + 1
  else if Z.even q then q else q + 1.

(** [floor (log2 (a / b))] for [0 < a] and [0 < b]. *)
Definition quotient_exponent (a b : Z) : Z :=
  let e := Z.log2 a - Z.log2 b in
  let below := if 0 <=? e then a <? b * 2 ^ e else a * 2 ^ (- e) <? b in
  if below then e - 1 else e.

(** The double nearest to [a / b] for [0 < a] and [0 < b], as a pair
    [(m, s)] that stands for [m * 2^s]: 53 bits of mantissa, the exponent
    not below that of the smallest subnormal. *)
Definition nearest_double (a b : Z) : Z * Z :=
  let s := Z.max (quotient_exponent a b - 52) (-1074) in
  let m :=
    if 0 <=? s then round_half_even a (b * 2 ^ s)
    else round_half_even (a * 2 ^ (- s)) b in
  (m, s).

(** [int(a / b)] for two [int]s.  The true division gives the double
    nearest to the quotient and raises [OverflowError] when that is
    [2^1024] or more; [int] cuts the double towards zero. *)
Definition int_true_div (a b : Z) : exn + Z :=
  if b =? 0 then inl ZeroDivisionError
  else if a =? 0 then inr 0
  else
    let (m, s) := nearest_double (Z.abs a) (Z.abs b) in
    if (0 <=? s) && (2 ^ 1024 <=? m * 2 ^ s) then inl OverflowError
    else
      let magnitude := if 0 <=? s then m * 2 ^ s else m / 2 ^ (- s) in
      inr (Z.sgn a * Z.sgn b * magnitude).

End PyNum.

(** ** The object and its surroundings *)

(** The attributes of a [NeXOS] instance, under the names the class gives
    them. *)
Record NeXOS : Type := mkNeXOS {
  interface : option Iface;  (* None, 'udp' or 'serial' *)
  socket : option CmdSocket;  (* command socket, None until init_udp *)
  serial : option string;  (* serial handle (its device path), None until init_serial *)
  nexos_address : option (string * Z);  (* (ip, port) of the device, created by init_udp *)
  streaming_port : Z;
  newSeqNum : Z;
  oldSeqNum : Z;
  rtpVersion : Z;
  rtpPayloadType : Z;
  rtpSeqNum : RtpField;
  rtpTimestampNs : RtpField;
  rtpTimestampS : RtpField;
  packetSize : Z;
  samplesPerPacket : Z;
  open_stream_port : bool;
  stream_socket : option StreamSocket;  (* attribute created by open_stream *)
  config_info : Config;  (* dict with the configuration *)
  ch : Z;
  srate : Z;
  gain_status : PyVal;
  eq_status : PyVal
}.

Definition upd_interface (v : option Iface) (o : NeXOS) : NeXOS :=
  {| interface := v; socket := socket o; serial := serial o;
     nexos_address := nexos_address o; streaming_port := streaming_port o;
     newSeqNum := newSeqNum o; oldSeqNum := oldSeqNum o;
     rtpVersion := rtpVersion o; rtpPayloadType := rtpPayloadType o;
     rtpSeqNum := rtpSeqNum o; rtpTimestampNs := rtpTimestampNs o;
     rtpTimestampS := rtpTimestampS o; packetSize := packetSize o;
     samplesPerPacket := samplesPerPacket o;
     open_stream_port := open_stream_port o;
     stream_socket := stream_socket o; config_info := config_info o;
     ch := ch o; srate := srate o; gain_status := gain_status o;
     eq_status := eq_status o |}.

Definition upd_socket (v : option CmdSocket) (o : NeXOS) : NeXOS :=
  {| interface := interface o; socket := v; serial := serial o;
     nexos_address := nexos_address o; streaming_port := streaming_port o;
     newSeqNum := newSeqNum o; oldSeqNum := oldSeqNum o;
     rtpVersion := rtpVersion o; rtpPayloadType := rtpPayloadType o;
     rtpSeqNum := rtpSeqNum o; rtpTimestampNs := rtpTimestampNs o;
     rtpTimestampS := rtpTimestampS o; packetSize := packetSize o;
     samplesPerPacket := samplesPerPacket o;
     open_stream_port := open_stream_port o;
     stream_socket := stream_socket o; config_info := config_info o;
     ch := ch o; srate := srate o; gain_status := gain_status o;
     eq_status := eq_status o |}.

Definition upd_serial (v : option string) (o : NeXOS) : NeXOS :=
  {| interface := interface o; socket := socket o; serial := v;
     nexos_address := nexos_address o; streaming_port := streaming_port o;
     newSeqNum := newSeqNum o; oldSeqNum := oldSeqNum o;
     rtpVersion := rtpVersion o; rtpPayloadType := rtpPayloadType o;
     rtpSeqNum := rtpSeqNum o; rtpTimestampNs := rtpTimestampNs o;
     rtpTimestampS := rtpTimestampS o; packetSize := packetSize o;
     samplesPerPacket := samplesPerPacket o;
     open_stream_port := open_stream_port o;
     stream_socket := stream_socket o; config_info := config_info o;
     ch := ch o; srate := srate o; gain_status := gain_status o;
     eq_status := eq_status o |}.

Definition upd_nexos_address (v : option (string * Z)) (o : NeXOS) : NeXOS :=
  {| interface := interface o; socket := socket o; serial := serial o;
     nexos_address := v; streaming_port := streaming_port o;
     newSeqNum := newSeqNum o; oldSeqNum := oldSeqNum o;
     rtpVersion := rtpVersion o; rtpPayloadType := rtpPayloadType o;
     rtpSeqNum := rtpSeqNum o; rtpTimestampNs := rtpTimestampNs o;
     rtpTimestampS := rtpTimestampS o; packetSize := packetSize o;
     samplesPerPacket := samplesPerPacket o;
     open_stream_port := open_stream_port o;
     stream_socket := stream_socket o; config_info := config_info o;
     ch := ch o; srate := srate o; gain_status := gain_status o;
     eq_status := eq_status o |}.

Definition upd_newSeqNum (v : Z) (o : NeXOS) : NeXOS :=
  {| interface := interface o; socket := socket o; serial := serial o;
     nexos_address := nexos_address o; streaming_port := streaming_port o;
     newSeqNum := v; oldSeqNum := oldSeqNum o; rtpVersion := rtpVersion o;
     rtpPayloadType := rtpPayloadType o; rtpSeqNum := rtpSeqNum o;
     rtpTimestampNs := rtpTimestampNs o; rtpTimestampS := rtpTimestampS o;
     packetSize := packetSize o; samplesPerPacket := samplesPerPacket o;
     open_stream_port := open_stream_port o;
     stream_socket := stream_socket o; config_info := config_info o;
     ch := ch o; srate := srate o; gain_status := gain_status o;
     eq_status := eq_status o |}.

Definition upd_oldSeqNum (v : Z) (o : NeXOS) : NeXOS :=
  {| interface := interface o; socket := socket o; serial := serial o;
     nexos_address := nexos_address o; streaming_port := streaming_port o;
     newSeqNum := newSeqNum o; oldSeqNum := v; rtpVersion := rtpVersion o;
     rtpPayloadType := rtpPayloadType o; rtpSeqNum := rtpSeqNum o;
     rtpTimestampNs := rtpTimestampNs o; rtpTimestampS := rtpTimestampS o;
     packetSize := packetSize o; samplesPerPacket := samplesPerPacket o;
     open_stream_port := open_stream_port o;
     stream_socket := stream_socket o; config_info := config_info o;
     ch := ch o; srate := srate o; gain_status := gain_status o;
     eq_status := eq_status o |}.

Definition upd_rtpVersion (v : Z) (o : NeXOS) : NeXOS :=
  {| interface := interface o; socket := socket o; serial := serial o;
     nexos_address := nexos_address o; streaming_port := streaming_port o;
     newSeqNum := newSeqNum o; oldSeqNum := oldSeqNum o; rtpVersion := v;
     rtpPayloadType := rtpPayloadType o; rtpSeqNum := rtpSeqNum o;
     rtpTimestampNs := rtpTimestampNs o; rtpTimestampS := rtpTimestampS o;
     packetSize := packetSize o; samplesPerPacket := samplesPerPacket o;
     open_stream_port := open_stream_port o;
     stream_socket := stream_socket o; config_info := config_info o;
     ch := ch o; srate := srate o; gain_status := gain_status o;
     eq_status := eq_status o |}.

Definition upd_rtpPayloadType (v : Z) (o : NeXOS) : NeXOS :=
  {| interface := interface o; socket := socket o; serial := serial o;
     nexos_address := nexos_address o; streaming_port := streaming_port o;
     newSeqNum := newSeqNum o; oldSeqNum := oldSeqNum o;
     rtpVersion := rtpVersion o; rtpPayloadType := v;
     rtpSeqNum := rtpSeqNum o; rtpTimestampNs := rtpTimestampNs o;
     rtpTimestampS := rtpTimestampS o; packetSize := packetSize o;
     samplesPerPacket := samplesPerPacket o;
     open_stream_port := open_stream_port o;
     stream_socket := stream_socket o; config_info := config_info o;
     ch := ch o; srate := srate o; gain_status := gain_status o;
     eq_status := eq_status o |}.

Definition upd_rtpSeqNum (v : RtpField) (o : NeXOS) : NeXOS :=
  {| interface := interface o; socket := socket o; serial := serial o;
     nexos_address := nexos_address o; streaming_port := streaming_port o;
     newSeqNum := newSeqNum o; oldSeqNum := oldSeqNum o;
     rtpVersion := rtpVersion o; rtpPayloadType := rtpPayloadType o;
     rtpSeqNum := v; rtpTimestampNs := rtpTimestampNs o;
     rtpTimestampS := rtpTimestampS o; packetSize := packetSize o;
     samplesPerPacket := samplesPerPacket o;
     open_stream_port := open_stream_port o;
     stream_socket := stream_socket o; config_info := config_info o;
     ch := ch o; srate := srate o; gain_status := gain_status o;
     eq_status := eq_status o |}.

Definition upd_rtpTimestampNs (v : RtpField) (o : NeXOS) : NeXOS :=
  {| interface := interface o; socket := socket o; serial := serial o;
     nexos_address := nexos_address o; streaming_port := streaming_port o;
     newSeqNum := newSeqNum o; oldSeqNum := oldSeqNum o;
     rtpVersion := rtpVersion o; rtpPayloadType := rtpPayloadType o;
     rtpSeqNum := rtpSeqNum o; rtpTimestampNs := v;
     rtpTimestampS := rtpTimestampS o; packetSize := packetSize o;
     samplesPerPacket := samplesPerPacket o;
     open_stream_port := open_stream_port o;
     stream_socket := stream_socket o; config_info := config_info o;
     ch := ch o; srate := srate o; gain_status := gain_status o;
     eq_status := eq_status o |}.

Definition upd_rtpTimestampS (v : RtpField) (o : NeXOS) : NeXOS :=
  {| interface := interface o; socket := socket o; serial := serial o;
     nexos_address := nexos_address o; streaming_port := streaming_port o;
     newSeqNum := newSeqNum o; oldSeqNum := oldSeqNum o;
     rtpVersion := rtpVersion o; rtpPayloadType := rtpPayloadType o;
     rtpSeqNum := rtpSeqNum o; rtpTimestampNs := rtpTimestampNs o;
     rtpTimestampS := v; packetSize := packetSize o;
     samplesPerPacket := samplesPerPacket o;
     open_stream_port := open_stream_port o;
     stream_socket := stream_socket o; config_info := config_info o;
     ch := ch o; srate := srate o; gain_status := gain_status o;
     eq_status := eq_status o |}.

Definition upd_open_stream_port (v : bool) (o : NeXOS) : NeXOS :=
  {| interface := interface o; socket := socket o; serial := serial o;
     nexos_address := nexos_address o; streaming_port := streaming_port o;
     newSeqNum := newSeqNum o; oldSeqNum := oldSeqNum o;
     rtpVersion := rtpVersion o; rtpPayloadType := rtpPayloadType o;
     rtpSeqNum := rtpSeqNum o; rtpTimestampNs := rtpTimestampNs o;
     rtpTimestampS := rtpTimestampS o; packetSize := packetSize o;
     samplesPerPacket := samplesPerPacket o; open_stream_port := v;
     stream_socket := stream_socket o; config_info := config_info o;
     ch := ch o; srate := srate o; gain_status := gain_status o;
     eq_status := eq_status o |}.

Definition upd_stream_socket (v : option StreamSocket) (o : NeXOS) : NeXOS :=
  {| interface := interface o; socket := socket o; serial := serial o;
     nexos_address := nexos_address o; streaming_port := streaming_port o;
     newSeqNum := newSeqNum o; oldSeqNum := oldSeqNum o;
     rtpVersion := rtpVersion o; rtpPayloadType := rtpPayloadType o;
     rtpSeqNum := rtpSeqNum o; rtpTimestampNs := rtpTimestampNs o;
     rtpTimestampS := rtpTimestampS o; packetSize := packetSize o;
     samplesPerPacket := samplesPerPacket o;
     open_stream_port := open_stream_port o; stream_socket := v;
     config_info := config_info o; ch := ch o; srate := srate o;
     gain_status := gain_status o; eq_status := eq_status o |}.

Definition upd_config_info (v : Config) (o : NeXOS) : NeXOS :=
  {| interface := interface o; socket := socket o; serial := serial o;
     nexos_address := nexos_address o; streaming_port := streaming_port o;
     newSeqNum := newSeqNum o; oldSeqNum := oldSeqNum o;
     rtpVersion := rtpVersion o; rtpPayloadType := rtpPayloadType o;
     rtpSeqNum := rtpSeqNum o; rtpTimestampNs := rtpTimestampNs o;
     rtpTimestampS := rtpTimestampS o; packetSize := packetSize o;
     samplesPerPacket := samplesPerPacket o;
     open_stream_port := open_stream_port o;
     stream_socket := stream_socket o; config_info := v; ch := ch o;
     srate := srate o; gain_status := gain_status o;
     eq_status := eq_status o |}.

Definition upd_ch (v : Z) (o : NeXOS) : NeXOS :=
  {| interface := interface o; socket := socket o; serial := serial o;
     nexos_address := nexos_address o; streaming_port := streaming_port o;
     newSeqNum := newSeqNum o; oldSeqNum := oldSeqNum o;
     rtpVersion := rtpVersion o; rtpPayloadType := rtpPayloadType o;
     rtpSeqNum := rtpSeqNum o; rtpTimestampNs := rtpTimestampNs o;
     rtpTimestampS := rtpTimestampS o; packetSize := packetSize o;
     samplesPerPacket := samplesPerPacket o;
     open_stream_port := open_stream_port o;
     stream_socket := stream_socket o; config_info := config_info o; ch := v;
     srate := srate o; gain_status := gain_status o;
     eq_status := eq_status o |}.

Definition upd_srate (v : Z) (o : NeXOS) : NeXOS :=
  {| interface := interface o; socket := socket o; serial := serial o;
     nexos_address := nexos_address o; streaming_port := streaming_port o;
     newSeqNum := newSeqNum o; oldSeqNum := oldSeqNum o;
     rtpVersion := rtpVersion o; rtpPayloadType := rtpPayloadType o;
     rtpSeqNum := rtpSeqNum o; rtpTimestampNs := rtpTimestampNs o;
     rtpTimestampS := rtpTimestampS o; packetSize := packetSize o;
     samplesPerPacket := samplesPerPacket o;
     open_stream_port := open_stream_port o;
     stream_socket := stream_socket o; config_info := config_info o;
     ch := ch o; srate := v; gain_status := gain_status o;
     eq_status := eq_status o |}.

Definition upd_gain_status (v : PyVal) (o : NeXOS) : NeXOS :=
  {| interface := interface o; socket := socket o; serial := serial o;
     nexos_address := nexos_address o; streaming_port := streaming_port o;
     newSeqNum := newSeqNum o; oldSeqNum := oldSeqNum o;
     rtpVersion := rtpVersion o; rtpPayloadType := rtpPayloadType o;
     rtpSeqNum := rtpSeqNum o; rtpTimestampNs := rtpTimestampNs o;
     rtpTimestampS := rtpTimestampS o; packetSize := packetSize o;
     samplesPerPacket := samplesPerPacket o;
     open_stream_port := open_stream_port o;
     stream_socket := stream_socket o; config_info := config_info o;
     ch := ch o; srate := srate o; gain_status := v;
     eq_status := eq_status o |}.

Definition upd_eq_status (v : PyVal) (o : NeXOS) : NeXOS :=
  {| interface := interface o; socket := socket o; serial := serial o;
     nexos_address := nexos_address o; streaming_port := streaming_port o;
     newSeqNum := newSeqNum o; oldSeqNum := oldSeqNum o;
     rtpVersion := rtpVersion o; rtpPayloadType := rtpPayloadType o;
     rtpSeqNum := rtpSeqNum o; rtpTimestampNs := rtpTimestampNs o;
     rtpTimestampS := rtpTimestampS o; packetSize := packetSize o;
     samplesPerPacket := samplesPerPacket o;
     open_stream_port := open_stream_port o;
     stream_socket := stream_socket o; config_info := config_info o;
     ch := ch o; srate := srate o; gain_status := gain_status o;
     eq_status := v |}.

(** What the client talks to.  The receive fields are what the outside
    will deliver, in order; the other fields record what the client did. *)
Record World : Type := mkWorld {
  serial_devices : list string;  (* serial device paths that can be opened *)
  serial_rx : string;  (* bytes still to arrive on the serial line *)
  udp_rx : list string;  (* datagrams still to arrive at the command socket *)
  stream_rx : list (list byte);  (* datagrams still to arrive at the stream socket *)
  ports_in_use : list Z;  (* local UDP ports held by other processes *)
  tx : list Tx;  (* everything written to a transport, oldest first *)
  clock : nat -> string;  (* formatted UTC time of the n-th reading of the clock *)
  ticks : nat;  (* number of clock readings so far *)
  unwritable : list (string * exn);  (* paths that open() refuses, each with what it raises *)
  files : list (string * WavFile);  (* WAV files by name, the one opened last at the end *)
  console : list (list PyVal);  (* lines printed through msg / warnmsg *)
  threads : list (string * Config)  (* metadata tasks started: (filename, tags) *)
}.

Definition w_serial_rx (v : string) (o : World) : World :=
  {| serial_devices := serial_devices o; serial_rx := v; udp_rx := udp_rx o;
     stream_rx := stream_rx o; ports_in_use := ports_in_use o; tx := tx o;
     clock := clock o; ticks := ticks o; unwritable := unwritable o;
     files := files o; console := console o; threads := threads o |}.

Definition w_udp_rx (v : list string) (o : World) : World :=
  {| serial_devices := serial_devices o; serial_rx := serial_rx o;
     udp_rx := v; stream_rx := stream_rx o; ports_in_use := ports_in_use o;
     tx := tx o; clock := clock o; ticks := ticks o;
     unwritable := unwritable o; files := files o; console := console o;
     threads := threads o |}.

Definition w_stream_rx (v : list (list byte)) (o : World) : World :=
  {| serial_devices := serial_devices o; serial_rx := serial_rx o;
     udp_rx := udp_rx o; stream_rx := v; ports_in_use := ports_in_use o;
     tx := tx o; clock := clock o; ticks := ticks o;
     unwritable := unwritable o; files := files o; console := console o;
     threads := threads o |}.

Definition w_tx (v : list Tx) (o : World) : World :=
  {| serial_devices := serial_devices o; serial_rx := serial_rx o;
     udp_rx := udp_rx o; stream_rx := stream_rx o;
     ports_in_use := ports_in_use o; tx := v; clock := clock o;
     ticks := ticks o; unwritable := unwritable o; files := files o;
     console := console o; threads := threads o |}.

Definition w_ticks (v : nat) (o : World) : World :=
  {| serial_devices := serial_devices o; serial_rx := serial_rx o;
     udp_rx := udp_rx o; stream_rx := stream_rx o;
     ports_in_use := ports_in_use o; tx := tx o; clock := clock o; ticks := v;
     unwritable := unwritable o; files := files o; console := console o;
     threads := threads o |}.

Definition w_files (v : list (string * WavFile)) (o : World) : World :=
  {| serial_devices := serial_devices o; serial_rx := serial_rx o;
     udp_rx := udp_rx o; stream_rx := stream_rx o;
     ports_in_use := ports_in_use o; tx := tx o; clock := clock o;
     ticks := ticks o; unwritable := unwritable o; files := v;
     console := console o; threads := threads o |}.

Definition w_console (v : list (list PyVal)) (o : World) : World :=
  {| serial_devices := serial_devices o; serial_rx := serial_rx o;
     udp_rx := udp_rx o; stream_rx := stream_rx o;
     ports_in_use := ports_in_use o; tx := tx o; clock := clock o;
     ticks := ticks o; unwritable := unwritable o; files := files o;
     console := v; threads := threads o |}.

Definition w_threads (v : list (string * Config)) (o : World) : World :=
  {| serial_devices := serial_devices o; serial_rx := serial_rx o;
     udp_rx := udp_rx o; stream_rx := stream_rx o;
     ports_in_use := ports_in_use o; tx := tx o; clock := clock o;
     ticks := ticks o; unwritable := unwritable o; files := files o;
     console := console o; threads := v |}.

Record State : Type := mkState { self : NeXOS; world : World }.

Definition on_self (f : NeXOS -> NeXOS) (st : State) : State :=
  {| self := f (self st); world := world st |}.

Definition on_world (f : World -> World) (st : State) : State :=
  {| self := self st; world := f (world st) |}.

(** ** Outcomes and sequencing *)

Inductive Result (A : Type) : Type :=
| Ok (a : A) (st : State)
| Raise (e : exn) (st : State)
| Hang.

Arguments Ok {A} a st.
Arguments Raise {A} e st.
Arguments Hang {A}.

Definition M (A : Type) : Type := State -> Result A.

Definition ret {A} (a : A) : M A := fun st => Ok a st.

Definition bind {A B} (m : M A) (k : A -> M B) : M B :=
  fun st =>
    match m st with
    | Ok a st' => k a st'
    | Raise e st' => Raise e st'
    | Hang => Hang
    end.

Definition raise {A} (e : exn) : M A := fun st => Raise e st.

Definition hang {A} : M A := fun _ => Hang.

Definition get_self {A} (f : NeXOS -> A) : M A := fun st => Ok (f (self st)) st.

Definition get_world {A} (f : World -> A) : M A := fun st => Ok (f (world st)) st.

Definition modify_self (f : NeXOS -> NeXOS) : M unit := fun st => Ok tt (on_self f st).

Definition modify_world (f : World -> World) : M unit := fun st => Ok tt (on_world f st).

(** [assert c]. *)
Definition py_assert (c : bool) : M unit :=
  if c then ret tt else raise AssertionError.

Declare Scope py_scope.
Delimit Scope py_scope with py.
Notation "x <- m ;; k" := (bind m (fun x => k))
  (at level 61, m at next level, right associativity) : py_scope.
Notation "m ;; k" := (bind m (fun _ => k))
  (at level 61, right associativity) : py_scope.
Local Open Scope py_scope.

(** ** The client object *)

(** [NeXOS.__init__].  ([self.address] is assigned [None] there and never
    read or written again; it has no field here.) *)
Definition init : NeXOS :=
  {| interface := None; socket := None; serial := None;
     nexos_address := None;
     streaming_port := 4002;
     newSeqNum := -1; oldSeqNum := -1;
     rtpVersion := -1; rtpPayloadType := -1;
     rtpSeqNum := RInt (-1); rtpTimestampNs := RInt (-1);
     rtpTimestampS := RInt (-1);
     packetSize := 1036; samplesPerPacket := 512;
     open_stream_port := false; stream_socket := None;
     config_info := [];
     ch := -1; srate := -1;
     gain_status := VInt (-1); eq_status := VInt (-1) |}.

(** *** Serial port *)

(** [serial.Serial(port=device, ...)] inside [init_serial]. *)
Definition init_serial (device : string) : M unit :=
  s <- get_self serial ;;
  match s with
  | Some _ => raise (ValueError "Serial already configured!")
  | None =>
      devs <- get_world serial_devices ;;
      (if existsb (String.eqb device) devs
       then modify_self (upd_serial (Some device))
       else raise SerialException) ;;
      i <- get_self interface ;;
      match i with
      | None => modify_self (upd_interface (Some Serial))
      | Some _ => ret tt
      end
  end.

(** The loop of [recv_serial]: one [read(1)] per round.  A read that times
    out yields the empty string and the loop goes round again, so with
    nothing left on the line it never ends ([None]). *)
Fixpoint recv_serial_loop (rx : string) (response : string) (n : Z)
  : option (string * string) :=
  if PyStr.len response <? n then
    match rx with
    | EmptyString => None
    | String c rx' =>
        let response' := response ++ String c EmptyString in
        if PyStr.ends_crlf response' then Some (response', rx')
        else recv_serial_loop rx' response' n
    end
  else Some (response, rx).

(** [self.serial] is looked at by the first [read] only: with [n] at 0 or
    below the loop is not entered and the empty string comes back, handle
    or no handle. *)
Definition recv_serial (n : Z) : M string :=
  fun st =>
    match serial (self st) with
    | None =>
        if PyStr.len EmptyString <? n then Raise AttributeError st
        else Ok (PyStr.remove_crlf EmptyString) st
    | Some _ =>
        match recv_serial_loop (serial_rx (world st)) EmptyString n with
        | Some (response, rx') =>
            Ok (PyStr.remove_crlf response) (on_world (w_serial_rx rx') st)
        | None => Hang
        end
    end.

Definition send_serial (cmd : string) : M Z :=
  s <- get_self serial ;;
  match s with
  | None => raise AttributeError
  | Some _ =>
      modify_world (fun w => w_tx (tx w ++ [TxSerial cmd]) w) ;;
      ret (PyStr.len cmd)
  end.

(** *** UDP *)

(** The loop of [recv_udp]: one [recv(1024)] per round; with no datagram
    left the socket's time-out fires ([None]). *)
Fixpoint recv_udp_loop (rx : list string) (buffer : string)
  : option (string * list string) :=
  match rx with
  | [] => None
  | data :: rx' =>
      let buffer' := buffer ++ PyStr.prefix 1024 data in
      if PyStr.ends_crlf buffer' then Some (buffer', rx')
      else recv_udp_loop rx' buffer'
  end.

Definition recv_udp : M string :=
  fun st =>
    match socket (self st) with
    | None => Raise AttributeError st
    | Some _ =>
        match recv_udp_loop (udp_rx (world st)) EmptyString with
        | Some (buffer, rx') =>
            Ok (PyStr.remove_crlf buffer) (on_world (w_udp_rx rx') st)
        | None => Raise SocketTimeout (on_world (w_udp_rx []) st)
        end
    end.

(** [self.socket.sendto(cmd, self.nexos_address)]. *)
Definition sendto (cmd : string) : M unit :=
  s <- get_self socket ;;
  a <- get_self nexos_address ;;
  match s, a with
  | Some _, Some addr => modify_world (fun w => w_tx (tx w ++ [TxUdp addr cmd]) w)
  | _, _ => raise AttributeError
  end.

Definition send_udp (cmd : string) : M unit := sendto cmd.

Definition init_udp (ip_addr : string) (port : Z) : M unit :=
  modify_self (upd_nexos_address (Some (ip_addr, port))) ;;
  modify_self (upd_socket (Some {| timeout := 2 |})) ;;
  sendto (String.append "*idn?" (String PyStr.LF (String PyStr.CR EmptyString))) ;;
  _ <- recv_udp ;;
  i <- get_self interface ;;
  match i with
  | None => modify_self (upd_interface (Some Udp))
  | Some _ => ret tt
  end.

(** *** Generic wrappers *)

Definition send (string : string) : M unit :=
  i <- get_self interface ;;
  py_assert (match i with Some _ => true | None => false end) ;;
  let cmd := String.append string PyStr.CRLF in
  match i with
  | Some Serial => _ <- send_serial cmd ;; ret tt
  | Some Udp => send_udp cmd
  | None => ret tt
  end.

(** [recv] falls through to an implicit [None] when no interface is set. *)
Definition recv (n : Z) : M (option string) :=
  i <- get_self interface ;;
  match i with
  | Some Udp => r <- recv_udp ;; ret (Some r)
  | Some Serial => r <- recv_serial n ;; ret (Some r)
  | None => ret None
  end.

Definition query (command : string) : M string :=
  send command ;;
  r <- recv 256 ;;
  match r with
  | Some r => ret (PyStr.remove_quotes r)
  | None => raise AttributeError
  end.

(** The command line of [set]: the parameter, a blank and the value, the
    value between double quotes when [enclose] is set. *)
Definition command (param value : string) (enclose : bool) : string :=
  if enclose
  then param ++ " " ++ String PyStr.DQUOTE (value ++ String PyStr.DQUOTE EmptyString)
  else param ++ " " ++ value.

(** [set]: [value] is converted with [str] when it is not a string; the
    exception of a failed read-back is the [ValueError] of the source. *)
Definition set (param : string) (value : PyVal) (enclose : bool) : M unit :=
  let value := py_str value in
  let cmd := command param value enclose in
  send cmd ;;
  returned_value <- query (param ++ "?") ;;
  if String.eqb returned_value value then ret tt
  else raise (ValueError ("could not set param " ++ param ++ "!!")).

Definition iface_of_name (name : string) : option Iface :=
  if String.eqb name "udp" then Some Udp
  else if String.eqb name "serial" then Some Serial
  else None.

Definition set_interface (interface : string) : M unit :=
  py_assert (match iface_of_name interface with Some _ => true | None => false end) ;;
  modify_self (upd_interface (iface_of_name interface)).

(** *** High-level functions *)

Definition set_recv_ip (ip_addr : string) : M unit :=
  set "SYSTem:COMMunicate:LAN:RADDRess" (VStr ip_addr) true.

Definition set_recv_port (port : Z) : M unit :=
  set "SYSTem:COMMunicate:LAN:RPORT" (VInt port) false.

Definition get_ip : M string := query "SYSTem:COMMunicate:LAN:ADDRess?".

Definition valid_srates : list Z := [100000; 50000; 200000].

Definition set_srate (srate : Z) : M unit :=
  py_assert (existsb (Z.eqb srate) valid_srates) ;;
  set "CONFigure:ACQuire:SRATe" (VInt srate) false.

(** [int(s)] at a call site: [ValueError] when the text is no integer. *)
Definition py_int (s : string) : M Z :=
  match PyStr.int_of_str s with
  | Some z => ret z
  | None => raise (ValueError "invalid literal for int() with base 10")
  end.

Definition get_srate : M Z :=
  r <- query "CONFigure:ACQuire:SRATe?" ;;
  py_int r.

Definition set_channel (ch : Z) : M unit :=
  py_assert (existsb (Z.eqb ch) [1; 2]) ;;
  let cmd := "INPut" ++ PyStr.str_of_int ch ++ ":STATe" in
  set cmd (VInt 1) false.

Definition get_channel : M Z :=
  let cmd := "INPut1:STATe?" in
  r <- query cmd ;;
  n <- py_int r ;;
  if n =? 1 then ret 1 else ret 2.

Definition set_gain (value : bool) : M unit :=
  if value then set "INPut1:GAIN:STATe" (VInt 1) false
  else set "INPut1:GAIN:STATe" (VInt 0) false.

Definition get_gain : M string := query "INPut1:GAIN:STATe?".

Definition set_equalizer (value : bool) : M unit :=
  set "INPut1:EQUalizer:STATe" (VInt (if value then 1 else 0)) false.

Definition get_equalizer : M string := query "INPut1:EQUalizer:STATe?".

(** *** Stream reception *)

Definition msg (args : list PyVal) : M unit :=
  modify_world (fun w => w_console (console w ++ [VStr "[blue]" :: args]) w).

Definition warnmsg (args : list PyVal) : M unit :=
  modify_world (fun w => w_console (console w ++ [VStr "[yellow]" :: args]) w).

(** [open_stream].  Rebinding [self.stream_socket] drops the only reference
    to the socket of an earlier call, which closes it, so the port of an
    earlier call is free again when [bind] runs; [bind] fails only on a
    port that another process holds. *)
Definition open_stream (port : Z) : M unit :=
  modify_self (upd_stream_socket (Some {| bound_port := None; closed := false |})) ;;
  busy <- get_world ports_in_use ;;
  (if existsb (Z.eqb port) busy then raise OSError
   else modify_self (upd_stream_socket (Some {| bound_port := Some port; closed := false |}))) ;;
  modify_self (upd_open_stream_port true).

Definition close_stream : M unit :=
  s <- get_self stream_socket ;;
  match s with
  | None => raise AttributeError
  | Some sock =>
      modify_self (upd_stream_socket (Some {| bound_port := bound_port sock; closed := true |})) ;;
      modify_self (upd_open_stream_port false)
  end.

(** The static helper [bytes_to_int]; [int.from_bytes(b, byteorder='big')]
    computes the same number. *)
Definition bytes_to_int (bytes : list byte) : Z :=
  fold_left (fun result b => result * 256 + Z.of_N (Byte.to_N b)) bytes 0.

Definition int_from_bytes_big (bytes : list byte) : Z := bytes_to_int bytes.

(** [b[i:j]] for [0 <= i <= j]. *)
Definition slice (i j : nat) (b : list byte) : list byte := firstn (j - i) (skipn i b).

(** [self.stream_socket.recv(self.packetSize)]: the next datagram, cut to
    the buffer size.  The socket has no time-out. *)
Definition stream_recv : M (list byte) :=
  fun st =>
    match stream_socket (self st) with
    | None => Raise AttributeError st
    | Some sock =>
        if closed sock then Raise OSError st
        else
          match bound_port sock, stream_rx (world st) with
          | Some _, d :: rx' =>
              Ok (firstn (Z.to_nat (packetSize (self st))) d)
                 (on_world (w_stream_rx rx') st)
          | _, _ => Hang
          end
    end.

(** [rawdata[i]], an [int]. *)
Definition index (rawdata : list byte) (i : nat) : M Z :=
  match nth_error rawdata i with
  | Some b => ret (Z.of_N (Byte.to_N b))
  | None => raise IndexError
  end.

Definition receivePacket : M (list byte) :=
  rawdata <- stream_recv ;;
  v <- index rawdata 0 ;;
  modify_self (upd_rtpVersion v) ;;
  t <- index rawdata 1 ;;
  modify_self (upd_rtpPayloadType t) ;;
  modify_self (upd_rtpSeqNum (RBytes (slice 2 4 rawdata))) ;;
  modify_self (upd_rtpTimestampNs (RBytes (slice 4 8 rawdata))) ;;
  modify_self (upd_rtpTimestampS (RBytes (slice 8 12 rawdata))) ;;
  modify_self (fun o => upd_oldSeqNum (newSeqNum o) o) ;;
  modify_self (upd_newSeqNum (int_from_bytes_big (slice 2 4 rawdata))) ;;
  old <- get_self oldSeqNum ;;
  (if old =? -1
   then modify_self (fun o => upd_oldSeqNum (newSeqNum o - 1) o)
   else ret tt) ;;
  ret (skipn 12 rawdata).

(** *** Configuration cache *)

Definition get_config : M Config :=
  c <- get_channel ;;
  modify_self (upd_ch c) ;;
  c <- get_self ch ;;
  (if c =? 1
   then
     e <- get_equalizer ;;
     modify_self (upd_eq_status (VStr e)) ;;
     g <- get_gain ;;
     modify_self (upd_gain_status (VStr g))
   else
     modify_self (upd_eq_status (VStr "na")) ;;
     modify_self (upd_gain_status (VStr "na"))) ;;
  r <- get_srate ;;
  modify_self (upd_srate r) ;;
  name <- query "*idn?" ;;
  version <- query "SYSTem:VERSion?" ;;
  o <- get_self (fun o => o) ;;
  let config :=
    [ ("name", VStr name);
      ("version", VStr version);
      ("channel", VInt (ch o));
      ("srate", VInt (srate o));
      ("gain", gain_status o);
      ("equalizer", eq_status o) ] in
  modify_self (upd_config_info config) ;;
  ret config.

(** *** WAV capture *)

Fixpoint update_last {A} (f : A -> A) (l : list A) : list A :=
  match l with
  | [] => []
  | [x] => [f x]
  | x :: l' => x :: update_last f l'
  end.

(** The [wave] object of [write_wav] is the file created last. *)
Definition on_obj (f : WavFile -> WavFile) : M unit :=
  modify_world (fun w => w_files (update_last (fun nf => (fst nf, f (snd nf))) (files w)) w).

Fixpoint last_file (fs : list (string * WavFile)) : option WavFile :=
  match fs with
  | [] => None
  | [nf] => Some (snd nf)
  | _ :: fs' => last_file fs'
  end.

Definition obj : M (option WavFile) := get_world (fun w => last_file (files w)).

(** The files that are not called [filename]. *)
Definition remove_file (filename : string) (fs : list (string * WavFile))
  : list (string * WavFile) :=
  filter (fun nf => negb (String.eqb (fst nf) filename)) fs.

(** What [open(filename, 'wb')] raises, if it does: [OSError] for a
    directory that is not there or a file that may not be written,
    [ValueError] for a name with a null character in it. *)
Definition refusal (filename : string) (w : World) : option exn :=
  option_map snd (find (fun pe => String.eqb (fst pe) filename) (unwritable w)).

(** [wave.open(filename, 'w')]: the file is created, or cut to nothing when
    there is one of that name, unless the path cannot be opened for
    writing. *)
Definition wave_open (filename : string) : M unit :=
  bad <- get_world (refusal filename) ;;
  match bad with
  | Some e => raise e
  | None =>
      modify_world (fun w =>
        w_files (remove_file filename (files w) ++
                 [(filename,
                   {| nchannels := 0; sampwidth := 0; framerate := 0; frames := [];
                      finalized := false |})]) w)
  end.

(** The bytes handed to [writeframesraw] so far ([_datawritten]). *)
Definition data_written (f : WavFile) : Z :=
  fold_right (fun chunk n => Z.of_nat (length chunk) + n) 0 (frames f).

(** The data length the header was written with ([_datalength]).  The
    header goes out with the first chunk and announces the whole frames of
    that chunk. *)
Definition data_announced (f : WavFile) : Z :=
  match frames f with
  | [] => 0
  | chunk :: _ =>
      Z.of_nat (length chunk) / (nchannels f * sampwidth f) * (nchannels f * sampwidth f)
  end.

(** A setter of [wave] refuses a value out of its range, and any value
    once data was written. *)
Definition set_parameter (accepted : bool) (f : WavFile -> WavFile) : M unit :=
  o <- obj ;;
  let started :=
    match o with
    | Some wf => negb (data_written wf =? 0)
    | None => false
    end in
  if started || negb accepted then raise WaveError else on_obj f.

Definition setnchannels (n : Z) : M unit :=
  set_parameter (1 <=? n) (fun f =>
    {| nchannels := n; sampwidth := sampwidth f; framerate := framerate f;
       frames := frames f; finalized := finalized f |}).

Definition setsampwidth (n : Z) : M unit :=
  set_parameter ((1 <=? n) && (n <=? 4)) (fun f =>
    {| nchannels := nchannels f; sampwidth := n; framerate := framerate f;
       frames := frames f; finalized := finalized f |}).

(** [wave] refuses a frame rate that is not positive. *)
Definition setframerate (r : Z) : M unit :=
  set_parameter (0 <? r) (fun f =>
    {| nchannels := nchannels f; sampwidth := sampwidth f; framerate := r;
       frames := frames f; finalized := finalized f |}).

(** [obj.writeframesraw(data)].  The first call writes the header;
    [write_wav] has set the three parameters by then, so the checks made
    before a header is written pass.  (A rate of [2^31] or more, which the
    header has no room for, is outside what is modelled.) *)
Definition writeframesraw (data : list byte) : M unit :=
  on_obj (fun f =>
    {| nchannels := nchannels f; sampwidth := sampwidth f;
       framerate := framerate f; frames := frames f ++ [data];
       finalized := finalized f |}).

Definition released (f : WavFile) : WavFile :=
  {| nchannels := nchannels f; sampwidth := sampwidth f;
     framerate := framerate f; frames := frames f; finalized := true |}.

(** A parameter is missing: no header can be written. *)
Definition unset (f : WavFile) : bool :=
  (nchannels f =? 0) || (sampwidth f =? 0) || (framerate f =? 0).

(** The two length fields of the header are right as they are, or can be
    written again: they are 32 bits wide, and the first holds the bytes
    written and 36. *)
Definition header_fits (f : WavFile) : bool :=
  (data_announced f =? data_written f) || (36 + data_written f <=? 4294967295).

(** [obj.close()].  Nothing happens on a writer that was closed.
    Otherwise a header is written if there is none yet, which fails on a
    missing parameter ([wave.Error]); the length fields are corrected when
    they do not match the bytes written, which fails when the number does
    not pack into 32 bits ([struct.error]); and the file handle is
    released whatever happened before ([finally]). *)
Definition wave_close : M unit :=
  o <- obj ;;
  match o with
  | None => ret tt
  | Some f =>
      if finalized f then ret tt
      else
        on_obj released ;;
        if match frames f with [] => unset f | _ :: _ => false end
        then raise WaveError
        else if header_fits f then ret tt
        else raise StructError
  end.

(** [Wave_write.__del__], which runs when the last reference to the writer
    goes: [close()], with whatever it raises dropped.  The writer is a
    local of [write_wav]: after a return it goes at once; after an
    exception the traceback keeps it until the exception has been dealt
    with. *)
Definition wave_del (st : State) : State :=
  match wave_close st with
  | Ok _ st' => st'
  | Raise _ st' => st'
  | Hang => st
  end.

(** [pd.Timestamp.now(tz=utc)] formatted with [%Y%m%d_%H%M%Sz]. *)
Definition now : M string :=
  fun st =>
    let w := world st in
    Ok (clock w (ticks w)) (on_world (w_ticks (S (ticks w))) st).

(** One round of the [while] loop of [write_wav]. *)
Definition capture_packet : M unit :=
  newPacket <- receivePacket ;;
  writeframesraw newPacket ;;
  new <- get_self newSeqNum ;;
  old <- get_self oldSeqNum ;;
  let seqGap := new - old in
  if seqGap >? 1
  then msg [VStr "Lost: "; VInt seqGap; VStr "packets"]
  else ret tt.

(** [while totalPacketsCount < npackets]: the counter starts at 0 and goes
    up by one each round, so the body runs [rounds] times for
    [rounds = max(npackets, 0)]. *)
Fixpoint capture_loop (rounds : nat) : M unit :=
  match rounds with
  | O => ret tt
  | S rounds' => capture_packet ;; capture_loop rounds'
  end.

(** [int(seconds * self.srate / self.samplesPerPacket)] for an integer
    [seconds]: the product is exact, [/] is the true division of two
    [int]s and [int] cuts towards zero. *)
Definition packet_count (seconds : Z) : M Z :=
  o <- get_self (fun o => o) ;;
  match PyNum.int_true_div (seconds * srate o) (samplesPerPacket o) with
  | inl e => raise e
  | inr npackets => ret npackets
  end.

Definition write_wav (seconds : Z) (prefix : string) (close : bool) : M Z :=
  cfg <- get_self config_info ;;
  (match cfg with
   | [] => c <- get_config ;; modify_self (upd_config_info c)
   | _ :: _ => ret tt
   end) ;;
  opened <- get_self open_stream_port ;;
  (if opened then ret tt
   else p <- get_self streaming_port ;; open_stream p) ;;
  npackets <- packet_count seconds ;;
  msg [VStr "Acquiring during"; VInt seconds; VStr "s ("; VInt npackets; VStr "packets)"] ;;
  timestamp <- now ;;
  let filename := prefix ++ "_" ++ timestamp ++ ".wav" in
  wave_open filename ;;
  setnchannels 1 ;;
  setsampwidth 2 ;;
  r <- get_self srate ;;
  setframerate r ;;
  capture_loop (Z.to_nat npackets) ;;
  wave_close ;;
  (if close then close_stream else ret tt) ;;
  cfg <- get_self config_info ;;
  modify_world (fun w => w_threads (threads w ++ [(filename, cfg)]) w) ;;
  ret 1.

(** [write_wav_continuous]: the first [rounds] passes through its
    [while True], each a [write_wav] that closes the stream behind it. *)
Fixpoint write_wav_continuous (rounds : nat) (seconds : Z) (prefix : string) : M unit :=
  match rounds with
  | O => ret tt
  | S rounds' =>
      _ <- write_wav seconds prefix true ;;
      write_wav_continuous rounds' seconds prefix
  end.

(** *** Streaming control *)

Definition start_streaming : M unit :=
  p <- get_self streaming_port ;;
  set_recv_port p ;;
  _ <- get_config ;;
  set "CONFigure:STATe" (VStr "RUN_CONTINUOUS") false.

Definition stop_streaming : M unit :=
  set "CONFigure:STATe" (VStr "STOP") false.

Definition get_streaming : M string := query "CONFigure:STATe?".

(** * Vocabulary of the properties *)

Local Open Scope list_scope.

(** [post m st Q E]: if [m] comes back from [st], its outcome satisfies [Q]
    (return) or [E] (exception). *)
Definition post {A} (m : M A) (st : State)
  (Q : A -> State -> Prop) (E : exn -> State -> Prop) : Prop :=
  match m st with
  | Ok a st' => Q a st'
  | Raise e st' => E e st'
  | Hang => True
  end.

(** The transmission that [send string] makes through the interface of
    [o]: the string and the terminator, on the serial line or to the
    device address. *)
Definition frame_on (o : NeXOS) (string : string) : list Tx :=
  match interface o with
  | Some Serial => [TxSerial (string ++ PyStr.CRLF)%string]
  | Some Udp =>
      match nexos_address o with
      | Some addr => [TxUdp addr (string ++ PyStr.CRLF)%string]
      | None => []
      end
  | None => []
  end.

Definition frames_on (o : NeXOS) (strings : list string) : list Tx :=
  flat_map (frame_on o) strings.

(** [st'] is [st] after the commands [cmds] went out and nothing else
    happened to the object. *)
Definition sent (cmds : list string) (st st' : State) : Prop :=
  self st' = self st /\
  tx (world st') = tx (world st) ++ frames_on (self st) cmds.

(** The queries of one refresh, in the order they go out, for a device
    that reports channel [c]. *)
Definition config_queries (c : Z) : list string :=
  ["INPut1:STATe?"%string] ++
  (if c =? 1 then ["INPut1:EQUalizer:STATe?"%string; "INPut1:GAIN:STATe?"%string] else []) ++
  ["CONFigure:ACQuire:SRATe?"%string; "*idn?"%string; "SYSTem:VERSion?"%string].

(** The dict built at the end of [get_config]. *)
Definition config_of (name version : string) (o : NeXOS) : Config :=
  [ ("name"%string, VStr name);
    ("version"%string, VStr version);
    ("channel"%string, VInt (ch o));
    ("srate"%string, VInt (srate o));
    ("gain"%string, gain_status o);
    ("equalizer"%string, eq_status o) ].

(** The attributes a refresh assigns before it builds the dict. *)
Definition refreshed (c : Z) (e g : PyVal) (r : Z) (o : NeXOS) : NeXOS :=
  upd_srate r (upd_gain_status g (upd_eq_status e (upd_ch c o))).

(** What a refresh that raises leaves behind: the old dict, and in [ch]
    the channel it had read, if it got that far. *)
Definition refresh_failed (st st' : State) : Prop :=
  config_info (self st') = config_info (self st) /\
  interface (self st') = interface (self st) /\
  (forall c st1, get_channel st = Ok c st1 -> ch (self st') = c).

(** The query [q], made in [st], came back with the text [r] and left
    [st']. *)
Definition asked (q : string) (st : State) (r : string) (st' : State) : Prop :=
  query q st = Ok r st'.

(** What a refresh that has read channel [chv] stores for the equalizer
    and the gain, starting in [st1]: on channel 1 the replies to the two
    queries; off it the text [na] for both, and no query is made. *)
Definition equalizer_and_gain (chv : Z) (st1 : State) (e g : PyVal) (st3 : State) : Prop :=
  if chv =? 1
  then
    exists re rg st2 st2',
      asked "INPut1:EQUalizer:STATe?" st1 re st2 /\
      asked "INPut1:GAIN:STATe?" (on_self (upd_eq_status (VStr re)) st2) rg st2' /\
      e = VStr re /\ g = VStr rg /\
      st3 = on_self (upd_gain_status (VStr rg)) st2'
  else
    e = VStr "na" /\ g = VStr "na" /\
    st3 = on_self (upd_gain_status (VStr "na")) (on_self (upd_eq_status (VStr "na")) st1).

(** A refresh from [st] to [st'] with the dict [c]: the queries it makes
    one after the other, and under every key of the dict the reply to the
    query for it: as an integer for the rate, as 1 or 2 for the channel
    (1 when the reply is the integer 1), as the text itself elsewhere. *)
Definition refresh_of (st : State) (c : Config) (st' : State) : Prop :=
  exists rc n st1 e g st3 rs r st4 name st5 version st6,
    let chv := if n =? 1 then 1 else 2 in
    asked "INPut1:STATe?" st rc st1 /\
    PyStr.int_of_str rc = Some n /\
    equalizer_and_gain chv (on_self (upd_ch chv) st1) e g st3 /\
    asked "CONFigure:ACQuire:SRATe?" st3 rs st4 /\
    PyStr.int_of_str rs = Some r /\
    asked "*idn?" (on_self (upd_srate r) st4) name st5 /\
    asked "SYSTem:VERSion?" st5 version st6 /\
    c = [ ("name"%string, VStr name);
          ("version"%string, VStr version);
          ("channel"%string, VInt chv);
          ("srate"%string, VInt r);
          ("gain"%string, g);
          ("equalizer"%string, e) ] /\
    st' = on_self (upd_config_info c) st6.

(** The stream socket exists, is bound and was not closed. *)
Definition live_stream (o : NeXOS) : bool :=
  match stream_socket o with
  | Some sock =>
      negb (closed sock) &&
      match bound_port sock with Some _ => true | None => false end
  | None => false
  end.

Definition byte_at (raw : list byte) (i : nat) : Z :=
  Z.of_N (Byte.to_N (nth i raw x00)).

(** The sequence number carried by a datagram. *)
Definition seq_of (raw : list byte) : Z := int_from_bytes_big (slice 2 4 raw).

(** The header slots after [receivePacket] has read [raw]. *)
Definition header_update (raw : list byte) (o : NeXOS) : NeXOS :=
  let o' :=
    upd_newSeqNum (seq_of raw)
      (upd_oldSeqNum (newSeqNum o)
         (upd_rtpTimestampS (RBytes (slice 8 12 raw))
            (upd_rtpTimestampNs (RBytes (slice 4 8 raw))
               (upd_rtpSeqNum (RBytes (slice 2 4 raw))
                  (upd_rtpPayloadType (byte_at raw 1)
                     (upd_rtpVersion (byte_at raw 0) o)))))) in
  if newSeqNum o =? -1 then upd_oldSeqNum (seq_of raw - 1) o' else o'.

(** The datagram as [recv] hands it over. *)
Definition received (o : NeXOS) (d : list byte) : list byte :=
  firstn (Z.to_nat (packetSize o)) d.

(** The difference the capture loop looks at after a packet. *)
Definition seqGap (o : NeXOS) : Z := newSeqNum o - oldSeqNum o.

(** The file written last gets one more chunk. *)
Definition append_chunk (data : list byte) (files : list (string * WavFile))
  : list (string * WavFile) :=
  update_last
    (fun nf => (fst nf,
                {| nchannels := nchannels (snd nf); sampwidth := sampwidth (snd nf);
                   framerate := framerate (snd nf);
                   frames := frames (snd nf) ++ [data];
                   finalized := finalized (snd nf) |}))
    files.

Definition loss_report (o : NeXOS) : list (list PyVal) :=
  if seqGap o >? 1
  then [[VStr "[blue]"; VStr "Lost: "; VInt (seqGap o); VStr "packets"]]
  else [].

(** The chunk [write_wav] gets out of a datagram: what is left of the
    first [packetSize] bytes after the 12 bytes of header. *)
Definition payload (o : NeXOS) (d : list byte) : list byte :=
  skipn 12 (received o d).

Definition add_frames (chunks : list (list byte)) (f : WavFile) : WavFile :=
  {| nchannels := nchannels f; sampwidth := sampwidth f;
     framerate := framerate f; frames := frames f ++ chunks;
     finalized := finalized f |}.

(** Every datagram has the two bytes that [receivePacket] indexes. *)
Definition indexable (o : NeXOS) (ds : list (list byte)) : bool :=
  forallb (fun d => (2 <=? length (received o d))%nat) ds.

(** [write_wav] finds a stream to read: the flag says it is open and the
    socket is live, or the flag says it is closed and the streaming port
    can be bound. *)
Definition stream_available (st : State) : bool :=
  if open_stream_port (self st) then live_stream (self st)
  else negb (existsb (Z.eqb (streaming_port (self st))) (ports_in_use (world st))).


(** The text of a reply has neither a carriage return nor a double quote,
    so the terminator and the quote stripping leave it alone. *)
Definition plain (r : string) : bool :=
  forallb (fun c => negb (Ascii.eqb c PyStr.CR) && negb (Ascii.eqb c PyStr.DQUOTE))
          (list_ascii_of_string r).

(** The datagram a device sends to answer with the text [r]. *)
Definition reply (r : string) : string := (r ++ PyStr.CRLF)%string.

(** The client talks UDP to [addr]. *)
Definition udp_ready (o : NeXOS) (addr : string * Z) : Prop :=
  interface o = Some Udp /\
  (exists sk, socket o = Some sk) /\
  nexos_address o = Some addr.

Definition after_query (addr : string * Z) (command : string)
    (rest : list string) (st : State) : State :=
  {| self := self st;
     world := w_udp_rx rest
                (w_tx (tx (world st) ++ [TxUdp addr (command ++ PyStr.CRLF)%string])
                   (world st)) |}.

(** ** Scenarios *)

(** A world in which nothing arrives. *)
Definition quiet : World :=
  {| serial_devices := ["/dev/ttyUSB0"%string];
     serial_rx := EmptyString;
     udp_rx := [];
     stream_rx := [];
     ports_in_use := [];
     tx := [];
     clock := fun _ => "20231120_101500z"%string;
     ticks := 0;
     unwritable := [];
     files := [];
     console := [];
     threads := [] |}.

Definition hydrophone : string * Z := ("192.168.3.220"%string, 7777).

(** A fresh client whose UDP side was initialised by hand. *)
Definition udp_client : NeXOS :=
  upd_interface (Some Udp)
    (upd_socket (Some {| timeout := 2 |})
       (upd_nexos_address (Some hydrophone) init)).

(** A datagram of the stream: version, payload type, the sequence number on
    two bytes, eight bytes of time stamps, four bytes of samples. *)
Definition packet (hi lo : byte) : list byte :=
  [x80; x00; hi; lo; x00; x00; x00; x00; x00; x00; x00; x00; x01; x02; x03; x04].

(** A client with a cached configuration at 100 kHz and its stream socket
    open. *)
Definition streaming_client : NeXOS :=
  upd_open_stream_port true
    (upd_stream_socket (Some {| bound_port := Some 4002; closed := false |})
       (upd_srate 100000
          (upd_ch 2
             (upd_config_info
                [("name"%string, VStr "NeXOS A2"); ("version"%string, VStr "1.0");
                 ("channel"%string, VInt 2); ("srate"%string, VInt 100000);
                 ("gain"%string, VStr "na"); ("equalizer"%string, VStr "na")]
                udp_client)))).




Definition after_send (addr : string * Z) (string : string) (st : State) : State :=
  {| self := self st;
     world := w_tx (tx (world st) ++ [TxUdp addr (string ++ PyStr.CRLF)%string]) (world st) |}.

(** A reply the client can take in one datagram. *)
Definition answerable (r : string) : bool :=
  plain r && (String.length (reply r) <=? 1024)%nat.

(** What the device has to send for a refresh to go through: the channel,
    the equalizer and gain states when the channel reads as 1, the sample
    rate, identity and version. *)
Definition refresh_answers (chs : string) (n : Z) (eq gain srs name version : string)
  : list string :=
  [chs] ++ (if n =? 1 then [eq; gain] else []) ++ [srs; name; version].

(** What the device has to send for [start_streaming] to go through: the
    port echoed, the channel, the equalizer and gain states when the
    channel reads as 1, the sample rate, identity and version, and the run
    state echoed. *)
Definition start_answers (port : Z) (chs : string) (n : Z) (eq gain srs name version : string)
  : list string :=
  [PyStr.str_of_int port; chs] ++
  (if n =? 1 then [eq; gain] else []) ++
  [srs; name; version; "RUN_CONTINUOUS"%string].

(** ** Vocabulary of the further properties *)

(** The text [recv_udp] has in its buffer after the datagrams [ds]: each
    one cut to 1024 characters, end to end. *)
Definition joined (ds : list string) : string :=
  fold_right (fun d s => (PyStr.prefix 1024 d ++ s)%string) EmptyString ds.

(** The terminator occurs somewhere in [s]. *)
Fixpoint contains_crlf (s : string) : bool :=
  match s with
  | EmptyString => false
  | String c s' =>
      match s' with
      | String d _ =>
          (Ascii.eqb c PyStr.CR && Ascii.eqb d PyStr.LF) || contains_crlf s'
      | EmptyString => false
      end
  end.

(** A method stops at once with [e], having changed nothing. *)
Definition refuses {A} (m : M A) (e : exn) (st : State) : Prop :=
  m st = Raise e st.

Definition quoted (s : string) : string :=
  String PyStr.DQUOTE (s ++ String PyStr.DQUOTE EmptyString).

(** The state one round of the loop leaves when it takes the datagram [d]
    off the stream. *)
Definition after_packet (st : State) (d : list byte) : State :=
  let raw := received (self st) d in
  let o' := header_update raw (self st) in
  {| self := o';
     world :=
       w_console (console (world st) ++ loss_report o')
         (w_files (append_chunk (skipn 12 raw) (files (world st)))
            (w_stream_rx (tl (stream_rx (world st))) (world st))) |}.

Definition after_packets (ds : list (list byte)) (st : State) : State :=
  fold_left after_packet ds st.

(** The lines the loop prints for the sequence numbers [seqs], the number
    before them being [prev] ([-1] when there was none). *)
Fixpoint loss_lines (prev : Z) (seqs : list Z) : list (list PyVal) :=
  match seqs with
  | [] => []
  | s :: seqs' =>
      let old := if prev =? -1 then s - 1 else prev in
      (if s - old >? 1
       then [[VStr "[blue]"; VStr "Lost: "; VInt (s - old); VStr "packets"]]
       else []) ++ loss_lines s seqs'
  end.

(** The number a printed line carries. *)
Definition reported (line : list PyVal) : Z :=
  match line with
  | [_; _; VInt g; _] => g
  | _ => 0
  end.

(** Each number is above the one before it. *)
Fixpoint ascending (prev : Z) (seqs : list Z) : bool :=
  match seqs with
  | [] => true
  | s :: seqs' => (prev <? s) && ascending s seqs'
  end.

(** The packets missing behind the lines [lines]: each line counts for
    the number it carries less one. *)
Definition lost_total (lines : list (list PyVal)) : Z :=
  fold_right (fun line acc => reported line - 1 + acc) 0 lines.

(** The object once [write_wav] has made sure of a stream. *)
Definition opened (st : State) : State :=
  if open_stream_port (self st) then st
  else
    on_self
      (fun o =>
         upd_open_stream_port true
           (upd_stream_socket
              (Some {| bound_port := Some (streaming_port o); closed := false |}) o))
      st.

(** The name [write_wav] gives its file. *)
Definition wav_name (prefix : string) (st : State) : string :=
  (prefix ++ "_" ++ clock (world st) (ticks (world st)) ++ ".wav")%string.

(** The path can be opened for writing. *)
Definition writable (filename : string) (st : State) : bool :=
  match refusal filename (world st) with
  | None => true
  | Some _ => false
  end.

(** The division behind the packet count gives a number. *)
Definition count_defined (seconds : Z) (st : State) : bool :=
  match PyNum.int_true_div (seconds * srate (self st)) 512 with
  | inr _ => true
  | inl _ => false
  end.

(** The number [write_wav] computes for a packet length of 512 samples. *)
Definition packet_number (seconds : Z) (st : State) : Z :=
  match PyNum.int_true_div (seconds * srate (self st)) 512 with
  | inr npackets => npackets
  | inl _ => 0
  end.

(** The number of packets [write_wav] asks for. *)
Definition packets_wanted (seconds : Z) (st : State) : nat :=
  Z.to_nat (packet_number seconds st).

(** The state in which the loop of [write_wav] starts: the stream open,
    the line about the acquisition printed, the clock read, the file
    created with its three parameters. *)
Definition prepared (seconds : Z) (prefix : string) (st : State) : State :=
  on_world
    (fun w =>
       w_files
         (remove_file (wav_name prefix st) (files w) ++
          [(wav_name prefix st,
            {| nchannels := 1; sampwidth := 2; framerate := srate (self st);
               frames := []; finalized := false |})])
         (w_ticks (S (ticks w))
            (w_console
               (console w ++
                [[VStr "[blue]"; VStr "Acquiring during"; VInt seconds; VStr "s (";
                  VInt (packet_number seconds st); VStr "packets)"]])
               w)))
    (opened st).

(** What [write_wav] does after its loop. *)
Definition finish (close : bool) (filename : string) : M Z :=
  wave_close ;;
  (if close then close_stream else ret tt) ;;
  cfg <- get_self config_info ;;
  modify_world (fun w => w_threads (threads w ++ [(filename, cfg)]) w) ;;
  ret 1.

(** The state [finish] leaves. *)
Definition finished (close : bool) (filename : string) (st : State) : State :=
  let st1 :=
    on_world
      (fun w =>
         w_files
           (update_last
              (fun nf =>
                 (fst nf,
                  {| nchannels := nchannels (snd nf); sampwidth := sampwidth (snd nf);
                     framerate := framerate (snd nf); frames := frames (snd nf);
                     finalized := true |}))
              (files w))
           w)
      st in
  let st2 :=
    if close
    then
      on_self
        (fun o =>
           upd_open_stream_port false
             (upd_stream_socket
                (match stream_socket o with
                 | Some sock => Some {| bound_port := bound_port sock; closed := true |}
                 | None => None
                 end) o))
        st1
    else st1 in
  on_world
    (fun w => w_threads (threads w ++ [(filename, config_info (self st2))]) w)
    st2.

(** The conditions under which [write_wav] gets to its loop: a cached
    configuration, a stream to read, the packet length of the class, a
    rate [wave] accepts, a duration that is not negative, a packet count
    that the division delivers, a file system that takes the file, and a
    rate that the header of the file has room for. *)
Definition ready_to_capture (seconds : Z) (st : State) : Prop :=
  config_info (self st) <> [] /\
  stream_available st = true /\
  samplesPerPacket (self st) = 512 /\
  0 < srate (self st) /\
  0 <= seconds /\
  count_defined seconds st = true /\
  unwritable (world st) = [] /\
  srate (self st) < 2147483648.

(** What receiving packets leaves alone: everything on the object but
    the header slots, everything in the world but the stream, the files
    and the console. *)
Definition untouched_by_loop (st st' : State) : Prop :=
  (interface (self st') = interface (self st) /\
   socket (self st') = socket (self st) /\
   serial (self st') = serial (self st) /\
   nexos_address (self st') = nexos_address (self st) /\
   streaming_port (self st') = streaming_port (self st) /\
   packetSize (self st') = packetSize (self st) /\
   samplesPerPacket (self st') = samplesPerPacket (self st)) /\
  (open_stream_port (self st') = open_stream_port (self st) /\
   stream_socket (self st') = stream_socket (self st) /\
   config_info (self st') = config_info (self st) /\
   ch (self st') = ch (self st) /\
   srate (self st') = srate (self st) /\
   gain_status (self st') = gain_status (self st) /\
   eq_status (self st') = eq_status (self st)) /\
  (serial_devices (world st') = serial_devices (world st) /\
   serial_rx (world st') = serial_rx (world st) /\
   udp_rx (world st') = udp_rx (world st) /\
   ports_in_use (world st') = ports_in_use (world st)) /\
  (tx (world st') = tx (world st) /\
   clock (world st') = clock (world st) /\
   ticks (world st') = ticks (world st) /\
   threads (world st') = threads (world st)).

(** A stream that delivers the packets [write_wav] asks for, each with
    the two bytes that are indexed. *)
Definition stream_delivers (seconds : Z) (st : State) : Prop :=
  packetSize (self st) = 1036 /\
  (packets_wanted seconds st <= length (stream_rx (world st)))%nat /\
  forallb (fun d => (2 <=? length d)%nat)
    (firstn (packets_wanted seconds st) (stream_rx (world st))) = true.

(** The datagrams a capture takes. *)
Definition taken (seconds : Z) (st : State) : list (list byte) :=
  firstn (packets_wanted seconds st) (stream_rx (world st)).

(** The file of a capture when its loop is through: mono, two bytes a
    sample, at the rate of the object, the payloads of the datagrams
    taken, not yet closed. *)
Definition captured (seconds : Z) (st : State) : WavFile :=
  {| nchannels := 1; sampwidth := 2; framerate := srate (self st);
     frames := map (payload (self st)) (firstn (packets_wanted seconds st) (stream_rx (world st)));
     finalized := false |}.

(** The data length in the header of the file on disk, [None] when the
    file has no header.  A header is written with the first chunk, or by
    [close] when the parameters are there; a [close] that got through
    leaves the bytes written in it. *)
Definition header_on_disk (f : WavFile) : option Z :=
  match frames f with
  | [] => if finalized f && negb (unset f) then Some 0 else None
  | _ :: _ =>
      Some (if finalized f && header_fits f then data_written f else data_announced f)
  end.

(** The names of [rounds] files made one after the other. *)
Definition pass_names (prefix : string) (rounds : nat) (st : State) : list string :=
  map (fun i => (prefix ++ "_" ++ clock (world st) i ++ ".wav")%string)
      (seq (ticks (world st)) rounds).

(** The file a capture writes: mono, two bytes a sample, at the rate of
    the object, the chunks [chunks], closed. *)
Definition wav_of (rate : Z) (chunks : list (list byte)) : WavFile :=
  {| nchannels := 1; sampwidth := 2; framerate := rate; frames := chunks;
     finalized := true |}.

(** The streaming port is not held by another process. *)
Definition port_free (st : State) : Prop :=
  existsb (Z.eqb (streaming_port (self st))) (ports_in_use (world st)) = false.

(** Every datagram to come has the two bytes that are indexed. *)
Definition all_indexable (st : State) : Prop :=
  forallb (fun d => (2 <=? length d)%nat) (stream_rx (world st)) = true.

(** The file was closed with [chunks] chunks at [rate]. *)
Definition complete (rate : Z) (chunks : nat) (nf : string * WavFile) : Prop :=
  finalized (snd nf) = true /\
  framerate (snd nf) = rate /\
  length (frames (snd nf)) = chunks.

(** The state a datagram too short to index leaves: it is off the stream,
    and only the version slot may have been written. *)
Definition after_short (st : State) (d : list byte) (rest : list (list byte)) : State :=
  {| self :=
       match received (self st) d with
       | b :: _ => upd_rtpVersion (Z.of_N (Byte.to_N b)) (self st)
       | [] => self st
       end;
     world := w_stream_rx rest (world st) |}.

(** The value the dict holds under [key]. *)
Fixpoint dict_get (key : string) (c : Config) : option PyVal :=
  match c with
  | [] => None
  | (k, v) :: c' => if String.eqb k key then Some v else dict_get key c'
  end.

(** ** More scenarios *)

(** A fresh client with its serial port opened by hand. *)
Definition serial_client : NeXOS :=
  upd_interface (Some Serial) (upd_serial (Some "/dev/ttyUSB0"%string) init).

(** A reply that comes in two datagrams, and the next one behind it. *)
Definition split_reply : State :=
  {| self := udp_client;
     world := w_udp_rx ["NeXOS"%string; reply " A2"; reply "next"] quiet |}.

(** A serial line with two replies on it. *)
Definition two_on_the_line : State :=
  {| self := serial_client;
     world := w_serial_rx (reply "1" ++ reply "100000")%string quiet |}.

(** A serial line with a reply that never ends. *)
Definition unterminated_line : State :=
  {| self := serial_client; world := w_serial_rx "100000"%string quiet |}.

(** Five packets numbered 10, 11, 13, 14 and 20 for a client that has
    seen number 9. *)
Definition gappy_stream : State :=
  {| self := upd_newSeqNum 9 streaming_client;
     world := w_stream_rx [packet x00 x0a; packet x00 x0b; packet x00 x0d;
                           packet x00 x0e; packet x00 x14] quiet |}.

(** A client at 2560 Hz, five packets to the second, with twelve packets
    on the stream. *)
Definition slow_capture : State :=
  {| self := upd_srate 2560 streaming_client;
     world := w_stream_rx (repeat (packet x00 x07) 12) quiet |}.

(** The same capture with a clock that has moved on at every reading. *)
Definition unhurried_capture : State :=
  {| self := upd_srate 2560 streaming_client;
     world :=
       {| serial_devices := serial_devices quiet;
          serial_rx := serial_rx quiet;
          udp_rx := udp_rx quiet;
          stream_rx := repeat (packet x00 x07) 12;
          ports_in_use := ports_in_use quiet;
          tx := tx quiet;
          clock := fun n =>
            match n with
            | O => "20231120_101500z"%string
            | S O => "20231120_101501z"%string
            | _ => "20231120_101502z"%string
            end;
          ticks := 0;
          unwritable := [];
          files := [];
          console := [];
          threads := [] |} |}.

(** A datagram of the full packet length: twelve bytes of header and 512
    samples of two bytes. *)
Definition full_packet : list byte := repeat x00 1036.

(** Six hours less a little at 100 kHz: 21475 seconds are 4194335 packets,
    and as many full datagrams are waiting. *)
Definition long_capture : State :=
  {| self := streaming_client;
     world := w_stream_rx (repeat full_packet (Z.to_nat 4194335)) quiet |}.

(** The same client with a one-byte datagram at the head of the stream. *)
Definition runt_first : State :=
  {| self := upd_srate 2560 streaming_client;
     world := w_stream_rx ([x80] :: repeat (packet x00 x07) 12) quiet |}.

(** A device on channel 2 that answers a refresh. *)
Definition device_on_channel_two : State :=
  {| self := udp_client;
     world := w_udp_rx [reply "0"; reply "100000"; reply "NeXOS A2"; reply "1.0"] quiet |}.

(** * Properties *)

(** ** Reasoning about outcomes *)

Lemma post_bind {A B} (m : M A) (k : A -> M B) st
  (Q1 : A -> State -> Prop) Q E :
  post m st Q1 E ->
  (forall a st1, Q1 a st1 -> post (k a) st1 Q E) ->
  post (bind m k) st Q E.
Proof.
  unfold post, bind. intros Hm Hk.
  destruct (m st) as [a st1|e st1|]; auto.
  apply Hk, Hm.
Qed.

Lemma post_weaken {A} (m : M A) st (Q Q' : A -> State -> Prop) (E E' : exn -> State -> Prop) :
  post m st Q E ->
  (forall a st', Q a st' -> Q' a st') ->
  (forall e st', E e st' -> E' e st') ->
  post m st Q' E'.
Proof.
  unfold post. intros H HQ HE. destruct (m st); auto.
Qed.

Lemma post_Ok {A} (m : M A) st Q E a st' :
  post m st Q E -> m st = Ok a st' -> Q a st'.
Proof. unfold post. intros H Heq. now rewrite Heq in H. Qed.

Lemma post_Raise {A} (m : M A) st Q E e st' :
  post m st Q E -> m st = Raise e st' -> E e st'.
Proof. unfold post. intros H Heq. now rewrite Heq in H. Qed.

Lemma bind_Ok {A B} (m : M A) (k : A -> M B) st b st' :
  bind m k st = Ok b st' ->
  exists a st1, m st = Ok a st1 /\ k a st1 = Ok b st'.
Proof.
  unfold bind. destruct (m st) as [a st1|e st1|]; try discriminate.
  intros H. now exists a, st1.
Qed.

(** ** What a command puts on the wire *)

Lemma frames_on_app o l1 l2 :
  frames_on o (l1 ++ l2) = frames_on o l1 ++ frames_on o l2.
Proof. unfold frames_on. apply flat_map_app. Qed.

Lemma sent_trans l1 l2 st st1 st2 :
  sent l1 st st1 -> sent l2 st1 st2 -> sent (l1 ++ l2) st st2.
Proof.
  unfold sent. intros [Hs1 Ht1] [Hs2 Ht2]. split; [congruence|].
  rewrite Ht2, Ht1, Hs1, frames_on_app, app_assoc. reflexivity.
Qed.

Lemma send_post string st :
  match send string st with
  | Ok _ st' => sent [string] st st'
  | Raise _ st' => st' = st
  | Hang => False
  end.
Proof.
  unfold send, sent, frames_on, frame_on, bind, get_self, py_assert.
  destruct st as [o w]; simpl.
  destruct (interface o) as [[|]|] eqn:Hi; simpl; auto.
  - unfold send_udp, sendto, bind, get_self; simpl.
    destruct (socket o), (nexos_address o); simpl; auto.
  - unfold send_serial, bind, get_self; simpl.
    destruct (serial o); simpl; auto.
Qed.

Lemma recv_post n st :
  post (recv n) st
    (fun _ st' => sent [] st st')
    (fun _ st' => sent [] st st').
Proof.
  unfold post, recv, sent, bind, get_self. destruct st as [o w]; simpl.
  destruct (interface o) as [[|]|]; simpl.
  - unfold recv_udp. simpl. destruct (socket o); simpl.
    + destruct (recv_udp_loop (udp_rx w) EmptyString) as [[b rx]|]; simpl;
        now rewrite app_nil_r.
    + now rewrite app_nil_r.
  - unfold recv_serial. simpl. destruct (serial o); simpl.
    + destruct (recv_serial_loop (serial_rx w) EmptyString n) as [[b rx]|]; simpl; auto.
      now rewrite app_nil_r.
    + destruct (PyStr.len EmptyString <? n); simpl; now rewrite app_nil_r.
  - now rewrite app_nil_r.
Qed.

Lemma query_post command st :
  post (query command) st
    (fun _ st' => sent [command] st st')
    (fun _ st' => self st' = self st).
Proof.
  unfold query. eapply post_bind with (Q1 := fun _ st1 => sent [command] st st1).
  - unfold post. pose proof (send_post command st) as H.
    destruct (send command st); auto. now subst. 
  - intros _ st1 H1. eapply post_bind with (Q1 := fun _ st2 => sent [command] st st2).
    + eapply post_weaken; [apply recv_post| |].
      * intros a st' H. apply (sent_trans [command] [] _ _ _ H1 H).
      * intros e st' [H _]. destruct H1. congruence.
    + intros [r|] st2 H2; unfold post; simpl; auto. apply H2.
Qed.

(** Weakest-precondition form of the rules, for stepping through a method
    body. *)
Lemma post_bind_wp {A B} (m : M A) (k : A -> M B) st Q E :
  post m st (fun a st1 => post (k a) st1 Q E) E ->
  post (bind m k) st Q E.
Proof. unfold post, bind. destruct (m st); auto. Qed.

Lemma query_wp command st {A} (k : string -> M A) Q E :
  (forall r st', sent [command] st st' -> post (k r) st' Q E) ->
  (forall e st', self st' = self st -> E e st') ->
  post (bind (query command) k) st Q E.
Proof.
  intros HQ HE. apply post_bind_wp.
  eapply post_weaken; [apply query_post|..]; auto.
Qed.

Lemma set_post param value enclose st :
  post (set param value enclose) st
    (fun _ st' => sent [command param (py_str value) enclose; (param ++ "?")%string] st st')
    (fun _ st' => self st' = self st).
Proof.
  unfold set. apply post_bind_wp.
  pose proof (send_post (command param (py_str value) enclose) st) as Hs.
  unfold post at 1.
  destruct (send _ st) as [[] st1|e st1|]; [|now subst|auto].
  apply query_wp.
  - intros r st2 H2. unfold post.
    destruct (String.eqb r (py_str value)); simpl.
    + apply (sent_trans [_] [_] _ _ _ Hs H2).
    + destruct Hs, H2. congruence.
  - intros e st2 H2. destruct Hs. congruence.
Qed.


(** ** Set, then verify *)

(** The outcome of [set] once the command went out and the read-back
    returned [r]. *)
Lemma set_outcome param value enclose st st1 r st2 :
  send (command param (py_str value) enclose) st = Ok tt st1 ->
  query (param ++ "?") st1 = Ok r st2 ->
  set param value enclose st =
    if String.eqb r (py_str value) then Ok tt st2
    else Raise (ValueError ("could not set param " ++ param ++ "!!")) st2.
Proof.
  intros Hsend Hquery. unfold set, bind. rewrite Hsend, Hquery.
  destruct (String.eqb r (py_str value)); reflexivity.
Qed.

(** C2.  [set] sends the command line, reads the parameter back once and
    compares the text read with the text requested: when the two are equal
    it returns, when they differ it raises the [ValueError] of the failed
    verification, so it returns only on equal texts.  The command and the
    one read-back query are the only transmissions (no second attempt), and
    the object is left as it was. *)
Theorem set_then_verify (param : string) (value : PyVal) (enclose : bool)
    (st st1 : State) (r : string) (st2 : State) :
  send (command param (py_str value) enclose) st = Ok tt st1 ->
  query (param ++ "?") st1 = Ok r st2 ->
  (r = py_str value -> set param value enclose st = Ok tt st2) /\
  (r <> py_str value ->
   set param value enclose st =
     Raise (ValueError ("could not set param " ++ param ++ "!!")) st2) /\
  (forall st', set param value enclose st = Ok tt st' -> r = py_str value) /\
  sent [command param (py_str value) enclose; (param ++ "?")%string] st st2.
Proof.
  intros Hsend Hquery.
  pose proof (set_outcome param value enclose st st1 r st2 Hsend Hquery) as Hset.
  split; [|split; [|split]].
  - intros ->. now rewrite Hset, String.eqb_refl.
  - intros Hne. apply String.eqb_neq in Hne. now rewrite Hset, Hne.
  - intros st' H. rewrite Hset in H.
    destruct (String.eqb r (py_str value)) eqn:Heq; [|discriminate].
    now apply String.eqb_eq.
  - pose proof (send_post (command param (py_str value) enclose) st) as Hs.
    rewrite Hsend in Hs.
    pose proof (query_post (param ++ "?") st1) as Hq.
    unfold post in Hq. rewrite Hquery in Hq.
    apply (sent_trans [_] [_] _ _ _ Hs Hq).
Qed.

(** ** Parameter guards *)

(** C4.  A sample rate outside 50000, 100000, 200000 makes [set_srate]
    fail on its assertion, and a channel outside 1, 2 makes [set_channel]
    fail on its assertion; in both cases the state that comes back is the
    state that went in, so nothing was written to a transport. *)
Theorem invalid_parameter_rejected_before_io (st : State) (srate ch : Z) :
  ~ In srate [50000; 100000; 200000] ->
  ~ In ch [1; 2] ->
  set_srate srate st = Raise AssertionError st /\
  set_channel ch st = Raise AssertionError st.
Proof.
  intros Hs Hc. split.
  - unfold set_srate, bind, valid_srates. simpl in *.
    destruct (Z.eqb_spec srate 100000); [lia|].
    destruct (Z.eqb_spec srate 50000); [lia|].
    destruct (Z.eqb_spec srate 200000); [lia|]. reflexivity.
  - unfold set_channel, bind. simpl in *.
    destruct (Z.eqb_spec ch 1); [lia|].
    destruct (Z.eqb_spec ch 2); [lia|]. reflexivity.
Qed.

(** The guards let the listed values through: the command goes out. *)
Lemma set_srate_valid srate st :
  In srate valid_srates ->
  set_srate srate st = set "CONFigure:ACQuire:SRATe" (VInt srate) false st.
Proof.
  intros H. unfold set_srate, bind.
  assert (Hb : existsb (Z.eqb srate) valid_srates = true).
  { apply existsb_exists. exists srate. split; [assumption|apply Z.eqb_refl]. }
  now rewrite Hb.
Qed.

(** ** Channel read-back *)

(** C10.  When the answer to the channel query reads as an integer [n],
    [get_channel] returns 1 for [n = 1] and 2 for every other [n]; whenever
    it returns, the value is 1 or 2. *)
Theorem get_channel_one_or_two (st : State) (r : string) (st' : State) (n : Z) :
  query "INPut1:STATe?" st = Ok r st' ->
  PyStr.int_of_str r = Some n ->
  get_channel st = Ok (if n =? 1 then 1 else 2) st' /\
  (n = 1 -> get_channel st = Ok 1 st') /\
  (n <> 1 -> get_channel st = Ok 2 st') /\
  (forall v st'', get_channel st = Ok v st'' -> v = 1 \/ v = 2).
Proof.
  intros Hq Hn.
  assert (H : get_channel st = Ok (if n =? 1 then 1 else 2) st').
  { unfold get_channel, bind, py_int. rewrite Hq, Hn. simpl.
    now destruct (n =? 1). }
  split; [exact H|]. split; [|split].
  - intros ->. exact H.
  - intros Hne. apply Z.eqb_neq in Hne. now rewrite Hne in H.
  - intros v st'' Hv. rewrite H in Hv. inversion Hv.
    destruct (n =? 1); auto.
Qed.

(** The same bound without any assumption on the answer. *)
Lemma get_channel_range st v st' :
  get_channel st = Ok v st' -> v = 1 \/ v = 2.
Proof.
  unfold get_channel, bind, py_int.
  destruct (query _ st) as [r st1|e st1|]; try discriminate.
  destruct (PyStr.int_of_str r) as [n|]; simpl; try discriminate.
  destruct (n =? 1); simpl; intros H; inversion H; auto.
Qed.

(** ** The configuration cache *)

Lemma get_channel_post st :
  post get_channel st
    (fun c st' => sent ["INPut1:STATe?"%string] st st' /\ (c = 1 \/ c = 2))
    (fun _ st' => self st' = self st).
Proof.
  unfold get_channel. apply query_wp; [|auto].
  intros r st1 H1. unfold post, bind, py_int.
  destruct (PyStr.int_of_str r) as [n|]; simpl.
  - destruct (n =? 1); simpl; auto.
  - apply H1.
Qed.

Lemma get_srate_post st :
  post get_srate st
    (fun _ st' => sent ["CONFigure:ACQuire:SRATe?"%string] st st')
    (fun _ st' => self st' = self st).
Proof.
  unfold get_srate. apply query_wp; [|auto].
  intros r st1 H1. unfold post, py_int.
  destruct (PyStr.int_of_str r) as [n|]; simpl; auto. apply H1.
Qed.

(** Bring every fact about later states back to the first one. *)
Ltac chase :=
  unfold sent, frames_on, frame_on in *; simpl in *;
  repeat match goal with
         | H : self ?s = _ |- _ => try rewrite H in *; clear H; simpl in *
         end;
  repeat match goal with
         | H : tx (world ?s) = _ |- _ => try rewrite H in *; clear H; simpl in *
         end.

(** An exit by exception somewhere after the channel was stored. *)
Ltac failed_at Hread :=
  split; [chase; reflexivity|];
  split; [chase; reflexivity|];
  apply Hread; chase; reflexivity.

(** What a refresh leaves behind.  On return, the object is the old one
    with the four attributes and the dict replaced, the dict holding the
    same four values, and every query of the refresh is on the wire. *)
Lemma get_config_post st :
  post get_config st
    (fun c st' =>
       exists chv e g r name version,
         (chv = 1 \/ chv = 2) /\
         (chv <> 1 -> e = VStr "na" /\ g = VStr "na") /\
         c = config_of name version (refreshed chv e g r (self st)) /\
         self st' = upd_config_info c (refreshed chv e g r (self st)) /\
         tx (world st') = tx (world st) ++ frames_on (self st) (config_queries chv))
    (fun _ st' => refresh_failed st st').
Proof.
  unfold get_config, refresh_failed.
  apply post_bind_wp.
  pose proof (get_channel_post st) as H0. unfold post in H0. unfold post at 1.
  destruct (get_channel st) as [chv st1|ex st1|] eqn:Hgc; [| |exact I].
  2:{ rewrite H0. repeat split; auto. discriminate. }
  destruct H0 as [[Hs1 Ht1] Hchv].
  assert (Hread : forall o', ch o' = chv ->
            forall c st1', Ok chv st1 = Ok c st1' -> ch o' = c).
  { intros o' Ho c st1' [= <- _]. exact Ho. }
  clear Hgc.
  apply post_bind_wp. unfold post at 1. simpl.
  apply post_bind_wp. unfold post at 1. simpl.
  apply post_bind_wp.
  assert (Hmid : post
    (if chv =? 1
     then e <- get_equalizer ;; modify_self (upd_eq_status (VStr e)) ;;
          g <- get_gain ;; modify_self (upd_gain_status (VStr g))
     else modify_self (upd_eq_status (VStr "na")) ;;
          modify_self (upd_gain_status (VStr "na")))
    (on_self (upd_ch chv) st1)
    (fun _ st2 => exists e g,
       (chv <> 1 -> e = VStr "na" /\ g = VStr "na") /\
       self st2 = upd_gain_status g (upd_eq_status e (upd_ch chv (self st))) /\
       tx (world st2) = tx (world st) ++
         frames_on (self st) (["INPut1:STATe?"%string] ++
           (if chv =? 1 then ["INPut1:EQUalizer:STATe?"%string; "INPut1:GAIN:STATe?"%string] else [])))
    (fun _ st' =>
       config_info (self st') = config_info (self st) /\
       interface (self st') = interface (self st) /\
       (forall c st1', Ok chv st1 = Ok c st1' -> ch (self st') = c))).
  { destruct (Z.eqb_spec chv 1) as [->|Hne].
    - unfold get_equalizer. apply query_wp.
      + intros e st2 [Hs2 Ht2]. apply post_bind_wp. unfold post at 1. simpl.
        unfold get_gain. apply query_wp.
        * intros g st3 [Hs3 Ht3]. unfold post. simpl.
          exists (VStr e), (VStr g). split; [congruence|].
          split; chase; [reflexivity|].
          rewrite <- !app_assoc. reflexivity.
        * intros ex st3 Hs3. failed_at Hread.
      + intros ex st2 Hs2. failed_at Hread.
    - unfold post. simpl. exists (VStr "na"), (VStr "na").
      split; [auto|]. split; chase; reflexivity. }
  eapply post_weaken; [exact Hmid| |auto].
  clear Hmid. intros [] st2 (e & g & Hna & Hs2 & Ht2). simpl.
  apply post_bind_wp.
  eapply post_weaken; [apply get_srate_post| |].
  2:{ intros ex st3 Hs3. failed_at Hread. }
  intros r st3 [Hs3 Ht3].
  apply post_bind_wp. unfold post at 1. simpl.
  apply query_wp.
  2:{ intros ex st4 Hs4. failed_at Hread. }
  intros name st4 [Hs4 Ht4]. apply query_wp.
  2:{ intros ex st5 Hs5. failed_at Hread. }
  intros version st5 [Hs5 Ht5].
  unfold post. simpl.
  exists chv, e, g, r, name, version.
  split; [assumption|]. split; [assumption|].
  unfold config_queries, refreshed, config_of. clear Hna Hchv Hread.
  chase. split; [reflexivity|]. split; [reflexivity|].
  destruct (chv =? 1); simpl; rewrite <- !app_assoc; reflexivity.
Qed.

(** ** Stream capture *)

Lemma receivePacket_ok st d rx :
  live_stream (self st) = true ->
  stream_rx (world st) = d :: rx ->
  (2 <= length (received (self st) d))%nat ->
  receivePacket st =
    Ok (skipn 12 (received (self st) d))
       {| self := header_update (received (self st) d) (self st);
          world := w_stream_rx rx (world st) |}.
Proof.
  unfold live_stream, received. destruct st as [o w]. simpl.
  intros Hlive Hrx Hlen.
  unfold receivePacket, bind, stream_recv. simpl.
  destruct (stream_socket o) as [sock|]; [|discriminate].
  destruct (closed sock); [discriminate|].
  destruct (bound_port sock); [|discriminate].
  rewrite Hrx.
  destruct (firstn (Z.to_nat (packetSize o)) d) as [|b0 [|b1 raw]] eqn:Hraw;
    simpl in Hlen; try lia.
  unfold header_update, byte_at, index. simpl.
  destruct (newSeqNum o =? -1); reflexivity.
Qed.

(** One round of the loop on a live stream with a datagram waiting. *)
Lemma capture_packet_ok st d rx :
  live_stream (self st) = true ->
  stream_rx (world st) = d :: rx ->
  (2 <= length (received (self st) d))%nat ->
  let raw := received (self st) d in
  let o' := header_update raw (self st) in
  capture_packet st =
    Ok tt {| self := o';
             world :=
               w_console (console (world st) ++ loss_report o')
                 (w_files (append_chunk (skipn 12 raw) (files (world st)))
                    (w_stream_rx rx (world st))) |}.
Proof.
  intros Hlive Hrx Hlen raw o'.
  unfold capture_packet, bind.
  rewrite (receivePacket_ok st d rx Hlive Hrx Hlen).
  fold raw. fold o'. unfold loss_report, seqGap. simpl.
  destruct (newSeqNum o' - oldSeqNum o' >? 1); simpl.
  - reflexivity.
  - rewrite app_nil_r. destruct st as [o w]. destruct w. reflexivity.
Qed.

Lemma update_last_app {A} (g : A -> A) (l : list A) (x : A) :
  update_last g (l ++ [x]) = l ++ [g x].
Proof.
  induction l as [|a l IH]; simpl; [reflexivity|].
  rewrite IH. destruct (l ++ [x]) eqn:E; [|reflexivity].
  destruct l; discriminate.
Qed.

Lemma live_stream_header_update raw o :
  live_stream (header_update raw o) = live_stream o.
Proof. unfold header_update, live_stream. destruct (newSeqNum o =? -1); reflexivity. Qed.

Lemma received_header_update raw o d :
  received (header_update raw o) d = received o d.
Proof. unfold header_update, received. destruct (newSeqNum o =? -1); reflexivity. Qed.

Lemma indexable_header_update raw o ds :
  indexable (header_update raw o) ds = indexable o ds.
Proof.
  unfold indexable, received, header_update.
  destruct (newSeqNum o =? -1); reflexivity.
Qed.

Lemma payload_header_update raw o ds :
  map (payload (header_update raw o)) ds = map (payload o) ds.
Proof.
  unfold payload, received, header_update.
  destruct (newSeqNum o =? -1); reflexivity.
Qed.

Lemma length_firstn_ge2 {A} (n : nat) (d : list A) :
  (2 <= n)%nat -> (2 <=? length (firstn n d))%nat = (2 <=? length d)%nat.
Proof.
  intros Hn. rewrite length_firstn.
  destruct (Nat.leb_spec 2 (length d)); [apply Nat.leb_le|apply Nat.leb_gt]; lia.
Qed.

Lemma indexable_1036 o ds :
  packetSize o = 1036 ->
  indexable o ds = forallb (fun d => (2 <=? length d)%nat) ds.
Proof.
  intros Hps. unfold indexable, received. rewrite Hps.
  induction ds as [|d l IH]; [reflexivity|].
  cbn [forallb]. rewrite IH. f_equal. apply length_firstn_ge2.
  change (Z.to_nat 1036) with 1036%nat. lia.
Qed.

Lemma after_packet_live st d :
  live_stream (self (after_packet st d)) = live_stream (self st).
Proof. apply live_stream_header_update. Qed.

Lemma capture_loop_exact (rounds : nat) :
  forall st,
    live_stream (self st) = true ->
    (rounds <= length (stream_rx (world st)))%nat ->
    indexable (self st) (firstn rounds (stream_rx (world st))) = true ->
    capture_loop rounds st =
      Ok tt (after_packets (firstn rounds (stream_rx (world st))) st).
Proof.
  induction rounds as [|n IH]; intros st Hlive Hlen Hidx; [reflexivity|].
  destruct (stream_rx (world st)) as [|d rx] eqn:Hrx; [simpl in Hlen; lia|].
  simpl in Hlen. unfold indexable in Hidx. cbn [firstn forallb] in Hidx.
  apply andb_prop in Hidx as [Hd Hrest]. apply Nat.leb_le in Hd.
  pose proof (capture_packet_ok st d rx Hlive Hrx Hd) as Hstep. cbv zeta in Hstep.
  cbn [capture_loop firstn]. unfold bind. rewrite Hstep.
  unfold after_packets. cbn [fold_left].
  assert (Hst : after_packet st d =
                {| self := header_update (received (self st) d) (self st);
                   world :=
                     w_console (console (world st) ++
                                loss_report (header_update (received (self st) d) (self st)))
                       (w_files (append_chunk (skipn 12 (received (self st) d)) (files (world st)))
                          (w_stream_rx rx (world st))) |}).
  { unfold after_packet. rewrite Hrx. reflexivity. }
  rewrite <- Hst.
  specialize (IH (after_packet st d)).
  assert (Hrx' : stream_rx (world (after_packet st d)) = rx) by (rewrite Hst; reflexivity).
  rewrite Hrx' in IH. apply IH.
  - now rewrite after_packet_live.
  - lia.
  - rewrite Hst. cbn [self]. now rewrite indexable_header_update.
Qed.

Lemma untouched_refl st : untouched_by_loop st st.
Proof. unfold untouched_by_loop. tauto. Qed.

Lemma untouched_trans st1 st2 st3 :
  untouched_by_loop st1 st2 -> untouched_by_loop st2 st3 -> untouched_by_loop st1 st3.
Proof.
  unfold untouched_by_loop. intros H1 H2.
  decompose [and] H1. decompose [and] H2.
  repeat split; congruence.
Qed.

Lemma untouched_after_packet st d : untouched_by_loop st (after_packet st d).
Proof.
  unfold untouched_by_loop, after_packet, header_update. cbn [self world].
  destruct (newSeqNum (self st) =? -1); repeat split.
Qed.

Lemma untouched_after_packets ds : forall st, untouched_by_loop st (after_packets ds st).
Proof.
  induction ds as [|d ds IH]; intros st; [apply untouched_refl|].
  unfold after_packets in *. cbn [fold_left].
  eapply untouched_trans; [apply untouched_after_packet|apply IH].
Qed.

Lemma unwritable_after_packets ds :
  forall st, unwritable (world (after_packets ds st)) = unwritable (world st).
Proof.
  induction ds as [|d ds IH]; intros st; [reflexivity|].
  unfold after_packets in *. cbn [fold_left]. now rewrite IH.
Qed.

Lemma stream_rx_after_packets ds :
  forall st,
    stream_rx (world (after_packets ds st)) = skipn (length ds) (stream_rx (world st)).
Proof.
  induction ds as [|d ds IH]; intros st; [reflexivity|].
  unfold after_packets in *. cbn [fold_left length]. rewrite IH.
  cbn [after_packet world stream_rx w_stream_rx].
  destruct (stream_rx (world st)) as [|x rx]; [now rewrite skipn_nil|reflexivity].
Qed.

Lemma files_after_packets ds :
  forall st fs name f,
    files (world st) = fs ++ [(name, f)] ->
    files (world (after_packets ds st)) =
      fs ++ [(name, add_frames (map (payload (self st)) ds) f)].
Proof.
  induction ds as [|d ds IH]; intros st fs name f Hf.
  - cbn. rewrite Hf. unfold add_frames. rewrite app_nil_r. now destruct f.
  - unfold after_packets in *. cbn [fold_left map].
    rewrite (IH (after_packet st d) fs name (add_frames [payload (self st) d] f)).
    + cbn [after_packet self]. rewrite payload_header_update.
      unfold add_frames. cbn. now rewrite <- app_assoc.
    + cbn [after_packet world files w_console w_files]. rewrite Hf.
      unfold append_chunk. rewrite update_last_app. reflexivity.
Qed.

(** *** The packet count *)

Lemma nearest_double_512 a :
  0 < a < 2 ^ 53 ->
  PyNum.nearest_double a 512 = (a * 2 ^ (52 - Z.log2 a), Z.log2 a - 61).
Proof.
  intros [Hpos Hlt].
  pose proof (Z.log2_spec a Hpos) as [Hlo Hhi].
  pose proof (Z.log2_nonneg a) as Hk0.
  assert (Hk : Z.log2 a < 53) by (apply Z.log2_lt_pow2; lia).
  set (k := Z.log2 a) in *.
  unfold PyNum.nearest_double, PyNum.quotient_exponent.
  change (Z.log2 512) with 9. fold k.
  assert (Hbelow : (if 0 <=? k - 9 then a <? 512 * 2 ^ (k - 9)
                    else a * 2 ^ (- (k - 9)) <? 512) = false).
  { destruct (Z.leb_spec 0 (k - 9)).
    - apply Z.ltb_ge. change 512 with (2 ^ 9). rewrite <- Z.pow_add_r by lia.
      replace (9 + (k - 9)) with k by lia. exact Hlo.
    - apply Z.ltb_ge. replace (- (k - 9)) with (9 - k) by lia.
      assert (H9 : 2 ^ k * 2 ^ (9 - k) = 512).
      { rewrite <- Z.pow_add_r by lia. now replace (k + (9 - k)) with 9 by lia. }
      rewrite <- H9. apply Z.mul_le_mono_nonneg_r; [apply Z.pow_nonneg; lia|exact Hlo]. }
  rewrite Hbelow.
  replace (Z.max (k - 9 - 52) (-1074)) with (k - 61) by lia.
  assert (Hs : (0 <=? k - 61) = false) by (apply Z.leb_gt; lia).
  rewrite Hs. f_equal.
  replace (- (k - 61)) with (52 - k + 9) by lia.
  rewrite Z.pow_add_r by lia. change (2 ^ 9) with 512.
  rewrite Z.mul_assoc.
  unfold PyNum.round_half_even.
  rewrite Z.mod_mul by lia. rewrite Z.div_mul by lia. reflexivity.
Qed.

(** Below [2^53] the division by 512 is exact, and [int] leaves the
    quotient cut towards zero. *)
Lemma int_true_div_512 a :
  Z.abs a < 2 ^ 53 -> PyNum.int_true_div a 512 = inr (Z.quot a 512).
Proof.
  intros Ha. unfold PyNum.int_true_div. change (512 =? 0) with false. cbv iota.
  destruct (Z.eqb_spec a 0) as [->|Hne]; [reflexivity|].
  assert (Hpos : 0 < Z.abs a < 2 ^ 53) by lia.
  change (Z.abs 512) with 512. change (Z.sgn 512) with 1.
  rewrite (nearest_double_512 (Z.abs a) Hpos).
  pose proof (Z.log2_nonneg (Z.abs a)) as Hk0.
  assert (Hk : Z.log2 (Z.abs a) < 53) by (apply Z.log2_lt_pow2; lia).
  set (k := Z.log2 (Z.abs a)) in *.
  assert (Hs : (0 <=? k - 61) = false) by (apply Z.leb_gt; lia).
  rewrite Hs. cbn [andb]. f_equal.
  replace (- (k - 61)) with (9 + (52 - k)) by lia.
  rewrite Z.pow_add_r by lia. change (2 ^ 9) with 512.
  assert (Hc : 2 ^ (52 - k) <> 0) by (apply Z.pow_nonzero; lia).
  rewrite Z.div_mul_cancel_r by (try exact Hc; lia).
  destruct (Z.abs_spec a) as [[Hge ->]|[Hneg ->]].
  - rewrite Z.sgn_pos by lia. rewrite Z.quot_div_nonneg by lia. lia.
  - rewrite Z.sgn_neg by lia.
    replace (Z.quot a 512) with (- Z.quot (- a) 512)
      by (rewrite Z.quot_opp_l by lia; lia).
    rewrite Z.quot_div_nonneg by lia. lia.
Qed.


(** *** The file of a capture *)

Lemma last_file_app fs nf : last_file (fs ++ [nf]) = Some (snd nf).
Proof.
  induction fs as [|a l IH]; [reflexivity|].
  cbn [app last_file]. rewrite IH. destruct (l ++ [nf]) eqn:E; [|reflexivity].
  destruct l; discriminate.
Qed.

Ltac step :=
  cbn -[Z.leb Z.eqb Z.gtb Z.ltb Z.quot Z.div Z.to_nat Z.mul Z.sub Z.add String.append
       firstn skipn payload PyNum.int_true_div remove_file existsb find option_map
       header_fits unset last_file update_last].

(** A step on the file that was just opened: its last entry is known. *)
Ltac file_step :=
  repeat first [rewrite update_last_app | rewrite last_file_app]; step;
  change (0 =? 0) with true; change (1 <=? 1) with true;
  change (1 <=? 2) with true; change (2 <=? 4) with true; step.

Ltac same_start :=
  match goal with
  | |- match capture_loop _ ?a with _ => _ end =
       match capture_loop _ ?b with _ => _ end =>
      replace a with b;
      [ reflexivity
      | unfold on_world; simpl; rewrite !update_last_app; reflexivity ]
  end.

Lemma live_opened st :
  stream_available st = true -> live_stream (self (opened st)) = true.
Proof.
  unfold stream_available, opened.
  destruct (open_stream_port (self st)); [auto|reflexivity].
Qed.

(** [write_wav] up to its loop. *)
Lemma write_wav_to_loop seconds prefix close st n :
  config_info (self st) <> [] ->
  stream_available st = true ->
  samplesPerPacket (self st) = 512 ->
  0 < srate (self st) ->
  PyNum.int_true_div (seconds * srate (self st)) 512 = inr n ->
  writable (wav_name prefix st) st = true ->
  write_wav seconds prefix close st =
    bind (capture_loop (Z.to_nat n))
         (fun _ => finish close (wav_name prefix st))
         (prepared seconds prefix st).
Proof.
  intros Hcfg Havail Hspp Hrate Hn Hw.
  destruct st as [o w]. cbn [self world] in *.
  unfold stream_available in Havail. cbn [self world] in Havail.
  unfold writable, wav_name in Hw. cbn [self world] in Hw.
  destruct (refusal (prefix ++ "_" ++ clock w (ticks w) ++ ".wav") w) eqn:Hopen';
    [discriminate|clear Hw; rename Hopen' into Hw; unfold refusal in Hw].
  assert (Hr : (0 <? srate o) = true) by (apply Z.ltb_lt; lia).
  unfold prepared, opened, packet_number, wav_name, finish.
  unfold write_wav, packet_count, wave_open, refusal, setnchannels, setsampwidth,
    setframerate, set_parameter, obj, on_obj, bind, get_self, get_world. step.
  destruct (config_info o) as [|c cs] eqn:Hc; [contradiction|]. step.
  destruct (open_stream_port o) eqn:Hopen; step.
  - rewrite Hspp, Hn. step. rewrite Hw. step.
    do 3 file_step. rewrite Hr. step. file_step. same_start.
  - apply negb_true_iff in Havail. rewrite Havail. step.
    rewrite Hspp, Hn. step. rewrite Hw. step.
    do 3 file_step. rewrite Hr. step. file_step. same_start.
Qed.


Lemma prepared_facts seconds prefix st :
  stream_available st = true ->
  live_stream (self (prepared seconds prefix st)) = true /\
  stream_rx (world (prepared seconds prefix st)) = stream_rx (world st) /\
  packetSize (self (prepared seconds prefix st)) = packetSize (self st) /\
  config_info (self (prepared seconds prefix st)) = config_info (self st) /\
  srate (self (prepared seconds prefix st)) = srate (self st).
Proof.
  intros Havail. pose proof (live_opened st Havail) as Hl.
  unfold prepared, opened in *.
  destruct (open_stream_port (self st)); cbn; repeat split; auto.
Qed.

Lemma prepared_files seconds prefix st :
  files (world (prepared seconds prefix st)) =
    remove_file (wav_name prefix st) (files (world st)) ++
    [(wav_name prefix st,
      {| nchannels := 1; sampwidth := 2; framerate := srate (self st);
         frames := []; finalized := false |})].
Proof. unfold prepared, opened. destruct (open_stream_port (self st)); reflexivity. Qed.

Lemma prepared_payload seconds prefix st ds :
  map (payload (self (prepared seconds prefix st))) ds = map (payload (self st)) ds.
Proof. unfold prepared, opened. destruct (open_stream_port (self st)); reflexivity. Qed.

(** The state the loop of [write_wav] leaves on a stream that delivers. *)
Lemma capture_state seconds prefix st rounds :
  stream_available st = true ->
  packetSize (self st) = 1036 ->
  (rounds <= length (stream_rx (world st)))%nat ->
  forallb (fun d => (2 <=? length d)%nat) (firstn rounds (stream_rx (world st))) = true ->
  let st2 := after_packets (firstn rounds (stream_rx (world st))) (prepared seconds prefix st) in
  capture_loop rounds (prepared seconds prefix st) = Ok tt st2 /\
  files (world st2) =
    remove_file (wav_name prefix st) (files (world st)) ++
    [(wav_name prefix st,
      {| nchannels := 1; sampwidth := 2; framerate := srate (self st);
         frames := map (payload (self st)) (firstn rounds (stream_rx (world st)));
         finalized := false |})] /\
  stream_rx (world st2) = skipn rounds (stream_rx (world st)) /\
  untouched_by_loop (prepared seconds prefix st) st2.
Proof.
  intros Havail Hps Hlen Hidx st2.
  destruct (prepared_facts seconds prefix st Havail) as (Hlive & Hrx & Hps' & _ & _).
  split; [|split; [|split]].
  - unfold st2. rewrite <- Hrx. apply capture_loop_exact.
    + exact Hlive.
    + now rewrite Hrx.
    + rewrite Hrx, indexable_1036; [exact Hidx|]. now rewrite Hps'.
  - unfold st2.
    rewrite (files_after_packets _ _ _ _ _ (prepared_files seconds prefix st)).
    now rewrite prepared_payload.
  - unfold st2. rewrite stream_rx_after_packets, Hrx.
    now rewrite length_firstn, Nat.min_l by exact Hlen.
  - apply untouched_after_packets.
Qed.

Lemma unset_false r chunks fin :
  0 < r ->
  unset {| nchannels := 1; sampwidth := 2; framerate := r; frames := chunks;
           finalized := fin |} = false.
Proof.
  intros Hr. unfold unset. cbn [nchannels sampwidth framerate].
  change (1 =? 0) with false. change (2 =? 0) with false.
  cbn [orb]. apply Z.eqb_neq. lia.
Qed.

(** [finish] on a file whose length fields can be written. *)
Lemma finish_ok close filename st fs name f :
  files (world st) = fs ++ [(name, f)] ->
  finalized f = false ->
  unset f = false ->
  header_fits f = true ->
  (close = true -> stream_socket (self st) <> None) ->
  finish close filename st = Ok 1 (finished close filename st).
Proof.
  intros Hf Hfin Hset Hfit Hs. destruct st as [o w]. cbn [self world] in *.
  unfold finish, finished, wave_close, obj, on_obj, close_stream, bind, get_self,
    get_world, modify_world, modify_self, on_world, on_self, ret.
  cbn [self world]. rewrite Hf, last_file_app. cbn [snd]. rewrite Hfin.
  cbn [world self]. rewrite Hset, Hfit.
  replace (match frames f with [] => false | _ :: _ => false end) with false
    by (destruct (frames f); reflexivity).
  cbn.
  destruct close; cbn; [|rewrite ?Hf; reflexivity].
  destruct (stream_socket o) as [sock|] eqn:Hsock; [|now destruct Hs].
  cbn. rewrite ?Hsock, ?Hf. reflexivity.
Qed.

(** [finish] on a file that has outgrown its header: [close] raises, the
    stream is left as it is, no tagging task is started. *)
Lemma finish_oversize close filename st fs name f :
  files (world st) = fs ++ [(name, f)] ->
  finalized f = false ->
  unset f = false ->
  header_fits f = false ->
  finish close filename st =
    Raise StructError (on_world (w_files (fs ++ [(name, released f)])) st).
Proof.
  intros Hf Hfin Hset Hfit. destruct st as [o w]. cbn [self world] in *.
  unfold finish, wave_close, obj, on_obj, bind, get_self, get_world, modify_world.
  cbn [self world]. rewrite Hf, last_file_app. cbn [snd]. rewrite Hfin.
  cbn [on_world world self ret]. rewrite Hset, Hfit.
  replace (match frames f with [] => false | _ :: _ => false end) with false
    by (destruct (frames f); reflexivity).
  unfold raise, on_world. cbn [self world files w_files].
  now rewrite Hf, update_last_app.
Qed.

Lemma finished_files close filename st fs name f :
  files (world st) = fs ++ [(name, f)] ->
  files (world (finished close filename st)) = fs ++ [(name, released f)].
Proof.
  intros Hf. unfold finished.
  destruct close; cbn [world on_world on_self files w_files w_threads];
    rewrite Hf, update_last_app; reflexivity.
Qed.

Lemma data_written_bound chunks r fin :
  Forall (fun c => (length c <= 1024)%nat) chunks ->
  data_written {| nchannels := 1; sampwidth := 2; framerate := r; frames := chunks;
                  finalized := fin |} <= 1024 * Z.of_nat (length chunks).
Proof.
  unfold data_written. cbn [frames].
  induction 1 as [|c l Hc Hl IH]; [cbn; lia|].
  cbn [fold_right length]. lia.
Qed.

Lemma payload_1036 o d :
  packetSize o = 1036 -> (length (payload o d) <= 1024)%nat.
Proof.
  intros Hps. unfold payload, received. rewrite Hps.
  rewrite length_skipn, length_firstn.
  change (Z.to_nat 1036) with 1036%nat. lia.
Qed.

(** Up to 4194303 packets the file stays below what its header can
    describe. *)
Lemma small_capture_fits o ds r fin :
  packetSize o = 1036 ->
  Z.of_nat (length ds) <= 4194303 ->
  header_fits {| nchannels := 1; sampwidth := 2; framerate := r;
                 frames := map (payload o) ds; finalized := fin |} = true.
Proof.
  intros Hps Hlen. unfold header_fits. apply orb_true_iff. right.
  apply Z.leb_le.
  pose proof (data_written_bound (map (payload o) ds) r fin) as Hb.
  rewrite length_map in Hb.
  assert (HF : Forall (fun c => (length c <= 1024)%nat) (map (payload o) ds)).
  { apply Forall_forall. intros c Hin. apply in_map_iff in Hin as (d & <- & _).
    now apply payload_1036. }
  specialize (Hb HF). lia.
Qed.




(** ** Sequence gaps *)

(** C9.  With the previous sequence number still at the sentinel -1,
    [receivePacket] leaves the old number one below the new one, whatever
    the new one is; the loop then sees a gap of exactly 1 and prints no
    loss line. *)
Theorem first_packet_never_reports_loss (st : State) (d : list byte)
    (rx : list (list byte)) :
  live_stream (self st) = true ->
  stream_rx (world st) = d :: rx ->
  (2 <= length (received (self st) d))%nat ->
  newSeqNum (self st) = -1 ->
  exists chunk st_r st',
    receivePacket st = Ok chunk st_r /\
    newSeqNum (self st_r) = seq_of (received (self st) d) /\
    oldSeqNum (self st_r) = newSeqNum (self st_r) - 1 /\
    capture_packet st = Ok tt st' /\
    seqGap (self st') = 1 /\
    console (world st') = console (world st).
Proof.
  intros Hlive Hrx Hlen Hfirst.
  pose proof (receivePacket_ok st d rx Hlive Hrx Hlen) as Hr.
  pose proof (capture_packet_ok st d rx Hlive Hrx Hlen) as Hc.
  cbv zeta in Hc.
  set (raw := received (self st) d) in *.
  assert (Hnew : newSeqNum (header_update raw (self st)) = seq_of raw).
  { unfold header_update. rewrite Hfirst. reflexivity. }
  assert (Hold : oldSeqNum (header_update raw (self st)) = seq_of raw - 1).
  { unfold header_update. rewrite Hfirst. reflexivity. }
  assert (Hgap : seqGap (header_update raw (self st)) = 1).
  { unfold seqGap. rewrite Hnew, Hold. lia. }
  eexists _, _, _. split; [exact Hr|]. cbn [self world].
  split; [exact Hnew|]. split; [rewrite Hnew, Hold; reflexivity|].
  split; [exact Hc|]. cbn [self world].
  split; [exact Hgap|].
  unfold loss_report. rewrite Hgap. simpl. now rewrite app_nil_r.
Qed.

(** After the first packet, the number the loop compares with 1 is the
    plain difference of the two sequence numbers, and the line it prints
    carries that difference. *)
Lemma later_packet_gap st d rx :
  live_stream (self st) = true ->
  stream_rx (world st) = d :: rx ->
  (2 <= length (received (self st) d))%nat ->
  newSeqNum (self st) <> -1 ->
  exists st',
    capture_packet st = Ok tt st' /\
    seqGap (self st') = seq_of (received (self st) d) - newSeqNum (self st) /\
    console (world st') = console (world st) ++ loss_report (self st').
Proof.
  intros Hlive Hrx Hlen Hprev.
  pose proof (capture_packet_ok st d rx Hlive Hrx Hlen) as Hc.
  cbv zeta in Hc. eexists. split; [exact Hc|]. cbn [self world].
  split; [|reflexivity].
  unfold seqGap, header_update.
  apply Z.eqb_neq in Hprev. rewrite Hprev. reflexivity.
Qed.

(** ** Streaming control *)



(** ** A device that answers over UDP *)

Lemma prefix_all (n : nat) (s : string) :
  (String.length s <= n)%nat -> PyStr.prefix n s = s.
Proof.
  unfold PyStr.prefix. revert n.
  induction s as [|c s IH]; intros [|n] H; simpl in *; try reflexivity; try lia.
  rewrite IH; [reflexivity|lia].
Qed.

Lemma ends_crlf_reply (r : string) : PyStr.ends_crlf (reply r) = true.
Proof.
  unfold reply. induction r as [|c r IH]; [reflexivity|].
  cbn [String.append PyStr.ends_crlf]. rewrite IH.
  destruct (r ++ PyStr.CRLF)%string as [|d [|e s]] eqn:E; try reflexivity.
  simpl in IH. discriminate.
Qed.

Lemma remove_crlf_reply (r : string) :
  plain r = true -> PyStr.remove_crlf (reply r) = r.
Proof.
  unfold reply, plain. induction r as [|c r IH]; intros H; [reflexivity|].
  cbn [list_ascii_of_string forallb] in H.
  apply andb_prop in H as [Hc Hr]. apply andb_prop in Hc as [Hcr _].
  apply negb_true_iff in Hcr.
  cbn [String.append PyStr.remove_crlf]. rewrite Hcr. cbn [andb].
  rewrite (IH Hr).
  destruct (r ++ PyStr.CRLF)%string eqn:E; [destruct r; discriminate|reflexivity].
Qed.

Lemma remove_quotes_plain (r : string) :
  plain r = true -> PyStr.remove_quotes r = r.
Proof.
  unfold plain. induction r as [|c r IH]; intros H; [reflexivity|].
  cbn [list_ascii_of_string forallb] in H.
  apply andb_prop in H as [Hc Hr]. apply andb_prop in Hc as [_ Hq].
  apply negb_true_iff in Hq.
  cbn [PyStr.remove_quotes]. rewrite Hq, (IH Hr). reflexivity.
Qed.

(** A query answered by one datagram returns the text of the answer. *)
Lemma query_udp_reply st addr command r rest :
  udp_ready (self st) addr ->
  udp_rx (world st) = reply r :: rest ->
  plain r = true ->
  (String.length (reply r) <= 1024)%nat ->
  query command st = Ok r (after_query addr command rest st).
Proof.
  intros (Hi & [sk Hsk] & Ha) Hrx Hplain Hlen.
  destruct st as [o w]. cbn [self world] in *.
  unfold query, send, send_udp, sendto, recv, recv_udp, bind, get_self, py_assert,
    after_query.
  cbn [self world]. rewrite Hi. cbn. rewrite Hsk, Ha. cbn.
  rewrite Hi. cbn. rewrite Hsk, Hrx. cbn [recv_udp_loop String.append].
  rewrite (prefix_all 1024 (reply r) Hlen), ends_crlf_reply.
  cbn. rewrite (remove_crlf_reply r Hplain), (remove_quotes_plain r Hplain).
  reflexivity.
Qed.

(** ** Transport initialisation *)

(** C5, as the code has it.  [init_serial] refuses only a second serial
    port: with the serial handle set it raises and changes nothing.  With
    the serial handle unset it opens the port whether or not a UDP socket
    exists, and [init_udp], once the device answers, installs its socket
    whether or not a serial port exists.  Either way the other handle
    survives, and [interface] keeps its value when it has one. *)
Theorem init_guards_serial_only (st1 st2 st3 : State) (device ip_addr : string)
    (port : Z) (buffer : string) (rx : list string) :
  serial (self st1) <> None ->
  serial (self st2) = None ->
  existsb (String.eqb device) (serial_devices (world st2)) = true ->
  recv_udp_loop (udp_rx (world st3)) EmptyString = Some (buffer, rx) ->
  init_serial device st1 = Raise (ValueError "Serial already configured!") st1 /\
  (exists st',
      init_serial device st2 = Ok tt st' /\
      serial (self st') = Some device /\
      socket (self st') = socket (self st2) /\
      interface (self st') =
        match interface (self st2) with Some i => Some i | None => Some Serial end) /\
  (exists st',
      init_udp ip_addr port st3 = Ok tt st' /\
      socket (self st') = Some {| timeout := 2 |} /\
      nexos_address (self st') = Some (ip_addr, port) /\
      serial (self st') = serial (self st3) /\
      interface (self st') =
        match interface (self st3) with Some i => Some i | None => Some Udp end).
Proof.
  intros H1 H2 Hdev Hrx. split; [|split].
  - unfold init_serial, bind, get_self.
    destruct (serial (self st1)); [reflexivity|contradiction].
  - destruct st2 as [o w]. cbn [self world] in *.
    unfold init_serial, bind, get_self, get_world. cbn. rewrite H2. cbn. rewrite Hdev. cbn.
    destruct (interface o) eqn:Hi; cbn;
      (eexists; split; [reflexivity|]); cbn; rewrite ?Hi; repeat split.
  - destruct st3 as [o w]. cbn [self world] in *.
    unfold init_udp, sendto, recv_udp, bind, get_self. cbn. rewrite Hrx. cbn.
    destruct (interface o) eqn:Hi; cbn;
      (eexists; split; [reflexivity|]); cbn; rewrite ?Hi; repeat split.
Qed.

(** ** Opening the stream *)

(** C6, as the code has it.  [open_stream] does not look at the flag or at
    the socket it replaces: called with the stream socket already bound and
    not closed, on a port no other process holds, it returns, and the
    object has a newly bound socket and the flag set. *)
Theorem open_stream_has_no_guard (st : State) (port : Z) :
  open_stream_port (self st) = true ->
  live_stream (self st) = true ->
  existsb (Z.eqb port) (ports_in_use (world st)) = false ->
  exists st',
    open_stream port st = Ok tt st' /\
    stream_socket (self st') = Some {| bound_port := Some port; closed := false |} /\
    open_stream_port (self st') = true /\
    world st' = world st.
Proof.
  intros _ _ Hfree. destruct st as [o w]. cbn [self world] in *.
  unfold open_stream, bind, get_world. cbn.
  rewrite Hfree. cbn. eexists. repeat split.
Qed.

(** ** Refreshing the configuration *)

Lemma query_self q st r st' : query q st = Ok r st' -> self st' = self st.
Proof.
  intros H. pose proof (query_post q st) as Hp. unfold post in Hp.
  rewrite H in Hp. apply Hp.
Qed.

Ltac ask_next H :=
  match type of H with
  | context [query ?q ?s] =>
      let r := fresh "r" in
      let st := fresh "st" in
      let Hq := fresh "Hq" in
      destruct (query q s) as [r st| |] eqn:Hq; [|discriminate H|discriminate H];
      cbn -[query PyStr.int_of_str Z.eqb] in H
  end.

Ltac read_int H :=
  match type of H with
  | context [PyStr.int_of_str ?r] =>
      let n := fresh "n" in
      let Hn := fresh "Hn" in
      destruct (PyStr.int_of_str r) as [n|] eqn:Hn; [|discriminate H];
      cbn -[query PyStr.int_of_str Z.eqb] in H
  end.

(** A refresh that returns is a run of its queries, and the other way
    round. *)
Lemma get_config_refresh st c st' :
  get_config st = Ok c st' <-> refresh_of st c st'.
Proof.
  unfold refresh_of, equalizer_and_gain, asked. split.
  - intros H.
    unfold get_config, get_channel, get_srate, get_equalizer, get_gain, py_int, bind in H.
    ask_next H. read_int H.
    destruct (n =? 1) eqn:Hn1; cbn -[query PyStr.int_of_str Z.eqb] in H.
    + change (1 =? 1) with true in H. cbn -[query PyStr.int_of_str Z.eqb] in H.
      ask_next H. ask_next H. ask_next H. read_int H. ask_next H. ask_next H.
      injection H as <- <-.
      pose proof (query_self _ _ _ _ Hq0) as S0. pose proof (query_self _ _ _ _ Hq1) as S1.
      pose proof (query_self _ _ _ _ Hq2) as S2. pose proof (query_self _ _ _ _ Hq3) as S3.
      pose proof (query_self _ _ _ _ Hq4) as S4.
      exists r, n, st0, (VStr r0), (VStr r1), (on_self (upd_gain_status (VStr r1)) st2),
        r2, n0, st3, r3, st4, r4, st5.
      cbv zeta. rewrite Hn1. split; [first [reflexivity|assumption]|]. split; [first [reflexivity|assumption]|].
      change (1 =? 1) with true.
      split. { exists r0, r1, st1, st2. repeat split; first [reflexivity|assumption]. }
      do 4 (split; [first [reflexivity|assumption]|]).
      assert (Hself : self st5 =
                upd_srate n0 (upd_gain_status (VStr r1) (upd_eq_status (VStr r0)
                  (upd_ch 1 (self st0))))).
      { rewrite S4, S3. cbn [on_self self]. rewrite S2. cbn [on_self self].
        rewrite S1. cbn [on_self self]. rewrite S0. reflexivity. }
      rewrite Hself. split; reflexivity.
    + change (2 =? 1) with false in H. cbn -[query PyStr.int_of_str Z.eqb] in H.
      ask_next H. read_int H. ask_next H. ask_next H.
      injection H as <- <-.
      pose proof (query_self _ _ _ _ Hq0) as S0. pose proof (query_self _ _ _ _ Hq1) as S1.
      pose proof (query_self _ _ _ _ Hq2) as S2.
      exists r, n, st0, (VStr "na"), (VStr "na"),
        (on_self (upd_gain_status (VStr "na"))
           (on_self (upd_eq_status (VStr "na")) (on_self (upd_ch 2) st0))),
        r0, n0, st1, r1, st2, r2, st3.
      cbv zeta. rewrite Hn1. split; [first [reflexivity|assumption]|]. split; [first [reflexivity|assumption]|].
      change (2 =? 1) with false.
      split; [repeat split|].
      do 4 (split; [first [reflexivity|assumption]|]).
      assert (Hself : self st3 =
                upd_srate n0 (upd_gain_status (VStr "na") (upd_eq_status (VStr "na")
                  (upd_ch 2 (self st0))))).
      { rewrite S2, S1. cbn [on_self self]. rewrite S0. reflexivity. }
      rewrite Hself. split; reflexivity.
  - intros (rc & n & st1 & e & g & st3 & rs & r & st4 & name & st5 & version & st6 &
            Hq1 & Hn & Heg & Hq2 & Hr & Hq3 & Hq4 & -> & ->).
    unfold get_config, get_channel, get_srate, get_equalizer, get_gain, py_int, bind.
    rewrite Hq1, Hn. cbn -[query PyStr.int_of_str Z.eqb].
    pose proof (query_self _ _ _ _ Hq2) as S2. pose proof (query_self _ _ _ _ Hq3) as S3.
    pose proof (query_self _ _ _ _ Hq4) as S4.
    destruct (n =? 1) eqn:Hn1; cbn -[query PyStr.int_of_str Z.eqb].
    + change (1 =? 1) with true in *. cbn -[query PyStr.int_of_str Z.eqb].
      destruct Heg as (re & rg & st2 & st2' & Ha & Hb & -> & -> & ->).
      pose proof (query_self _ _ _ _ Ha) as Sa. pose proof (query_self _ _ _ _ Hb) as Sb.
      rewrite Ha. cbn -[query PyStr.int_of_str Z.eqb].
      rewrite Hb. cbn -[query PyStr.int_of_str Z.eqb].
      rewrite Hq2, Hr. cbn -[query PyStr.int_of_str Z.eqb].
      rewrite Hq3. cbn -[query PyStr.int_of_str Z.eqb].
      rewrite Hq4. cbn -[query PyStr.int_of_str Z.eqb].
      assert (Hself : self st6 =
                upd_srate r (upd_gain_status (VStr rg) (upd_eq_status (VStr re)
                  (upd_ch 1 (self st1))))).
      { rewrite S4, S3. cbn [on_self self]. rewrite S2. cbn [on_self self].
        rewrite Sb. cbn [on_self self]. rewrite Sa. reflexivity. }
      rewrite Hself. reflexivity.
    + change (2 =? 1) with false in *. cbn -[query PyStr.int_of_str Z.eqb].
      destruct Heg as (-> & -> & ->).
      rewrite Hq2, Hr. cbn -[query PyStr.int_of_str Z.eqb].
      rewrite Hq3. cbn -[query PyStr.int_of_str Z.eqb].
      rewrite Hq4. cbn -[query PyStr.int_of_str Z.eqb].
      assert (Hself : self st6 =
                upd_srate r (upd_gain_status (VStr "na") (upd_eq_status (VStr "na")
                  (upd_ch 2 (self st1))))).
      { rewrite S4, S3. cbn [on_self self]. rewrite S2. reflexivity. }
      rewrite Hself. reflexivity.
Qed.

(** A refresh answered datagram by datagram over UDP returns the dict of
    the answers. *)
Lemma get_config_udp st addr chs n eq gain srs r name version rest :
  udp_ready (self st) addr ->
  PyStr.int_of_str chs = Some n ->
  PyStr.int_of_str srs = Some r ->
  forallb answerable (refresh_answers chs n eq gain srs name version) = true ->
  udp_rx (world st) = map reply (refresh_answers chs n eq gain srs name version) ++ rest ->
  exists st',
    get_config st =
      Ok [ ("name"%string, VStr name);
           ("version"%string, VStr version);
           ("channel"%string, VInt (if n =? 1 then 1 else 2));
           ("srate"%string, VInt r);
           ("gain"%string, VStr (if n =? 1 then gain else "na"%string));
           ("equalizer"%string, VStr (if n =? 1 then eq else "na"%string)) ] st' /\
    udp_rx (world st') = rest.
Proof.
  intros Hready Hch Hsr Hans Hrx.
  destruct st as [o w].
  destruct w as [sd srx urx strx piu txs clk tks unw fls cns ths].
  cbn [self world udp_rx] in *. subst urx.
  unfold refresh_answers in *.
  assert (Hq : forall st command r rest',
             udp_ready (self st) addr ->
             udp_rx (world st) = reply r :: rest' ->
             answerable r = true ->
             query command st = Ok r (after_query addr command rest' st)).
  { intros st command r0 rest' H1 H2 H3.
    apply andb_prop in H3 as [Hp Hl]. apply Nat.leb_le in Hl.
    now apply query_udp_reply. }
  unfold get_config, get_channel, get_srate, get_equalizer, get_gain, py_int, bind.
  cbn [get_self self py_str].
  cbn [forallb app map] in Hans.
  apply andb_prop in Hans as [Ha1 Hans].
  match goal with
  | |- context [query ?c ?s] => rewrite (Hq s c _ _ Hready eq_refl Ha1)
  end.
  rewrite Hch. cbn -[query send String.eqb PyStr.int_of_str reply Z.eqb].
  destruct (n =? 1) eqn:Hn; cbn [forallb app map] in Hans;
    repeat match type of Hans with
           | _ && _ = true => let Ha := fresh "Ha" in apply andb_prop in Hans as [Ha Hans]
           end;
    cbn -[query send String.eqb PyStr.int_of_str reply];
    repeat first
      [ match goal with
        | Ha : answerable ?r = true |- context [query ?c ?s] =>
            rewrite (Hq s c r _ Hready eq_refl Ha);
            cbn -[query send String.eqb PyStr.int_of_str reply]
        end
      | rewrite Hsr; cbn -[query send String.eqb PyStr.int_of_str reply] ];
    eexists; split; reflexivity.
Qed.

(** C7, as the code has it.  A refresh returns exactly when the queries it
    makes come back with integers where integers are read: the channel;
    the equalizer and the gain when the channel read is 1, and neither of
    them otherwise, the text [na] standing for both; the rate; the
    identity; the version.  With a device that answers each query by one
    datagram over UDP, the dict returned is made of the texts of these
    datagrams.  A refresh that returns has put its queries on the wire and
    has replaced the dict as a whole by the dict it returns, which holds
    under every key the reply to the query for it and agrees with the
    attributes.  A refresh that raises leaves the dict as it was; the
    attribute [ch], assigned as soon as the channel is read, then already
    holds the channel just read. *)
Theorem get_config_replaces_dict_whole (st : State) :
  (forall c st', get_config st = Ok c st' <-> refresh_of st c st') /\
  (forall addr chs n eq gain srs r name version rest,
     udp_ready (self st) addr ->
     PyStr.int_of_str chs = Some n ->
     PyStr.int_of_str srs = Some r ->
     forallb answerable (refresh_answers chs n eq gain srs name version) = true ->
     udp_rx (world st) = map reply (refresh_answers chs n eq gain srs name version) ++ rest ->
     exists st',
       get_config st =
         Ok [ ("name"%string, VStr name);
              ("version"%string, VStr version);
              ("channel"%string, VInt (if n =? 1 then 1 else 2));
              ("srate"%string, VInt r);
              ("gain"%string, VStr (if n =? 1 then gain else "na"%string));
              ("equalizer"%string, VStr (if n =? 1 then eq else "na"%string)) ] st' /\
       udp_rx (world st') = rest) /\
  post get_config st
    (fun c st' =>
       config_info (self st') = c /\
       (exists name version, c = config_of name version (self st')) /\
       tx (world st') =
         tx (world st) ++ frames_on (self st) (config_queries (ch (self st'))))
    (fun _ st' =>
       config_info (self st') = config_info (self st) /\
       (forall c st1, get_channel st = Ok c st1 -> ch (self st') = c)).
Proof.
  split; [intros c st'; apply get_config_refresh|].
  split; [intros addr chs n eq gain srs r name version rest; apply get_config_udp|].
  eapply post_weaken; [apply get_config_post| |].
  - intros c st' (chv & e & g & r & name & version & _ & _ & Hc & Hs & Ht).
    rewrite Hs. cbn. split; [reflexivity|]. split.
    + exists name, version. rewrite Hc. reflexivity.
    + exact Ht.
  - intros e st' (H1 & _ & H3). split; assumption.
Qed.

(** ** Where the code departs from its description *)

(** C1.  Previous sequence number 65535, next packet numbered 2: two
    packets were lost across the wrap.  The loop subtracts without
    reducing modulo 65536, gets -65533 where the gap is 3, and prints
    nothing.  Previous 10, next 13 (two packets lost): the line that is
    printed goes through [msg], not [warnmsg], and carries the gap 3, not
    the number of lost packets. *)
Theorem wraparound_gap_goes_unreported :
  (exists st',
      capture_packet
        {| self := upd_newSeqNum 65535 streaming_client;
           world := w_stream_rx [packet x00 x02] quiet |} = Ok tt st' /\
      oldSeqNum (self st') = 65535 /\
      newSeqNum (self st') = 2 /\
      seqGap (self st') = -65533 /\
      (newSeqNum (self st') - oldSeqNum (self st')) mod 65536 = 3 /\
      console (world st') = []) /\
  (exists st',
      capture_packet
        {| self := upd_newSeqNum 10 streaming_client;
           world := w_stream_rx [packet x00 x0d] quiet |} = Ok tt st' /\
      seqGap (self st') = 3 /\
      console (world st') =
        [[VStr "[blue]"; VStr "Lost: "; VInt 3; VStr "packets"]]).
Proof.
  split; eexists; (split; [vm_compute; reflexivity|]);
    repeat split; vm_compute; reflexivity.
Qed.

(** C5.  A client takes the serial port and then the UDP socket: the
    second initialisation returns, and the object holds both handles. *)
Lemma second_medium_is_accepted :
  exists st1 st2,
    init_serial "/dev/ttyUSB0"
      {| self := init; world := w_udp_rx [reply "NeXOS A2"] quiet |} = Ok tt st1 /\
    interface (self st1) = Some Serial /\
    init_udp "192.168.3.220" 7777 st1 = Ok tt st2 /\
    serial (self st2) = Some "/dev/ttyUSB0"%string /\
    socket (self st2) = Some {| timeout := 2 |} /\
    interface (self st2) = Some Serial.
Proof.
  eexists. eexists. split; [vm_compute; reflexivity|].
  split; [vm_compute; reflexivity|].
  split; [vm_compute; reflexivity|].
  repeat split; vm_compute; reflexivity.
Qed.

(** C6.  [open_stream] twice in a row on the same port, with no
    [close_stream] in between: the second call returns. *)
Lemma open_stream_twice_returns :
  exists st1 st2,
    open_stream 4002 {| self := init; world := quiet |} = Ok tt st1 /\
    open_stream_port (self st1) = true /\
    live_stream (self st1) = true /\
    open_stream 4002 st1 = Ok tt st2.
Proof.
  eexists. eexists. split; [vm_compute; reflexivity|].
  repeat split; vm_compute; reflexivity.
Qed.

(** C7.  The device answers the channel, equalizer, gain and sample-rate
    queries and then falls silent: the refresh raises on the identity
    query, the dict is still empty, and [ch], [srate], [eq_status] and
    [gain_status] already hold the new values. *)
Lemma failed_refresh_leaves_new_attributes :
  exists st',
    get_config
      {| self := udp_client;
         world := w_udp_rx [reply "1"; reply "0"; reply "1"; reply "100000"] quiet |}
      = Raise SocketTimeout st' /\
    config_info (self st') = [] /\
    (ch udp_client = -1 /\ ch (self st') = 1) /\
    (srate udp_client = -1 /\ srate (self st') = 100000) /\
    (eq_status udp_client = VInt (-1) /\ eq_status (self st') = VStr "0") /\
    (gain_status udp_client = VInt (-1) /\ gain_status (self st') = VStr "1").
Proof.
  eexists. split; [vm_compute; reflexivity|].
  repeat split; vm_compute; reflexivity.
Qed.

(** ** Instances *)

Lemma set_then_verify_witness :
  exists st1 st2,
    send (command "SYSTem:COMMunicate:LAN:RPORT" (py_str (VInt 4002)) false)
      {| self := udp_client; world := w_udp_rx [reply "4002"] quiet |} = Ok tt st1 /\
    query "SYSTem:COMMunicate:LAN:RPORT?" st1 = Ok "4002"%string st2 /\
    set "SYSTem:COMMunicate:LAN:RPORT" (VInt 4002) false
      {| self := udp_client; world := w_udp_rx [reply "4002"] quiet |} = Ok tt st2.
Proof.
  pose (st0 := {| self := udp_client; world := w_udp_rx [reply "4002"] quiet |}).
  pose (cmd := command "SYSTem:COMMunicate:LAN:RPORT" (py_str (VInt 4002)) false).
  pose (st1 := match send cmd st0 with Ok _ s => s | _ => st0 end).
  pose (st2 := match query "SYSTem:COMMunicate:LAN:RPORT?" st1 with
               | Ok _ s => s | _ => st1 end).
  assert (H1 : send cmd st0 = Ok tt st1) by (vm_compute; reflexivity).
  assert (H2 : query "SYSTem:COMMunicate:LAN:RPORT?" st1 = Ok "4002"%string st2)
    by (vm_compute; reflexivity).
  exists st1, st2. split; [exact H1|]. split; [exact H2|].
  apply (set_then_verify _ _ _ _ _ _ _ H1 H2). reflexivity.
Defined.

Lemma invalid_parameter_rejected_before_io_witness :
  set_srate 12345 {| self := udp_client; world := quiet |} =
    Raise AssertionError {| self := udp_client; world := quiet |} /\
  set_channel 3 {| self := udp_client; world := quiet |} =
    Raise AssertionError {| self := udp_client; world := quiet |}.
Proof.
  apply (invalid_parameter_rejected_before_io _ 12345 3); simpl; lia.
Defined.

Lemma get_channel_one_or_two_witness :
  (exists st',
     query "INPut1:STATe?" {| self := udp_client; world := w_udp_rx [reply "1"] quiet |}
       = Ok "1"%string st' /\
     get_channel {| self := udp_client; world := w_udp_rx [reply "1"] quiet |} = Ok 1 st') /\
  (exists st',
     query "INPut1:STATe?" {| self := udp_client; world := w_udp_rx [reply "0"] quiet |}
       = Ok "0"%string st' /\
     get_channel {| self := udp_client; world := w_udp_rx [reply "0"] quiet |} = Ok 2 st') /\
  (exists st',
     query "INPut1:STATe?" {| self := udp_client; world := w_udp_rx [reply " 7"] quiet |}
       = Ok " 7"%string st' /\
     get_channel {| self := udp_client; world := w_udp_rx [reply " 7"] quiet |} = Ok 2 st').
Proof.
  split; [|split].
  - eexists.
    assert (H : query "INPut1:STATe?"
                  {| self := udp_client; world := w_udp_rx [reply "1"] quiet |}
                = Ok "1"%string _) by (vm_compute; reflexivity).
    split; [exact H|].
    apply (get_channel_one_or_two _ _ _ 1 H); reflexivity.
  - eexists.
    assert (H : query "INPut1:STATe?"
                  {| self := udp_client; world := w_udp_rx [reply "0"] quiet |}
                = Ok "0"%string _) by (vm_compute; reflexivity).
    split; [exact H|].
    apply (get_channel_one_or_two _ _ _ 0 H); [reflexivity|lia].
  - eexists.
    assert (H : query "INPut1:STATe?"
                  {| self := udp_client; world := w_udp_rx [reply " 7"] quiet |}
                = Ok " 7"%string _) by (vm_compute; reflexivity).
    split; [exact H|].
    apply (get_channel_one_or_two _ _ _ 7 H); [reflexivity|lia].
Defined.

Lemma get_config_replaces_dict_whole_witness :
  exists st',
    get_config
      {| self := udp_client;
         world := w_udp_rx [reply "1"; reply "0"; reply "1"; reply "100000";
                            reply "NeXOS A2"; reply "1.0"; reply "next"] quiet |} =
      Ok [ ("name"%string, VStr "NeXOS A2");
           ("version"%string, VStr "1.0");
           ("channel"%string, VInt 1);
           ("srate"%string, VInt 100000);
           ("gain"%string, VStr "1");
           ("equalizer"%string, VStr "0") ] st' /\
    udp_rx (world st') = [reply "next"].
Proof.
  destruct (get_config_replaces_dict_whole
              {| self := udp_client;
                 world := w_udp_rx [reply "1"; reply "0"; reply "1"; reply "100000";
                                    reply "NeXOS A2"; reply "1.0"; reply "next"] quiet |})
    as (_ & Hudp & _).
  apply (Hudp hydrophone "1"%string 1 "0"%string "1"%string "100000"%string 100000
           "NeXOS A2"%string "1.0"%string [reply "next"]).
  - split; [reflexivity|]. split; [eexists; reflexivity|reflexivity].
  - reflexivity.
  - reflexivity.
  - vm_compute; reflexivity.
  - reflexivity.
Defined.


Lemma init_guards_serial_only_witness :
  init_serial "/dev/ttyUSB0"
    {| self := upd_serial (Some "/dev/ttyUSB0"%string) init; world := quiet |} =
    Raise (ValueError "Serial already configured!")
      {| self := upd_serial (Some "/dev/ttyUSB0"%string) init; world := quiet |} /\
  (exists st',
      init_serial "/dev/ttyUSB0" {| self := udp_client; world := quiet |} = Ok tt st' /\
      serial (self st') = Some "/dev/ttyUSB0"%string /\
      socket (self st') = Some {| timeout := 2 |} /\
      interface (self st') = Some Udp) /\
  (exists st',
      init_udp "192.168.3.220" 7777
        {| self := upd_interface (Some Serial) (upd_serial (Some "/dev/ttyUSB0"%string) init);
           world := w_udp_rx [reply "NeXOS A2"] quiet |} = Ok tt st' /\
      socket (self st') = Some {| timeout := 2 |} /\
      nexos_address (self st') = Some ("192.168.3.220"%string, 7777) /\
      serial (self st') = Some "/dev/ttyUSB0"%string /\
      interface (self st') = Some Serial).
Proof.
  apply (init_guards_serial_only
           {| self := upd_serial (Some "/dev/ttyUSB0"%string) init; world := quiet |}
           {| self := udp_client; world := quiet |}
           {| self := upd_interface (Some Serial) (upd_serial (Some "/dev/ttyUSB0"%string) init);
              world := w_udp_rx [reply "NeXOS A2"] quiet |}
           "/dev/ttyUSB0" "192.168.3.220" 7777
           (reply "NeXOS A2") []).
  - discriminate.
  - reflexivity.
  - vm_compute; reflexivity.
  - vm_compute; reflexivity.
Defined.

Lemma open_stream_has_no_guard_witness :
  exists st',
    open_stream 4002 {| self := streaming_client; world := quiet |} = Ok tt st' /\
    stream_socket (self st') = Some {| bound_port := Some 4002; closed := false |} /\
    open_stream_port (self st') = true /\
    world st' = quiet.
Proof.
  apply (open_stream_has_no_guard {| self := streaming_client; world := quiet |} 4002);
    vm_compute; reflexivity.
Defined.

Lemma first_packet_never_reports_loss_witness :
  exists chunk st_r st',
    receivePacket
      {| self := streaming_client; world := w_stream_rx [packet xff xff] quiet |}
      = Ok chunk st_r /\
    newSeqNum (self st_r) = 65535 /\
    oldSeqNum (self st_r) = newSeqNum (self st_r) - 1 /\
    capture_packet
      {| self := streaming_client; world := w_stream_rx [packet xff xff] quiet |}
      = Ok tt st' /\
    seqGap (self st') = 1 /\
    console (world st') = [].
Proof.
  apply (first_packet_never_reports_loss
           {| self := streaming_client; world := w_stream_rx [packet xff xff] quiet |}
           (packet xff xff) []).
  - vm_compute; reflexivity.
  - reflexivity.
  - apply Nat.leb_le. vm_compute; reflexivity.
  - reflexivity.
Defined.


Lemma send_udp_ok st addr string :
  udp_ready (self st) addr ->
  send string st = Ok tt (after_send addr string st).
Proof.
  intros (Hi & [sk Hsk] & Ha). destruct st as [o w]. cbn [self world] in *.
  unfold send, send_udp, sendto, bind, get_self, py_assert, after_send.
  cbn [self world]. rewrite Hi. cbn. rewrite Hsk, Ha. reflexivity.
Qed.

(** The round trip against a device that echoes: the value just set is the
    value the next query returns. *)
Lemma set_then_query_roundtrip st addr param value enclose rest :
  udp_ready (self st) addr ->
  udp_rx (world st) = reply (py_str value) :: reply (py_str value) :: rest ->
  plain (py_str value) = true ->
  (String.length (reply (py_str value)) <= 1024)%nat ->
  exists st1 st2,
    set param value enclose st = Ok tt st1 /\
    query (param ++ "?") st1 = Ok (py_str value) st2.
Proof.
  intros Hready Hrx Hplain Hlen.
  pose proof (send_udp_ok st addr (command param (py_str value) enclose) Hready) as Hsend.
  set (st_s := after_send addr (command param (py_str value) enclose) st) in *.
  assert (Hq : query (param ++ "?") st_s =
               Ok (py_str value)
                  (after_query addr (param ++ "?") (reply (py_str value) :: rest) st_s)).
  { apply query_udp_reply; auto. }
  eexists. eexists. split.
  - rewrite (set_outcome param value enclose st st_s _ _ Hsend Hq).
    now rewrite String.eqb_refl.
  - apply (query_udp_reply _ addr (param ++ "?") (py_str value) rest); auto.
Qed.

(** The same device echoing another text: [set] raises. *)
Lemma set_mismatch_raises st addr param value enclose r rest :
  udp_ready (self st) addr ->
  udp_rx (world st) = reply r :: rest ->
  plain r = true ->
  (String.length (reply r) <= 1024)%nat ->
  r <> py_str value ->
  exists st',
    set param value enclose st =
      Raise (ValueError ("could not set param " ++ param ++ "!!")) st'.
Proof.
  intros Hready Hrx Hplain Hlen Hne.
  pose proof (send_udp_ok st addr (command param (py_str value) enclose) Hready) as Hsend.
  set (st_s := after_send addr (command param (py_str value) enclose) st) in *.
  assert (Hq : query (param ++ "?") st_s =
               Ok r (after_query addr (param ++ "?") rest st_s)).
  { apply query_udp_reply; auto. }
  eexists. rewrite (set_outcome param value enclose st st_s _ _ Hsend Hq).
  apply String.eqb_neq in Hne. now rewrite Hne.
Qed.

Ltac sends addr Hready :=
  match goal with
  | |- context [send ?c ?s] => rewrite (send_udp_ok s addr c Hready)
  end.

Ltac asks Hq Hready Ha :=
  match goal with
  | |- context [query ?c ?s] => rewrite (Hq s c _ _ Hready eq_refl Ha)
  end.

(** With such a device on the UDP side, [start_streaming] returns. *)
Lemma start_streaming_returns st addr chs n eq gain srs r name version rest :
  udp_ready (self st) addr ->
  PyStr.int_of_str chs = Some n ->
  PyStr.int_of_str srs = Some r ->
  forallb answerable
    (start_answers (streaming_port (self st)) chs n eq gain srs name version) = true ->
  udp_rx (world st) =
    map reply (start_answers (streaming_port (self st)) chs n eq gain srs name version)
    ++ rest ->
  exists st', start_streaming st = Ok tt st' /\ udp_rx (world st') = rest.
Proof.
  intros Hready Hch Hsr Hans Hrx.
  destruct st as [o w].
  destruct w as [sd srx urx strx piu txs clk tks unw fls cns ths].
  cbn [self world udp_rx] in *. subst urx.
  unfold start_answers in *.
  assert (Hq : forall st command r rest',
             udp_ready (self st) addr ->
             udp_rx (world st) = reply r :: rest' ->
             answerable r = true ->
             query command st = Ok r (after_query addr command rest' st)).
  { intros st command r0 rest' H1 H2 H3.
    apply andb_prop in H3 as [Hp Hl]. apply Nat.leb_le in Hl.
    now apply query_udp_reply. }
  unfold start_streaming, set_recv_port, set, get_config, get_channel, get_srate,
    get_equalizer, get_gain, py_int, bind.
  cbn [get_self self py_str].
  cbn [forallb app map] in Hans.
  apply andb_prop in Hans as [Ha1 Hans]. apply andb_prop in Hans as [Ha2 Hans].
  sends addr Hready.
  asks Hq Hready Ha1.
  rewrite String.eqb_refl. cbn [ret].
  asks Hq Hready Ha2.
  rewrite Hch. cbn -[query send String.eqb PyStr.int_of_str reply Z.eqb].
  destruct (n =? 1) eqn:Hn; cbn [forallb app map] in Hans;
    repeat match type of Hans with
           | _ && _ = true => let Ha := fresh "Ha" in apply andb_prop in Hans as [Ha Hans]
           end;
    cbn -[query send String.eqb PyStr.int_of_str reply];
    repeat first
      [ match goal with
        | Ha : answerable ?r = true |- context [query ?c ?s] =>
            rewrite (Hq s c r _ Hready eq_refl Ha);
            cbn -[query send String.eqb PyStr.int_of_str reply]
        end
      | rewrite Hsr; cbn -[query send String.eqb PyStr.int_of_str reply]
      | sends addr Hready; cbn -[query send String.eqb PyStr.int_of_str reply]
      | rewrite String.eqb_refl; cbn -[query send String.eqb PyStr.int_of_str reply] ];
    eexists; split; reflexivity.
Qed.

(** ** The model on small inputs *)

Example int_of_str_spaces : PyStr.int_of_str " 42 " = Some 42.
Proof. reflexivity. Qed.

Example int_of_str_sign : PyStr.int_of_str "-7" = Some (-7).
Proof. reflexivity. Qed.

Example int_of_str_grouped : PyStr.int_of_str "100_000" = Some 100000.
Proof. reflexivity. Qed.

Example int_of_str_white_space :
  PyStr.int_of_str (String "009"%char (String "011"%char (String "012"%char
    ("1" ++ String "013"%char (String "010"%char " ")))))%string = Some 1.
Proof. reflexivity. Qed.

(** The separators 28 to 31 are not white space to [int]. *)
Example int_of_str_rejects_separators :
  PyStr.int_of_str (String "028"%char ("1" ++ String "031"%char EmptyString))%string = None /\
  PyStr.int_of_str (String "029"%char "1")%string = None /\
  PyStr.int_of_str ("1" ++ String "030"%char EmptyString)%string = None.
Proof. repeat split; reflexivity. Qed.

Example is_space_table :
  filter (fun n => PyStr.is_space (ascii_of_nat n)) (seq 0 128) = [9; 10; 11; 12; 13; 32]%nat.
Proof. vm_compute. reflexivity. Qed.

Example int_of_str_rejects_float : PyStr.int_of_str "1.0" = None.
Proof. reflexivity. Qed.

Example int_of_str_rejects_empty : PyStr.int_of_str EmptyString = None.
Proof. reflexivity. Qed.

Example str_of_int_port : PyStr.str_of_int 4002 = "4002"%string.
Proof. reflexivity. Qed.

Example str_of_int_negative : PyStr.str_of_int (-1) = "-1"%string.
Proof. reflexivity. Qed.

Example command_plain :
  command "CONFigure:ACQuire:SRATe" (py_str (VInt 100000)) false
  = "CONFigure:ACQuire:SRATe 100000"%string.
Proof. reflexivity. Qed.

(** A reply that comes in two datagrams is put together before the
    terminator is looked for. *)
Example recv_udp_two_datagrams :
  recv_udp_loop ["NeXOS"%string; reply " A2"] EmptyString
  = Some (reply "NeXOS A2", []).
Proof. reflexivity. Qed.

(** The serial loop stops at the terminator and leaves the rest on the
    line; with no terminator and nothing more to read it never ends. *)
Example recv_serial_stops_at_terminator :
  recv_serial_loop (reply "1" ++ "next")%string EmptyString 256
  = Some (reply "1", "next"%string).
Proof. reflexivity. Qed.

Example recv_serial_spins : recv_serial_loop "1"%string EmptyString 256 = None.
Proof. reflexivity. Qed.

(** With no handle and nothing to read for, [recv_serial] returns the
    empty string; with something to read for it fails on the handle. *)
Example recv_serial_without_handle :
  recv_serial 0 {| self := init; world := quiet |} =
    Ok EmptyString {| self := init; world := quiet |} /\
  recv_serial 256 {| self := init; world := quiet |} =
    Raise AttributeError {| self := init; world := quiet |}.
Proof. split; reflexivity. Qed.

(** The packet count goes through a double: exact below [2^53], rounded
    to the nearest double above, an error beyond the doubles. *)
Example int_true_div_values :
  PyNum.int_true_div (10 * 100000) 512 = inr 1953 /\
  PyNum.int_true_div (-7) 2 = inr (-3) /\
  PyNum.int_true_div 1 3 = inr 0 /\
  PyNum.int_true_div (2 ^ 53 + 1) 1 = inr (2 ^ 53) /\
  PyNum.int_true_div (2 ^ 53 + 3) 1 = inr (2 ^ 53 + 4) /\
  PyNum.int_true_div (3 * 10 ^ 19 + 7) 7 = inr 4285714285714285568 /\
  PyNum.int_true_div (10 ^ 400) 512 = inl OverflowError /\
  PyNum.int_true_div 5 0 = inl ZeroDivisionError.
Proof. repeat split; vm_compute; reflexivity. Qed.

(** Beyond [2^53] the count is the nearest double cut down, which can be
    one more than the quotient cut down. *)
Example packet_count_beyond_exact :
  PyNum.int_true_div (2 ^ 53 + 511) 512 = inr (2 ^ 44 + 1) /\
  (2 ^ 53 + 511) / 512 = 2 ^ 44.
Proof. split; vm_compute; reflexivity. Qed.

(** A file opened under the name of an older one takes its place. *)
Example wave_open_replaces :
  exists st',
    (wave_open "a.wav" ;; setnchannels 1 ;; setsampwidth 2 ;; setframerate 100000 ;;
     writeframesraw [x01; x02] ;; wave_close ;;
     wave_open "b.wav" ;; wave_open "a.wav")%py {| self := init; world := quiet |} = Ok tt st' /\
    map fst (files (world st')) = ["b.wav"%string; "a.wav"%string] /\
    map (fun nf => frames (snd nf)) (files (world st')) = [[]; []].
Proof. eexists. split; [vm_compute; reflexivity|]. split; vm_compute; reflexivity. Qed.

Example wave_open_refused :
  wave_open "no/such/dir/a.wav"
    {| self := init; world :=
         {| serial_devices := []; serial_rx := EmptyString; udp_rx := []; stream_rx := [];
            ports_in_use := []; tx := []; clock := clock quiet; ticks := 0;
            unwritable := [("no/such/dir/a.wav"%string, OSError)];
            files := []; console := []; threads := [] |} |} =
  Raise OSError
    {| self := init; world :=
         {| serial_devices := []; serial_rx := EmptyString; udp_rx := []; stream_rx := [];
            ports_in_use := []; tx := []; clock := clock quiet; ticks := 0;
            unwritable := [("no/such/dir/a.wav"%string, OSError)];
            files := []; console := []; threads := [] |} |}.
Proof. reflexivity. Qed.

(** The setters of [wave]: values out of range, and any value once data
    was written. *)
Example wave_setters_refuse :
  (exists st, (wave_open "a.wav" ;; setnchannels 0)%py {| self := init; world := quiet |}
              = Raise WaveError st) /\
  (exists st, (wave_open "a.wav" ;; setsampwidth 5)%py {| self := init; world := quiet |}
              = Raise WaveError st) /\
  (exists st, (wave_open "a.wav" ;; setframerate 0)%py {| self := init; world := quiet |}
              = Raise WaveError st) /\
  (exists st, (wave_open "a.wav" ;; setnchannels 1 ;; setsampwidth 2 ;; setframerate 8000 ;;
               writeframesraw [x01; x02] ;; setframerate 16000)%py
                {| self := init; world := quiet |} = Raise WaveError st).
Proof. repeat split; eexists; vm_compute; reflexivity. Qed.

(** [close]: a second call does nothing; on a writer without its
    parameters it raises and releases the file all the same; the header
    of a file closed in order carries the bytes written. *)
Example wave_close_cases :
  (exists st,
     (wave_open "a.wav" ;; setnchannels 1 ;; setsampwidth 2 ;; setframerate 8000 ;;
      writeframesraw [x01; x02] ;; writeframesraw [x03; x04; x05] ;; wave_close)%py
       {| self := init; world := quiet |} = Ok tt st /\
     wave_close st = Ok tt st /\
     map (fun nf => header_on_disk (snd nf)) (files (world st)) = [Some 5]) /\
  (exists st,
     (wave_open "a.wav" ;; wave_close)%py {| self := init; world := quiet |}
       = Raise WaveError st /\
     map (fun nf => (finalized (snd nf), header_on_disk (snd nf))) (files (world st))
       = [(true, None)]) /\
  (exists st,
     (wave_open "a.wav" ;; setnchannels 1 ;; setsampwidth 2 ;; setframerate 8000 ;;
      writeframesraw [x01; x02; x03])%py {| self := init; world := quiet |} = Ok tt st /\
     map (fun nf => (finalized (snd nf), header_on_disk (snd nf))) (files (world st))
       = [(false, Some 2)]).
Proof.
  split; [|split]; eexists; (split; [vm_compute; reflexivity|]);
    try split; vm_compute; reflexivity.
Qed.

Example bytes_to_int_big_endian : bytes_to_int [x01; x02] = 258.
Proof. reflexivity. Qed.

(** The spec's three pairs, as the loop sees them: 10 then 11, 10 then 13,
    65535 then 2. *)
Example gap_pairs :
  map (fun p => seqGap (header_update (packet (fst (snd p)) (snd (snd p)))
                          (upd_newSeqNum (fst p) streaming_client)))
      [(10, (x00, x0b)); (10, (x00, x0d)); (65535, (x00, x02))]
  = [1; 3; -65533].
Proof. reflexivity. Qed.

(** ** Sequence numbers are 16-bit *)

Lemma bytes_to_int_bound (bytes : list byte) (acc : Z) :
  0 <= acc ->
  0 <= fold_left (fun result b => result * 256 + Z.of_N (Byte.to_N b)) bytes acc
    < (acc + 1) * 256 ^ Z.of_nat (length bytes).
Proof.
  revert acc. induction bytes as [|b bytes IH]; intros acc Hacc.
  - simpl. lia.
  - cbn [fold_left length].
    assert (Hb : 0 <= Z.of_N (Byte.to_N b) < 256).
    { pose proof (Byte.to_N_bounded b). lia. }
    specialize (IH (acc * 256 + Z.of_N (Byte.to_N b)) ltac:(lia)).
    rewrite Nat2Z.inj_succ, Z.pow_succ_r by lia.
    split; [lia|].
    eapply Z.lt_le_trans; [apply IH|].
    assert (0 < 256 ^ Z.of_nat (length bytes)) by (apply Z.pow_pos_nonneg; lia).
    nia.
Qed.

Lemma seq_of_range (raw : list byte) : 0 <= seq_of raw < 65536.
Proof.
  unfold seq_of, int_from_bytes_big, bytes_to_int.
  pose proof (bytes_to_int_bound (slice 2 4 raw) 0 ltac:(lia)) as H.
  assert (Hlen : (length (slice 2 4 raw) <= 2)%nat).
  { unfold slice. rewrite length_firstn. apply (Nat.le_min_l 2). }
  assert (Hpow : 256 ^ Z.of_nat (length (slice 2 4 raw)) <= 256 ^ 2).
  { apply Z.pow_le_mono_r; lia. }
  change (256 ^ 2) with 65536 in Hpow. lia.
Qed.

(** Whenever the sequence number does not go up, which is what happens at
    every wrap, the loop prints nothing, however many packets were lost in
    between. *)
Lemma no_report_across_wrap st d rx :
  live_stream (self st) = true ->
  stream_rx (world st) = d :: rx ->
  (2 <= length (received (self st) d))%nat ->
  0 <= newSeqNum (self st) ->
  seq_of (received (self st) d) <= newSeqNum (self st) ->
  exists st',
    capture_packet st = Ok tt st' /\
    console (world st') = console (world st).
Proof.
  intros Hlive Hrx Hlen Hprev Hle.
  pose proof (capture_packet_ok st d rx Hlive Hrx Hlen) as Hc.
  cbv zeta in Hc. eexists. split; [exact Hc|]. cbn [self world console w_console].
  unfold loss_report, seqGap, header_update.
  assert (Hne : (newSeqNum (self st) =? -1) = false) by (apply Z.eqb_neq; lia).
  rewrite Hne. cbn [newSeqNum oldSeqNum upd_newSeqNum upd_oldSeqNum].
  set (raw := received (self st) d) in *.
  destruct (seq_of raw - newSeqNum (self st) >? 1) eqn:Hg.
  - apply Z.gtb_lt in Hg. lia.
  - now rewrite app_nil_r.
Qed.

(** * Further properties *)

(** ** Receiving a reply *)

Lemma append_nil_r (s : string) : (s ++ EmptyString)%string = s.
Proof. induction s as [|c s IH]; simpl; [reflexivity|now rewrite IH]. Qed.

Lemma append_assoc (s t u : string) :
  ((s ++ t) ++ u)%string = (s ++ (t ++ u))%string.
Proof. induction s as [|c s IH]; simpl; [reflexivity|now rewrite IH]. Qed.

Lemma length_append (s t : string) :
  String.length (s ++ t) = (String.length s + String.length t)%nat.
Proof. induction s as [|c s IH]; simpl; [reflexivity|now rewrite IH]. Qed.

Lemma joined_app ds es : joined (ds ++ es) = (joined ds ++ joined es)%string.
Proof.
  induction ds as [|d ds IH]; simpl; [reflexivity|].
  now rewrite IH, append_assoc.
Qed.

(** The loop of [recv_udp], started with [buffer]: what it returns is what
    it had plus the datagrams it took, it took at least one, it stopped at
    the first datagram after which the buffer ended with the terminator,
    and it left the others in place. *)
Lemma recv_udp_loop_some rx :
  forall buffer buffer' rx',
    recv_udp_loop rx buffer = Some (buffer', rx') ->
    exists used,
      used <> [] /\
      rx = used ++ rx' /\
      buffer' = (buffer ++ joined used)%string /\
      PyStr.ends_crlf buffer' = true /\
      (forall k, (0 < k < length used)%nat ->
                 PyStr.ends_crlf (buffer ++ joined (firstn k used)) = false).
Proof.
  induction rx as [|d rx IH]; intros buffer buffer' rx' H; [discriminate|].
  cbn [recv_udp_loop] in H.
  destruct (PyStr.ends_crlf (buffer ++ PyStr.prefix 1024 d)) eqn:He.
  - inversion H; subst. exists [d]. cbn [joined fold_right].
    rewrite append_nil_r. repeat split; auto; [discriminate|].
    intros k Hk. simpl in Hk. lia.
  - destruct (IH _ _ _ H) as (used & Hne & Hrx & Hb & Hend & Hmin).
    exists (d :: used). split; [discriminate|]. split; [now rewrite Hrx|].
    split; [cbn [joined fold_right]; now rewrite Hb, append_assoc|].
    split; [exact Hend|].
    intros [|k] Hk; [lia|]. cbn [firstn joined fold_right]. cbn [length] in Hk.
    destruct k as [|k].
    + cbn [firstn joined fold_right]. now rewrite append_nil_r.
    + rewrite <- append_assoc. apply Hmin. lia.
Qed.

(** The loop runs out of datagrams exactly when the buffer ends with the
    terminator after none of them. *)
Lemma recv_udp_loop_none rx :
  forall buffer,
    recv_udp_loop rx buffer = None <->
    (forall k, (0 < k <= length rx)%nat ->
               PyStr.ends_crlf (buffer ++ joined (firstn k rx)) = false).
Proof.
  induction rx as [|d rx IH]; intros buffer.
  - split; [|reflexivity]. intros _ k Hk. simpl in Hk. lia.
  - cbn [recv_udp_loop]. split.
    + intros H [|k] Hk; [lia|].
      destruct (PyStr.ends_crlf (buffer ++ PyStr.prefix 1024 d)) eqn:He; [discriminate|].
      cbn [firstn joined fold_right]. destruct k as [|k].
      * cbn [firstn joined fold_right]. now rewrite append_nil_r.
      * rewrite <- append_assoc. apply (proj1 (IH _) H). cbn [length] in Hk. lia.
    + intros H.
      assert (He : PyStr.ends_crlf (buffer ++ PyStr.prefix 1024 d) = false).
      { specialize (H 1%nat ltac:(cbn [length]; lia)).
        cbn [firstn joined fold_right] in H. now rewrite append_nil_r in H. }
      rewrite He. apply IH. intros k Hk.
      specialize (H (S k) ltac:(cbn [length]; lia)).
      cbn [firstn joined fold_right] in H. now rewrite <- append_assoc in H.
Qed.

(** X1.  [recv_udp] on a client that has its socket: it returns the text of the
    datagrams up to and including the first one that completes a
    terminator at the end of the buffer, with every terminator taken out,
    and leaves the later datagrams waiting; when no datagram completes a
    terminator it uses them all up and raises the time-out; it never blocks
    for ever. *)
Theorem recv_udp_reassembles (st : State) (sk : CmdSocket) :
  socket (self st) = Some sk ->
  match recv_udp st with
  | Ok r st' =>
      exists used,
        used <> [] /\
        udp_rx (world st) = used ++ udp_rx (world st') /\
        r = PyStr.remove_crlf (joined used) /\
        PyStr.ends_crlf (joined used) = true /\
        (forall k, (0 < k < length used)%nat ->
                   PyStr.ends_crlf (joined (firstn k used)) = false) /\
        self st' = self st /\ tx (world st') = tx (world st)
  | Raise e st' =>
      e = SocketTimeout /\
      udp_rx (world st') = [] /\
      self st' = self st /\
      (forall k, (0 < k <= length (udp_rx (world st)))%nat ->
                 PyStr.ends_crlf (joined (firstn k (udp_rx (world st)))) = false)
  | Hang => False
  end.
Proof.
  intros Hsk. unfold recv_udp. rewrite Hsk.
  destruct (recv_udp_loop (udp_rx (world st)) EmptyString) as [[buffer rx']|] eqn:Hl.
  - destruct (recv_udp_loop_some _ _ _ _ Hl) as (used & Hne & Hrx & Hb & Hend & Hmin).
    cbn [String.append] in Hb. subst buffer.
    exists used. cbn. repeat split; auto.
  - cbn. repeat split; auto.
    exact (proj1 (recv_udp_loop_none _ _) Hl).
Qed.

Lemma ends_crlf_snoc_length (s : string) :
  PyStr.ends_crlf s = true -> (2 <= String.length s)%nat.
Proof.
  induction s as [|c s IH]; [discriminate|].
  cbn [PyStr.ends_crlf]. destruct s as [|d [|e s]].
  - discriminate.
  - intros _. simpl. lia.
  - intros H. specialize (IH H). simpl in *. lia.
Qed.

Lemma ends_crlf_contains (s t : string) :
  PyStr.ends_crlf s = true -> contains_crlf (s ++ t) = true.
Proof.
  induction s as [|c s IH]; [discriminate|].
  cbn [PyStr.ends_crlf]. destruct s as [|d [|e s]].
  - discriminate.
  - intros H. cbn. rewrite H. reflexivity.
  - intros H. specialize (IH H).
    change ((String c (String d (String e s)) ++ t)%string)
      with (String c (String d (String e s) ++ t)%string).
    cbn [contains_crlf]. cbn [String.append] in *. rewrite IH.
    apply orb_true_r.
Qed.

(** The loop of [recv_serial], started with [response]: the characters it
    read are the next ones on the line, in order; it read none when the
    response was already [n] long, and otherwise stopped right after the
    first character that completed a terminator, or when the response
    reached [n] characters. *)
Lemma recv_serial_loop_some rx :
  forall response n response' rx',
    recv_serial_loop rx response n = Some (response', rx') ->
    exists used,
      rx = (used ++ rx')%string /\
      response' = (response ++ used)%string /\
      (PyStr.len response' <= Z.max n (PyStr.len response)) /\
      (PyStr.ends_crlf response' = true /\ used <> EmptyString \/
       n <= PyStr.len response').
Proof.
  unfold PyStr.len.
  induction rx as [|c rx IH]; intros response n response' rx' H.
  - cbn [recv_serial_loop] in H. unfold PyStr.len in H.
    destruct (Z.ltb_spec (Z.of_nat (String.length response)) n); [discriminate|].
    inversion H; subst. exists EmptyString. rewrite !append_nil_r.
    split; [reflexivity|]. split; [reflexivity|]. split; [lia|right; lia].
  - cbn [recv_serial_loop] in H. unfold PyStr.len in H.
    destruct (Z.ltb_spec (Z.of_nat (String.length response)) n) as [Hlt|Hge].
    + destruct (PyStr.ends_crlf (response ++ String c EmptyString)) eqn:He.
      * inversion H; subst. exists (String c EmptyString).
        split; [reflexivity|]. split; [reflexivity|].
        rewrite length_append. cbn [String.length].
        split; [lia|]. left. split; [exact He|discriminate].
      * destruct (IH _ _ _ _ H) as (used & Hrx & Hr & Hlen & Hstop).
        exists (String c used). split; [cbn; now rewrite Hrx|].
        split.
        { rewrite Hr, append_assoc. reflexivity. }
        rewrite length_append in Hlen. cbn [String.length] in Hlen.
        split; [lia|].
        destruct Hstop as [[H1 _]|H2]; [left; split; [exact H1|discriminate]|right; exact H2].
    + inversion H; subst. exists EmptyString. rewrite !append_nil_r.
      split; [reflexivity|]. split; [reflexivity|]. split; [lia|right; lia].
Qed.

(** A line with no terminator in what comes, too short to fill the
    response: the loop never ends. *)
Lemma recv_serial_loop_spins rx :
  forall response n,
    contains_crlf (response ++ rx) = false ->
    PyStr.len response + PyStr.len rx < n ->
    recv_serial_loop rx response n = None.
Proof.
  unfold PyStr.len.
  induction rx as [|c rx IH]; intros response n Hno Hlen.
  - cbn [recv_serial_loop]. unfold PyStr.len.
    destruct (Z.ltb_spec (Z.of_nat (String.length response)) n); [reflexivity|].
    cbn [String.length] in Hlen. lia.
  - cbn [recv_serial_loop]. unfold PyStr.len. cbn [String.length] in Hlen.
    destruct (Z.ltb_spec (Z.of_nat (String.length response)) n); [|lia].
    assert (Heq : (response ++ String c rx)%string =
                  ((response ++ String c EmptyString) ++ rx)%string).
    { now rewrite append_assoc. }
    destruct (PyStr.ends_crlf (response ++ String c EmptyString)) eqn:He.
    + rewrite Heq, (ends_crlf_contains _ rx He) in Hno. discriminate.
    + apply IH; [now rewrite <- Heq|].
      rewrite length_append. cbn [String.length]. lia.
Qed.

Lemma remove_crlf_first (text : string) :
  contains_crlf (text ++ String PyStr.CR EmptyString) = false ->
  PyStr.remove_crlf (text ++ PyStr.CRLF) = text.
Proof.
  induction text as [|c text IH]; intros H; [reflexivity|].
  change ((String c text ++ PyStr.CRLF)%string) with (String c (text ++ PyStr.CRLF)%string).
  change ((String c text ++ String PyStr.CR EmptyString)%string)
    with (String c (text ++ String PyStr.CR EmptyString)%string) in H.
  cbn [contains_crlf] in H. cbn [PyStr.remove_crlf].
  destruct text as [|d text].
  - cbn [String.append] in *. unfold PyStr.CRLF.
    apply orb_false_iff in H as [H _]. 
    change (Ascii.eqb PyStr.CR PyStr.LF) with false in H.
    change (Ascii.eqb PyStr.CR PyStr.LF) with false.
    rewrite andb_false_r. reflexivity.
  - cbn [String.append] in *. apply orb_false_iff in H as [H1 H2].
    rewrite H1. f_equal. apply IH. exact H2.
Qed.

Lemma contains_crlf_app_l (s t : string) :
  contains_crlf (s ++ t) = false -> contains_crlf s = false.
Proof.
  induction s as [|c s IH]; intros H; [reflexivity|].
  change ((String c s ++ t)%string) with (String c (s ++ t)%string) in H.
  cbn [contains_crlf] in *. destruct s as [|d s]; [reflexivity|].
  cbn [String.append] in *. apply orb_false_iff in H as [H1 H2].
  rewrite H1. cbn [orb]. apply IH. exact H2.
Qed.

(** The loop on a line that carries [text], the terminator and then
    [rest], the terminator not occurring earlier. *)
Lemma recv_serial_loop_first text :
  forall response rest n,
    contains_crlf (response ++ text ++ String PyStr.CR EmptyString) = false ->
    PyStr.len response + PyStr.len text + 2 <= n ->
    recv_serial_loop (text ++ PyStr.CRLF ++ rest) response n
    = Some ((response ++ text ++ PyStr.CRLF)%string, rest).
Proof.
  unfold PyStr.len.
  induction text as [|c text IH]; intros response rest n Hno Hlen.
  - cbn [String.append String.length] in *.
    unfold PyStr.CRLF. cbn [String.append recv_serial_loop]. unfold PyStr.len.
    destruct (Z.ltb_spec (Z.of_nat (String.length response)) n); [|lia].
    destruct (PyStr.ends_crlf (response ++ String PyStr.CR EmptyString)) eqn:He.
    { pose proof (ends_crlf_contains _ EmptyString He) as Hc.
      rewrite append_nil_r in Hc. congruence. }
    rewrite length_append. cbn [String.length].
    destruct (Z.ltb_spec (Z.of_nat (String.length response + 1)) n); [|lia].
    rewrite append_assoc. cbn [String.append].
    pose proof (ends_crlf_reply response) as Hr. unfold reply, PyStr.CRLF in Hr.
    now rewrite Hr.
  - change ((String c text ++ PyStr.CRLF ++ rest)%string)
      with (String c (text ++ PyStr.CRLF ++ rest)%string).
    cbn [recv_serial_loop]. unfold PyStr.len. cbn [String.length] in Hlen.
    destruct (Z.ltb_spec (Z.of_nat (String.length response)) n); [|lia].
    assert (Heq : (response ++ String c text ++ String PyStr.CR EmptyString)%string =
                  ((response ++ String c EmptyString) ++
                   text ++ String PyStr.CR EmptyString)%string).
    { now rewrite append_assoc. }
    destruct (PyStr.ends_crlf (response ++ String c EmptyString)) eqn:He.
    { rewrite Heq, (ends_crlf_contains _ _ He) in Hno. discriminate. }
    rewrite IH.
    + rewrite append_assoc. reflexivity.
    + now rewrite <- Heq.
    + rewrite length_append. cbn [String.length]. lia.
Qed.

(** The loop on a line whose first [n] characters hold no terminator. *)
Lemma recv_serial_loop_full chunk :
  forall response rest n,
    contains_crlf (response ++ chunk) = false ->
    PyStr.len response + PyStr.len chunk = n ->
    recv_serial_loop (chunk ++ rest) response n
    = Some ((response ++ chunk)%string, rest).
Proof.
  unfold PyStr.len.
  induction chunk as [|c chunk IH]; intros response rest n Hno Hlen.
  - cbn [String.append String.length] in *. rewrite append_nil_r.
    destruct rest; cbn [recv_serial_loop]; unfold PyStr.len;
      destruct (Z.ltb_spec (Z.of_nat (String.length response)) n); try lia; reflexivity.
  - change ((String c chunk ++ rest)%string) with (String c (chunk ++ rest)%string).
    cbn [recv_serial_loop]. unfold PyStr.len. cbn [String.length] in Hlen.
    destruct (Z.ltb_spec (Z.of_nat (String.length response)) n); [|lia].
    assert (Heq : (response ++ String c chunk)%string =
                  ((response ++ String c EmptyString) ++ chunk)%string).
    { now rewrite append_assoc. }
    destruct (PyStr.ends_crlf (response ++ String c EmptyString)) eqn:He.
    { rewrite Heq, (ends_crlf_contains _ _ He) in Hno. discriminate. }
    rewrite IH.
    + rewrite append_assoc. reflexivity.
    + now rewrite <- Heq.
    + rewrite length_append. cbn [String.length]. lia.
Qed.

Lemma remove_crlf_none (s : string) :
  contains_crlf s = false -> PyStr.remove_crlf s = s.
Proof.
  induction s as [|c s IH]; intros H; [reflexivity|].
  cbn [contains_crlf PyStr.remove_crlf] in *. destruct s as [|d s]; [reflexivity|].
  apply orb_false_iff in H as [H1 H2]. rewrite H1. f_equal. apply IH. exact H2.
Qed.

(** X2.  [recv_serial] reads one reply: with [text], the terminator and [rest]
    on the line (no terminator before that one, and room for the reply in
    [n] characters), it returns [text] and leaves [rest] on the line. *)
Theorem recv_serial_returns_first_reply (st : State) (n : Z) (port text rest : string) :
  serial (self st) = Some port ->
  serial_rx (world st) = (text ++ PyStr.CRLF ++ rest)%string ->
  contains_crlf (text ++ String PyStr.CR EmptyString) = false ->
  PyStr.len text + 2 <= n ->
  recv_serial n st = Ok text (on_world (w_serial_rx rest) st).
Proof.
  intros Hs Hrx Hno Hlen. unfold recv_serial. rewrite Hs, Hrx.
  rewrite (recv_serial_loop_first text EmptyString rest n); [| exact Hno | cbn; lia].
  cbn [String.append]. now rewrite (remove_crlf_first text Hno).
Qed.

(** X3.  [recv_serial] gives up after [n] characters: when the first [n]
    characters on the line hold no terminator it returns them as the reply
    and leaves the rest of that reply on the line, where the next read
    finds it.  When the line holds fewer than [n] characters and no
    terminator, it never returns. *)
Theorem recv_serial_without_terminator (st : State) (n : Z) (port chunk rest : string) :
  serial (self st) = Some port ->
  serial_rx (world st) = (chunk ++ rest)%string ->
  contains_crlf chunk = false ->
  (PyStr.len chunk = n ->
   recv_serial n st = Ok chunk (on_world (w_serial_rx rest) st)) /\
  (PyStr.len chunk < n -> rest = EmptyString -> recv_serial n st = Hang).
Proof.
  intros Hs Hrx Hno. unfold recv_serial. rewrite Hs, Hrx. split.
  - intros Hlen.
    rewrite (recv_serial_loop_full chunk EmptyString rest n); [| exact Hno | cbn; lia].
    cbn [String.append]. now rewrite (remove_crlf_none chunk Hno).
  - intros Hlen ->. rewrite append_nil_r.
    rewrite (recv_serial_loop_spins chunk EmptyString n); [reflexivity|exact Hno|].
    cbn. lia.
Qed.

(** ** Commands without a usable transport *)

(** X4.  On a client with no interface selected (a fresh object, or one whose
    [init_udp] failed), every command stops on the assertion of [send]
    before anything is written: [query], [set], the getters and setters,
    the refresh and the streaming switches. *)
Theorem no_interface_no_io (st : State) (command param : string)
    (value : PyVal) (enclose : bool) (b : bool) (ip_addr : string) :
  interface (self st) = None ->
  refuses (query command) AssertionError st /\
  refuses (set param value enclose) AssertionError st /\
  refuses get_config AssertionError st /\
  refuses get_srate AssertionError st /\
  refuses get_channel AssertionError st /\
  refuses get_ip AssertionError st /\
  refuses get_streaming AssertionError st /\
  refuses (set_gain b) AssertionError st /\
  refuses (set_equalizer b) AssertionError st /\
  refuses (set_recv_ip ip_addr) AssertionError st /\
  refuses start_streaming AssertionError st /\
  refuses stop_streaming AssertionError st.
Proof.
  intros Hi.
  assert (Hsend : forall s, send s st = Raise AssertionError st).
  { intros s. unfold send, bind, get_self, py_assert. now rewrite Hi. }
  assert (Hq : forall c, query c st = Raise AssertionError st).
  { intros c. unfold query, bind. now rewrite Hsend. }
  assert (Hset : forall p v e, set p v e st = Raise AssertionError st).
  { intros p v e. unfold set, bind. now rewrite Hsend. }
  unfold refuses, get_config, get_srate, get_channel, get_ip, get_streaming,
    set_gain, set_equalizer, set_recv_ip, start_streaming, stop_streaming,
    set_recv_port.
  repeat split; auto; try (unfold bind; now rewrite ?Hq, ?Hset).
  - destruct b; apply Hset.
  - unfold bind, get_self. now rewrite Hset.
Qed.

(** X5.  [set_interface] takes the two names only; any other name stops on the
    assertion and the interface stays what it was.  Selecting a medium
    that was never initialised is accepted, and the next [send] fails on
    the missing handle with nothing written. *)
Theorem set_interface_selects (st : State) (name string : string) :
  (iface_of_name name = None -> set_interface name st = Raise AssertionError st) /\
  (forall i, iface_of_name name = Some i ->
     set_interface name st = Ok tt (on_self (upd_interface (Some i)) st) /\
     ((i = Udp /\ socket (self st) = None) \/ (i = Serial /\ serial (self st) = None) ->
      bind (set_interface name) (fun _ => send string) st =
        Raise AttributeError (on_self (upd_interface (Some i)) st))).
Proof.
  split.
  - intros H. unfold set_interface, bind, py_assert. now rewrite H.
  - intros i H.
    assert (Hs : set_interface name st = Ok tt (on_self (upd_interface (Some i)) st)).
    { unfold set_interface, bind, py_assert, modify_self. now rewrite H. }
    split; [exact Hs|].
    intros Hmiss. unfold bind at 1. rewrite Hs.
    destruct st as [o w]. cbn [self world] in *.
    unfold send, send_udp, sendto, send_serial, bind, get_self, py_assert. cbn.
    destruct Hmiss as [[-> Hn]|[-> Hn]]; cbn; rewrite Hn; reflexivity.
Qed.

(** ** What [query] and [set] do to the client *)

(** X6.  [query] writes the command and the terminator, once, on the selected
    medium and never touches the object: when it returns, that frame is
    the only new transmission; when it raises, the object is the one it
    started with and at most that frame was written. *)
Theorem query_one_frame (st : State) (command : string) :
  post (query command) st
    (fun _ st' => self st' = self st /\
                  tx (world st') = tx (world st) ++ frame_on (self st) command)
    (fun _ st' => self st' = self st /\
                  (tx (world st') = tx (world st) \/
                   tx (world st') = tx (world st) ++ frame_on (self st) command)).
Proof.
  unfold post, query, bind.
  pose proof (send_post command st) as Hs.
  destruct (send command st) as [[] st1|e st1|]; [|subst; auto|auto].
  destruct Hs as [Hs1 Ht1]. unfold frames_on in Ht1. cbn [flat_map] in Ht1.
  rewrite app_nil_r in Ht1.
  pose proof (recv_post 256 st1) as Hr. unfold post in Hr.
  destruct (recv 256 st1) as [[r|] st2|e st2|]; auto.
  - destruct Hr as [Hs2 Ht2]. unfold frames_on in Ht2. cbn [flat_map] in Ht2.
    rewrite app_nil_r in Ht2. cbn. split; congruence.
  - destruct Hr as [Hs2 Ht2]. unfold frames_on in Ht2. cbn [flat_map] in Ht2.
    rewrite app_nil_r in Ht2. cbn. split; [congruence|right; congruence].
  - destruct Hr as [Hs2 Ht2]. unfold frames_on in Ht2. cbn [flat_map] in Ht2.
    rewrite app_nil_r in Ht2. split; [congruence|right; congruence].
Qed.

(** X7.  No setter writes to the cache: however [set_srate], [set_channel],
    [set_gain], [set_equalizer], [set_recv_ip] or [set_recv_port] ends, the
    object, and with it [srate], [ch], [gain_status], [eq_status] and
    [config_info], is what it was.  A capture started after [set_srate]
    therefore still runs at the rate of the last refresh. *)
Theorem setters_leave_cache (st : State) (r c port : Z) (b : bool) (ip_addr : string) :
  let unchanged := fun (A : Type) (m : M A) =>
    post m st (fun _ st' => self st' = self st) (fun _ st' => self st' = self st) in
  unchanged unit (set_srate r) /\
  unchanged unit (set_channel c) /\
  unchanged unit (set_gain b) /\
  unchanged unit (set_equalizer b) /\
  unchanged unit (set_recv_ip ip_addr) /\
  unchanged unit (set_recv_port port).
Proof.
  cbv zeta.
  assert (Hset : forall p v e,
             post (set p v e) st (fun _ st' => self st' = self st)
               (fun _ st' => self st' = self st)).
  { intros p v e. eapply post_weaken; [apply set_post| |auto].
    intros a st' [H _]. exact H. }
  assert (Hguard : forall (g : bool) p v e,
             post (bind (py_assert g) (fun _ => set p v e)) st
               (fun _ st' => self st' = self st) (fun _ st' => self st' = self st)).
  { intros [|] p v e; [apply Hset|reflexivity]. }
  unfold set_srate, set_channel, set_gain, set_equalizer, set_recv_ip, set_recv_port.
  repeat split; auto.
  destruct b; apply Hset.
Qed.

(** X8.  A value with a double quote in it can never be set: [query] strips the
    quotes from what the device sends back, so the comparison fails
    whatever the device answers, and [set] does not return. *)
Theorem quoted_value_never_verifies (st : State) (param : string)
    (value : PyVal) (enclose : bool) :
  PyStr.remove_quotes (py_str value) <> py_str value ->
  forall st', set param value enclose st <> Ok tt st'.
Proof.
  intros Hq st' H. unfold set, bind in H.
  destruct (send _ st) as [[] st1|e st1|]; try discriminate.
  unfold query, bind in H.
  destruct (send _ st1) as [[] st2|e st2|]; try discriminate.
  destruct (recv 256 st2) as [[r|] st3|e st3|]; try discriminate.
  cbn in H.
  destruct (String.eqb_spec (PyStr.remove_quotes r) (py_str value)) as [Heq|Hne];
    [|discriminate].
  apply Hq. rewrite <- Heq.
  clear. induction r as [|c r IH]; [reflexivity|].
  cbn [PyStr.remove_quotes].
  destruct (Ascii.eqb c PyStr.DQUOTE) eqn:Hc; [exact IH|].
  cbn [PyStr.remove_quotes]. now rewrite Hc, IH.
Qed.

(** ** One datagram per reply, quoted or not *)

Lemma plain_no_crlf (r : string) :
  plain r = true ->
  contains_crlf (String PyStr.DQUOTE (r ++ String PyStr.DQUOTE (String PyStr.CR EmptyString))) = false.
Proof.
  unfold plain. intros H.
  assert (Hgen : forall c, Ascii.eqb c PyStr.CR = false ->
            contains_crlf (String c (r ++ String PyStr.DQUOTE (String PyStr.CR EmptyString))) = false).
  { induction r as [|x r IH]; intros c Hc.
    - cbn. rewrite Hc. reflexivity.
    - cbn [list_ascii_of_string forallb] in H.
      apply andb_prop in H as [Hx Hr]. apply andb_prop in Hx as [Hx _].
      apply negb_true_iff in Hx.
      change ((String x r ++ String PyStr.DQUOTE (String PyStr.CR EmptyString))%string)
        with (String x (r ++ String PyStr.DQUOTE (String PyStr.CR EmptyString))%string).
      cbn [contains_crlf]. rewrite Hc. cbn [andb orb]. apply IH; assumption. }
  apply Hgen. reflexivity.
Qed.

Lemma remove_quotes_quoted (r : string) :
  plain r = true -> PyStr.remove_quotes (quoted r) = r.
Proof.
  intros H. unfold quoted. cbn [PyStr.remove_quotes].
  change (Ascii.eqb PyStr.DQUOTE PyStr.DQUOTE) with true. cbn iota.
  unfold plain in H. induction r as [|x r IH]; [reflexivity|].
  cbn [list_ascii_of_string forallb] in H.
  apply andb_prop in H as [Hx Hr]. apply andb_prop in Hx as [_ Hx].
  apply negb_true_iff in Hx.
  cbn [String.append PyStr.remove_quotes]. rewrite Hx, (IH Hr). reflexivity.
Qed.

(** A query answered by one datagram that ends with the terminator. *)
Lemma query_udp_datagram st addr command d rest :
  udp_ready (self st) addr ->
  udp_rx (world st) = d :: rest ->
  PyStr.ends_crlf (PyStr.prefix 1024 d) = true ->
  query command st =
    Ok (PyStr.remove_quotes (PyStr.remove_crlf (PyStr.prefix 1024 d)))
       (after_query addr command rest st).
Proof.
  intros (Hi & [sk Hsk] & Ha) Hrx Hend.
  destruct st as [o w]. cbn [self world] in *.
  unfold query, send, send_udp, sendto, recv, recv_udp, bind, get_self, py_assert,
    after_query.
  cbn [self world]. rewrite Hi. cbn. rewrite Hsk, Ha. cbn.
  rewrite Hi. cbn. rewrite Hsk, Hrx. cbn [recv_udp_loop String.append].
  rewrite Hend. reflexivity.
Qed.

(** X9.  [set_recv_ip] against a device that echoes the address between double
    quotes, as it was sent, or bare: both read-backs pass, because [query]
    drops the quotes before [set] compares.  The command that went out
    carries the address between quotes. *)
Theorem set_recv_ip_accepts_quoted_echo (st : State) (addr : string * Z)
    (ip_addr : string) (rest : list string) (echo : string) :
  udp_ready (self st) addr ->
  plain ip_addr = true ->
  (String.length ip_addr + 4 <= 1024)%nat ->
  echo = quoted ip_addr \/ echo = ip_addr ->
  udp_rx (world st) = reply echo :: rest ->
  set_recv_ip ip_addr st =
    Ok tt (after_query addr "SYSTem:COMMunicate:LAN:RADDRess?" rest
             (after_send addr
                ("SYSTem:COMMunicate:LAN:RADDRess " ++ quoted ip_addr) st)).
Proof.
  intros Hready Hplain Hlen Hecho Hrx.
  unfold set_recv_ip.
  pose proof (send_udp_ok st addr
                (command "SYSTem:COMMunicate:LAN:RADDRess" (py_str (VStr ip_addr)) true)
                Hready) as Hsend.
  assert (Hl : (String.length (reply echo) <= 1024)%nat).
  { unfold reply. rewrite length_append. destruct Hecho as [->| ->].
    - unfold quoted. cbn [String.length]. rewrite length_append. cbn. lia.
    - cbn. lia. }
  assert (Htext : PyStr.remove_quotes (PyStr.remove_crlf (PyStr.prefix 1024 (reply echo)))
                  = ip_addr).
  { rewrite (prefix_all 1024 _ Hl). destruct Hecho as [->| ->].
    - unfold reply. rewrite remove_crlf_first.
      + apply remove_quotes_quoted, Hplain.
      + unfold quoted. cbn [String.append]. rewrite append_assoc.
        cbn [String.append]. apply (plain_no_crlf ip_addr Hplain).
    - rewrite (remove_crlf_reply _ Hplain). apply remove_quotes_plain, Hplain. }
  assert (Hq : query "SYSTem:COMMunicate:LAN:RADDRess?"
                 (after_send addr
                    (command "SYSTem:COMMunicate:LAN:RADDRess" (py_str (VStr ip_addr)) true) st)
               = Ok ip_addr
                    (after_query addr "SYSTem:COMMunicate:LAN:RADDRess?" rest
                       (after_send addr
                          (command "SYSTem:COMMunicate:LAN:RADDRess" (py_str (VStr ip_addr)) true) st))).
  { rewrite (query_udp_datagram
               (after_send addr
                  (command "SYSTem:COMMunicate:LAN:RADDRess" (py_str (VStr ip_addr)) true) st)
               addr _ (reply echo) rest Hready Hrx).
    - now rewrite Htext.
    - rewrite (prefix_all 1024 _ Hl). apply ends_crlf_reply. }
  rewrite (set_outcome _ _ _ _ _ _ _ Hsend Hq). cbn [py_str].
  rewrite String.eqb_refl. reflexivity.
Qed.

(** X10.  [init_udp] with a device that stays silent, or never completes a
    terminator: the probe goes out, closed by line feed and carriage
    return in that order, the time-out is raised, and the object is left
    with the new socket and address but with the interface it had, so a
    client that had none still has none. *)
Theorem init_udp_silent_device (st : State) (ip_addr : string) (port : Z) :
  recv_udp_loop (udp_rx (world st)) EmptyString = None ->
  init_udp ip_addr port st =
    Raise SocketTimeout
      {| self := upd_socket (Some {| timeout := 2 |})
                   (upd_nexos_address (Some (ip_addr, port)) (self st));
         world := w_udp_rx []
                    (w_tx (tx (world st) ++
                           [TxUdp (ip_addr, port)
                              ("*idn?" ++ String PyStr.LF (String PyStr.CR EmptyString))])
                       (world st)) |}.
Proof.
  intros H. destruct st as [o w]. cbn [self world] in *.
  unfold init_udp, sendto, recv_udp, bind, get_self. cbn. rewrite H. reflexivity.
Qed.

(** ** The capture loop, packet by packet *)

Lemma seqGap_header_update raw o :
  seqGap (header_update raw o) =
    seq_of raw - (if newSeqNum o =? -1 then seq_of raw - 1 else newSeqNum o).
Proof.
  unfold seqGap, header_update. destruct (newSeqNum o =? -1); reflexivity.
Qed.

Lemma newSeqNum_header_update raw o :
  newSeqNum (header_update raw o) = seq_of raw.
Proof. unfold header_update. destruct (newSeqNum o =? -1); reflexivity. Qed.

Lemma packetSize_header_update raw o :
  packetSize (header_update raw o) = packetSize o.
Proof. unfold header_update. destruct (newSeqNum o =? -1); reflexivity. Qed.

Lemma received_after_packet st d d' :
  received (self (after_packet st d)) d' = received (self st) d'.
Proof. apply received_header_update. Qed.

Lemma console_after_packets ds :
  forall st,
    console (world (after_packets ds st)) =
      console (world st) ++
      loss_lines (newSeqNum (self st)) (map (fun d => seq_of (received (self st) d)) ds).
Proof.
  induction ds as [|d ds IH]; intros st.
  - cbn. now rewrite app_nil_r.
  - unfold after_packets in *. cbn [fold_left map loss_lines].
    rewrite IH. cbn [after_packet self world console w_console].
    rewrite newSeqNum_header_update. rewrite <- app_assoc. f_equal.
    unfold loss_report. rewrite seqGap_header_update.
    f_equal. apply f_equal. apply map_ext. intros d'.
    now rewrite received_header_update.
Qed.

(** X11.  What the loop prints, all of it: for every packet the plain
    difference to the sequence number before it, when that difference is
    above 1 and the packet is not the first one of the object's life. *)
Theorem capture_loop_prints_loss_lines (rounds : nat) (st : State) :
  live_stream (self st) = true ->
  (rounds <= length (stream_rx (world st)))%nat ->
  indexable (self st) (firstn rounds (stream_rx (world st))) = true ->
  exists st',
    capture_loop rounds st = Ok tt st' /\
    console (world st') =
      console (world st) ++
      loss_lines (newSeqNum (self st))
        (map (fun d => seq_of (received (self st) d))
             (firstn rounds (stream_rx (world st)))).
Proof.
  intros Hlive Hlen Hidx. eexists. split.
  - apply (capture_loop_exact rounds st Hlive Hlen Hidx).
  - apply console_after_packets.
Qed.

Lemma lost_total_app a b : lost_total (a ++ b) = lost_total a + lost_total b.
Proof.
  induction a as [|l a IH]; [reflexivity|].
  change (lost_total ((l :: a) ++ b)) with (reported l - 1 + lost_total (a ++ b)).
  change (lost_total (l :: a)) with (reported l - 1 + lost_total a).
  rewrite IH. lia.
Qed.

Lemma last_cons {A} (l : list A) :
  forall s d, last (s :: l) d = last l s.
Proof.
  induction l as [|x l IH]; intros s d; [reflexivity|].
  change (last (s :: x :: l) d) with (last (x :: l) d).
  now rewrite !IH.
Qed.

Lemma loss_lines_total seqs :
  forall prev,
    0 <= prev ->
    ascending prev seqs = true ->
    lost_total (loss_lines prev seqs) = last seqs prev - prev - Z.of_nat (length seqs).
Proof.
  induction seqs as [|s seqs IH]; intros prev Hprev Hasc.
  - cbn. lia.
  - cbn [ascending] in Hasc. apply andb_prop in Hasc as [Hlt Hasc].
    apply Z.ltb_lt in Hlt.
    cbn [loss_lines]. assert (Hne : (prev =? -1) = false) by (apply Z.eqb_neq; lia).
    rewrite Hne. rewrite lost_total_app, (IH s ltac:(lia) Hasc).
    rewrite last_cons. cbn [length]. rewrite Nat2Z.inj_succ.
    destruct (s - prev >? 1) eqn:Hg; cbn.
    + lia.
    + assert (s - prev <= 1) by (destruct (Z.gtb_spec (s - prev) 1); [discriminate|lia]).
      lia.
Qed.

Lemma newSeqNum_after_packets ds :
  forall st,
    newSeqNum (self (after_packets ds st)) =
      last (map (fun d => seq_of (received (self st) d)) ds) (newSeqNum (self st)).
Proof.
  induction ds as [|d ds IH]; intros st; [reflexivity|].
  unfold after_packets in *. cbn [fold_left map].
  rewrite IH. cbn [after_packet self]. rewrite newSeqNum_header_update.
  set (f := fun d0 => seq_of (received (header_update (received (self st) d) (self st)) d0)).
  set (g := fun d0 => seq_of (received (self st) d0)).
  assert (Hfg : map f ds = map g ds).
  { apply map_ext. intros d'. unfold f, g. now rewrite received_header_update. }
  rewrite Hfg. now rewrite last_cons.
Qed.

(** X12.  On a stretch of the stream whose sequence numbers only go up (no
    wrap), after a packet was seen before, the lines account for every
    missing packet: the numbers printed, each less one, add up to the
    distance covered less the packets received. *)
Theorem loss_lines_account_for_gaps (rounds : nat) (st : State) :
  live_stream (self st) = true ->
  (rounds <= length (stream_rx (world st)))%nat ->
  indexable (self st) (firstn rounds (stream_rx (world st))) = true ->
  0 <= newSeqNum (self st) ->
  ascending (newSeqNum (self st))
    (map (fun d => seq_of (received (self st) d))
         (firstn rounds (stream_rx (world st)))) = true ->
  exists st' lines,
    capture_loop rounds st = Ok tt st' /\
    console (world st') = console (world st) ++ lines /\
    lost_total lines =
      newSeqNum (self st') - newSeqNum (self st) - Z.of_nat rounds.
Proof.
  intros Hlive Hlen Hidx Hprev Hasc. eexists. eexists. split.
  - apply (capture_loop_exact rounds st Hlive Hlen Hidx).
  - split; [apply console_after_packets|].
    rewrite (loss_lines_total _ _ Hprev Hasc), newSeqNum_after_packets.
    rewrite length_map, length_firstn. lia.
Qed.

(** X13.  Once a packet was received the sequence number held is a 16-bit
    number, never the initial -1 again: the first-packet rule applies
    once in the life of the object, and a later capture compares its
    first packet with the last packet of the capture before. *)
Theorem sentinel_only_once (rounds : nat) (st : State) :
  live_stream (self st) = true ->
  (0 < rounds <= length (stream_rx (world st)))%nat ->
  indexable (self st) (firstn rounds (stream_rx (world st))) = true ->
  exists st',
    capture_loop rounds st = Ok tt st' /\
    0 <= newSeqNum (self st') < 65536 /\
    newSeqNum (self st') =
      seq_of (received (self st)
                (nth (rounds - 1) (stream_rx (world st)) [])).
Proof.
  intros Hlive [Hpos Hlen] Hidx. eexists. split.
  - apply (capture_loop_exact rounds st Hlive Hlen Hidx).
  - rewrite newSeqNum_after_packets.
    set (g := fun d => seq_of (received (self st) d)).
    assert (Hlast : last (map g (firstn rounds (stream_rx (world st)))) (newSeqNum (self st))
                    = g (nth (rounds - 1) (stream_rx (world st)) [])).
    { clear Hidx Hlive. generalize (newSeqNum (self st)) as z.
      revert rounds Hpos Hlen. generalize (stream_rx (world st)) as rx.
      induction rx as [|d rx IH]; intros rounds Hpos Hlen z; [simpl in Hlen; lia|].
      destruct rounds as [|[|n]]; [lia|reflexivity|].
      cbn [length] in Hlen.
      change (firstn (S (S n)) (d :: rx)) with (d :: firstn (S n) rx).
      cbn [map]. rewrite last_cons.
      replace (S (S n) - 1)%nat with (S (S n - 1)) by lia. cbn [nth].
      apply (IH (S n)); lia. }
    rewrite Hlast. split; [apply seq_of_range|reflexivity].
Qed.

(** ** [write_wav] from end to end *)

Lemma count_of_defined seconds st :
  count_defined seconds st = true ->
  PyNum.int_true_div (seconds * srate (self st)) 512 = inr (packet_number seconds st).
Proof.
  unfold count_defined, packet_number.
  destruct (PyNum.int_true_div (seconds * srate (self st)) 512); [discriminate|reflexivity].
Qed.

Lemma writable_all name st : unwritable (world st) = [] -> writable name st = true.
Proof. unfold writable, refusal. now intros ->. Qed.

Lemma write_wav_unfold seconds prefix close st :
  ready_to_capture seconds st ->
  write_wav seconds prefix close st =
    bind (capture_loop (packets_wanted seconds st))
         (fun _ => finish close (wav_name prefix st))
         (prepared seconds prefix st).
Proof.
  intros (Hcfg & Havail & Hspp & Hrate & Hsec & Hcount & Hun & Hroom).
  apply write_wav_to_loop; auto using count_of_defined, writable_all.
Qed.

(** The loop of a capture on a stream that delivers. *)
Lemma capture_on_delivery seconds prefix st :
  ready_to_capture seconds st ->
  stream_delivers seconds st ->
  let st2 := after_packets (taken seconds st) (prepared seconds prefix st) in
  write_wav seconds prefix true st = finish true (wav_name prefix st) st2 /\
  write_wav seconds prefix false st = finish false (wav_name prefix st) st2 /\
  files (world st2) =
    remove_file (wav_name prefix st) (files (world st)) ++
    [(wav_name prefix st, captured seconds st)] /\
  stream_rx (world st2) = skipn (packets_wanted seconds st) (stream_rx (world st)) /\
  untouched_by_loop (prepared seconds prefix st) st2 /\
  stream_socket (self st2) <> None.
Proof.
  intros Hready (Hps & Hlen & Hidx) st2.
  pose proof (write_wav_unfold seconds prefix true st Hready) as Ht.
  pose proof (write_wav_unfold seconds prefix false st Hready) as Hf.
  destruct Hready as (Hcfg & Havail & Hspp & Hrate & Hsec & Hcount & Hun & Hroom).
  destruct (capture_state seconds prefix st (packets_wanted seconds st) Havail Hps Hlen Hidx)
    as (Hloop & Hfiles & Hrx & Hunt).
  fold (taken seconds st) in Hloop, Hfiles, Hrx, Hunt. fold st2 in Hloop, Hfiles, Hrx, Hunt.
  unfold bind in Ht, Hf. rewrite Hloop in Ht, Hf.
  split; [exact Ht|]. split; [exact Hf|]. split; [exact Hfiles|].
  split; [exact Hrx|]. split; [exact Hunt|].
  destruct Hunt as (_ & (_ & Hsock & _) & _). rewrite Hsock.
  destruct (prepared_facts seconds prefix st Havail) as (Hlive & _).
  unfold live_stream in Hlive.
  destruct (stream_socket (self (prepared seconds prefix st))); discriminate.
Qed.

Lemma captured_ready seconds st :
  0 < srate (self st) ->
  finalized (captured seconds st) = false /\ unset (captured seconds st) = false.
Proof. intros Hr. split; [reflexivity|]. now apply unset_false. Qed.

(** [write_wav] in full, when the stream delivers and the file stays
    within its header. *)
Lemma write_wav_exact seconds prefix close st :
  ready_to_capture seconds st ->
  stream_delivers seconds st ->
  header_fits (captured seconds st) = true ->
  write_wav seconds prefix close st =
    Ok 1 (finished close (wav_name prefix st)
            (after_packets (taken seconds st) (prepared seconds prefix st))).
Proof.
  intros Hready Hdel Hfit.
  destruct (capture_on_delivery seconds prefix st Hready Hdel)
    as (Ht & Hf & Hfiles & _ & _ & Hsock).
  destruct Hready as (_ & _ & _ & Hrate & _).
  destruct (captured_ready seconds st Hrate) as (Hfin & Hset).
  destruct close; [rewrite Ht|rewrite Hf];
    apply (finish_ok _ _ _ _ _ _ Hfiles Hfin Hset Hfit); intros _; exact Hsock.
Qed.

Lemma files_of_capture seconds prefix close st :
  files (world (finished close (wav_name prefix st)
                  (after_packets (taken seconds st) (prepared seconds prefix st)))) =
    remove_file (wav_name prefix st) (files (world st)) ++
    [(wav_name prefix st,
      wav_of (srate (self st)) (map (payload (self st)) (taken seconds st)))].
Proof.
  pose proof (files_after_packets (taken seconds st) _ _ _ _
                (prepared_files seconds prefix st)) as Ha.
  rewrite prepared_payload in Ha.
  now rewrite (finished_files close _ _ _ _ _ Ha).
Qed.

(** The destructor finds nothing to do on a writer that was closed. *)
Lemma wave_del_closed st fs name f :
  files (world st) = fs ++ [(name, f)] ->
  finalized f = true ->
  wave_del st = st.
Proof.
  intros Hf Hfin. unfold wave_del, wave_close, obj, bind, get_world.
  rewrite Hf, last_file_app. cbn [snd]. now rewrite Hfin.
Qed.

(** What the parts of a capture leave alone. *)
Lemma capture_frame seconds prefix st :
  stream_available st = true ->
  let st1 := prepared seconds prefix st in
  let st2 := after_packets (taken seconds st) st1 in
  (open_stream_port (self st2) = true /\
   live_stream (self st2) = true /\
   config_info (self st2) = config_info (self st) /\
   srate (self st2) = srate (self st)) /\
  (samplesPerPacket (self st2) = samplesPerPacket (self st) /\
   packetSize (self st2) = packetSize (self st) /\
   streaming_port (self st2) = streaming_port (self st)) /\
  (threads (world st2) = threads (world st) /\
   tx (world st2) = tx (world st) /\
   udp_rx (world st2) = udp_rx (world st) /\
   ports_in_use (world st2) = ports_in_use (world st)) /\
  (unwritable (world st2) = unwritable (world st) /\
   clock (world st2) = clock (world st) /\
   ticks (world st2) = S (ticks (world st))).
Proof.
  intros Havail st1 st2.
  destruct (untouched_after_packets (taken seconds st) st1)
    as ((Hi & Hso & Hse & Hna & Hsp & Hpk & Hsa) &
        (Hop & Hsk & Hci & Hch & Hsr & Hga & Heq) &
        (Hsd & Hsrx & Hurx & Hpiu) & (Htx & Hcl & Hti & Hth)).
  fold st2 in Hi, Hso, Hse, Hna, Hsp, Hpk, Hsa, Hop, Hsk, Hci, Hch, Hsr, Hga, Heq,
    Hsd, Hsrx, Hurx, Hpiu, Htx, Hcl, Hti, Hth.
  pose proof (unwritable_after_packets (taken seconds st) st1) as Hunw. fold st2 in Hunw.
  pose proof (live_opened st Havail) as Hlive.
  assert (H1 : (open_stream_port (self st1) = true /\
                live_stream (self st1) = true /\
                config_info (self st1) = config_info (self st) /\
                srate (self st1) = srate (self st)) /\
               (samplesPerPacket (self st1) = samplesPerPacket (self st) /\
                packetSize (self st1) = packetSize (self st) /\
                streaming_port (self st1) = streaming_port (self st)) /\
               (threads (world st1) = threads (world st) /\
                tx (world st1) = tx (world st) /\
                udp_rx (world st1) = udp_rx (world st) /\
                ports_in_use (world st1) = ports_in_use (world st)) /\
               (unwritable (world st1) = unwritable (world st) /\
                clock (world st1) = clock (world st) /\
                ticks (world st1) = S (ticks (world st)))).
  { unfold st1, prepared, opened in *.
    destruct (open_stream_port (self st)) eqn:Ho; cbn; repeat split; auto. }
  destruct H1 as ((Ho1 & Hl1 & Hc1 & Hs1) & (Hp1 & Hk1 & Ht1) & (Hh1 & Hx1 & Hu1 & Hq1) &
                  (Hw1 & Hcl1 & Hti1)).
  assert (Hl2 : live_stream (self st2) = true).
  { unfold live_stream in *. now rewrite Hsk. }
  repeat split; congruence.
Qed.

(** X14.  A capture that goes through, its file within what the header can
    describe: it returns 1; it has written nothing to the device; its
    file, closed, stands in the place of any older file of the same name;
    it has started one tagging task, for its file and the cached dict;
    the cache is as before; the stream is closed, flag and socket, when
    [close] is set, and open on the same footing for the next capture when
    it is not; and the destructor of the writer has nothing left to do. *)
Theorem write_wav_leaves_stream_as_asked (seconds : Z) (prefix : string)
    (close : bool) (st : State) :
  ready_to_capture seconds st ->
  stream_delivers seconds st ->
  header_fits (captured seconds st) = true ->
  exists st',
    write_wav seconds prefix close st = Ok 1 st' /\
    open_stream_port (self st') = negb close /\
    live_stream (self st') = negb close /\
    threads (world st') =
      threads (world st) ++ [(wav_name prefix st, config_info (self st))] /\
    tx (world st') = tx (world st) /\
    udp_rx (world st') = udp_rx (world st) /\
    config_info (self st') = config_info (self st) /\
    srate (self st') = srate (self st) /\
    stream_rx (world st') = skipn (packets_wanted seconds st) (stream_rx (world st)) /\
    files (world st') =
      remove_file (wav_name prefix st) (files (world st)) ++
      [(wav_name prefix st,
        wav_of (srate (self st)) (map (payload (self st)) (taken seconds st)))] /\
    wave_del st' = st'.
Proof.
  intros Hready Hdel Hfit. eexists. split; [apply write_wav_exact; assumption|].
  destruct (capture_on_delivery seconds prefix st Hready Hdel)
    as (_ & _ & _ & Hrx & _ & _).
  destruct Hready as (Hcfg & Havail & Hspp & Hrate & Hsec & Hcount & Hun & Hroom).
  destruct (capture_frame seconds prefix st Havail)
    as ((Ho & Hl & Hc & Hs) & _ & (Hth & Htx & Hu & _) & _).
  pose proof (files_of_capture seconds prefix close st) as Hfiles.
  set (st2 := after_packets (taken seconds st) (prepared seconds prefix st)) in *.
  split; [|split; [|split; [|split; [|split; [|split; [|split; [|split; [|split]]]]]]]].
  10: { eapply wave_del_closed; [exact Hfiles|reflexivity]. }
  9: exact Hfiles.
  all: unfold finished; unfold live_stream in *;
    destruct close; cbn [negb self world on_world on_self open_stream_port stream_socket
                         upd_open_stream_port upd_stream_socket threads w_threads w_files
                         tx udp_rx config_info srate stream_rx];
    try (destruct (stream_socket (self st2)) as [sock|]; [|discriminate]; cbn);
    congruence.
Qed.

(** X24.  A capture whose file outgrows the 32 bits of the header: every
    packet is taken and written, then [close] raises [struct.error] and
    [write_wav] ends there.  The file handle is released with the header
    still announcing the first chunk alone; the stream stays open, flag
    and socket, whatever [close] asks; no tagging task is started. *)
Theorem oversize_capture_fails_at_close (seconds : Z) (prefix : string)
    (close : bool) (st : State) :
  ready_to_capture seconds st ->
  stream_delivers seconds st ->
  header_fits (captured seconds st) = false ->
  exists st',
    write_wav seconds prefix close st = Raise StructError st' /\
    files (world st') =
      remove_file (wav_name prefix st) (files (world st)) ++
      [(wav_name prefix st, released (captured seconds st))] /\
    header_on_disk (released (captured seconds st)) =
      Some (data_announced (captured seconds st)) /\
    data_announced (captured seconds st) < data_written (captured seconds st) /\
    stream_rx (world st') = skipn (packets_wanted seconds st) (stream_rx (world st)) /\
    open_stream_port (self st') = true /\
    live_stream (self st') = true /\
    threads (world st') = threads (world st) /\
    wave_del st' = st'.
Proof.
  intros Hready Hdel Hfit.
  destruct (capture_on_delivery seconds prefix st Hready Hdel)
    as (Ht & Hf & Hfiles & Hrx & _ & Hsock).
  destruct Hready as (Hcfg & Havail & Hspp & Hrate & Hsec & Hcount & Hun & Hroom).
  destruct (captured_ready seconds st Hrate) as (Hfin & Hset).
  destruct (capture_frame seconds prefix st Havail)
    as ((Ho & Hl & Hc & Hs) & _ & (Hth & Htx & Hu & _) & _).
  set (st2 := after_packets (taken seconds st) (prepared seconds prefix st)) in *.
  pose proof (finish_oversize close (wav_name prefix st) st2 _ _ _ Hfiles Hfin Hset Hfit) as Hend.
  eexists. split.
  { destruct close; [rewrite Ht|rewrite Hf]; exact Hend. }
  cbn [world self on_world files w_files stream_rx threads].
  split; [reflexivity|].
  assert (Hfit' : header_fits (released (captured seconds st)) = false) by exact Hfit.
  assert (Hne : frames (captured seconds st) <> []).
  { intros He. unfold header_fits, data_announced, data_written in Hfit.
    rewrite He in Hfit. discriminate. }
  split.
  { unfold header_on_disk. rewrite Hfit'.
    change (frames (released (captured seconds st))) with (frames (captured seconds st)).
    destruct (frames (captured seconds st)) eqn:E; [contradiction|].
    rewrite andb_false_r. unfold data_announced.
    change (frames (released (captured seconds st))) with (frames (captured seconds st)).
    rewrite E. reflexivity. }
  split.
  { unfold header_fits in Hfit. apply orb_false_iff in Hfit as [Hneq _].
    apply Z.eqb_neq in Hneq.
    assert (Hle : data_announced (captured seconds st) <= data_written (captured seconds st)).
    { unfold data_announced, data_written. cbn [nchannels sampwidth captured].
      destruct (frames (captured seconds st)) as [|c l]; [cbn [fold_right]; lia|].
      cbn [fold_right]. change (1 * 2) with 2.
      assert (0 <= fold_right (fun chunk n => Z.of_nat (length chunk) + n) 0 l).
      { clear. induction l as [|x l IH]; cbn [fold_right]; lia. }
      pose proof (Z.mul_div_le (Z.of_nat (length c)) 2 ltac:(lia)). lia. }
    lia. }
  split; [exact Hrx|]. split; [exact Ho|]. split; [exact Hl|]. split; [exact Hth|].
  eapply wave_del_closed; [reflexivity|reflexivity].
Qed.

(** ** Captures back to back *)

Lemma forallb_firstn {A} (p : A -> bool) (n : nat) (l : list A) :
  forallb p l = true -> forallb p (firstn n l) = true.
Proof.
  revert n. induction l as [|x l IH]; intros [|n] H; try reflexivity.
  cbn [forallb firstn] in *. apply andb_prop in H as [Hx Hl].
  now rewrite Hx, IH.
Qed.

Lemma forallb_skipn {A} (p : A -> bool) (n : nat) (l : list A) :
  forallb p l = true -> forallb p (skipn n l) = true.
Proof.
  revert n. induction l as [|x l IH]; intros [|n] H; try reflexivity; [exact H|].
  cbn [forallb skipn] in *. apply andb_prop in H as [Hx Hl]. now apply IH.
Qed.

Lemma captured_fits seconds st :
  packetSize (self st) = 1036 ->
  Z.of_nat (packets_wanted seconds st) <= 4194303 ->
  header_fits (captured seconds st) = true.
Proof.
  intros Hps Hsmall. unfold captured. apply small_capture_fits; [exact Hps|].
  rewrite length_firstn. lia.
Qed.

(** One pass: the file it adds, and the conditions of the next pass. *)
Lemma write_wav_round seconds prefix st :
  ready_to_capture seconds st ->
  port_free st ->
  packetSize (self st) = 1036 ->
  all_indexable st ->
  (packets_wanted seconds st <= length (stream_rx (world st)))%nat ->
  header_fits (captured seconds st) = true ->
  exists st' nf,
    write_wav seconds prefix true st = Ok 1 st' /\
    (files (world st') = remove_file (wav_name prefix st) (files (world st)) ++ [nf] /\
     fst nf = wav_name prefix st /\
     complete (srate (self st)) (packets_wanted seconds st) nf /\
     stream_rx (world st') = skipn (packets_wanted seconds st) (stream_rx (world st))) /\
    (ready_to_capture seconds st' /\
     port_free st' /\
     packetSize (self st') = 1036 /\
     all_indexable st') /\
    (packets_wanted seconds st' = packets_wanted seconds st /\
     srate (self st') = srate (self st) /\
     clock (world st') = clock (world st) /\
     ticks (world st') = S (ticks (world st))).
Proof.
  intros Hready Hfree Hps Hall Hlen Hfit.
  assert (Hdel : stream_delivers seconds st).
  { split; [exact Hps|]. split; [exact Hlen|]. now apply forallb_firstn. }
  pose proof (write_wav_exact seconds prefix true st Hready Hdel Hfit) as Hw.
  destruct (capture_on_delivery seconds prefix st Hready Hdel)
    as (_ & _ & _ & Hrx & _ & Hsock).
  destruct Hready as (Hcfg & Havail & Hspp & Hrate & Hsec & Hcount & Hun & Hroom).
  destruct (capture_frame seconds prefix st Havail)
    as ((Ho & Hl & Hc & Hs) & (Hsp & Hpk & Hport) & (Hth & Htx & Hu & Hpiu) &
        (Hunw & Hcl & Hti)).
  set (st2 := after_packets (taken seconds st) (prepared seconds prefix st)) in *.
  eexists. eexists. split; [exact Hw|].
  split.
  { split; [apply (files_of_capture seconds prefix true st)|].
    split; [reflexivity|]. split.
    - unfold complete, wav_of. cbn. repeat split.
      unfold taken. now rewrite length_map, length_firstn, Nat.min_l by exact Hlen.
    - unfold finished. cbn [world on_world on_self stream_rx w_files w_threads]. exact Hrx. }
  unfold finished, ready_to_capture, port_free, all_indexable, stream_available,
    packets_wanted, packet_number, count_defined.
  cbn [self world on_world on_self open_stream_port stream_socket
       upd_open_stream_port upd_stream_socket threads w_threads w_files
       config_info srate stream_rx samplesPerPacket packetSize streaming_port
       ports_in_use unwritable clock ticks].
  unfold port_free in Hfree. unfold count_defined in Hcount.
  rewrite Hrx, Hc, Hs, Hsp, Hpk, Hport, Hpiu, Hunw, Hcl, Hti, Hfree, Hcount.
  repeat split; auto. now apply forallb_skipn.
Qed.

Lemma remove_file_app name fs gs :
  remove_file name (fs ++ gs) = remove_file name fs ++ remove_file name gs.
Proof. apply filter_app. Qed.

Lemma removed_app names :
  forall fs nf,
    ~ In (fst nf) names ->
    fold_left (fun l name => remove_file name l) names (fs ++ [nf]) =
      fold_left (fun l name => remove_file name l) names fs ++ [nf].
Proof.
  induction names as [|name names IH]; intros fs nf Hnot; [reflexivity|].
  cbn [fold_left]. rewrite remove_file_app.
  assert (Hkeep : remove_file name [nf] = [nf]).
  { unfold remove_file. cbn [filter].
    destruct (String.eqb_spec (fst nf) name) as [He|Hne]; [|reflexivity].
    exfalso. apply Hnot. left. now symmetry. }
  rewrite Hkeep. apply IH. intros Hin. apply Hnot. now right.
Qed.

(** X15.  [rounds] passes of [write_wav_continuous] whose files get names
    that differ (the clock has moved on between two passes), on a stream
    that holds the packets for them, each file below what its header can
    describe: every pass adds one closed file with the full count of
    chunks at the rate of the object, under the name of its pass, in the
    place of any older file of that name, and the passes together take
    [rounds] times that count off the stream. *)
Theorem continuous_capture_one_file_per_pass (rounds : nat) (seconds : Z)
    (prefix : string) :
  forall st,
    ready_to_capture seconds st ->
    port_free st ->
    packetSize (self st) = 1036 ->
    all_indexable st ->
    Z.of_nat (packets_wanted seconds st) <= 4194303 ->
    NoDup (pass_names prefix rounds st) ->
    (rounds * packets_wanted seconds st <= length (stream_rx (world st)))%nat ->
    exists st' new,
      write_wav_continuous rounds seconds prefix st = Ok tt st' /\
      files (world st') =
        fold_left (fun l name => remove_file name l) (pass_names prefix rounds st)
          (files (world st)) ++ new /\
      map fst new = pass_names prefix rounds st /\
      length new = rounds /\
      Forall (complete (srate (self st)) (packets_wanted seconds st)) new /\
      stream_rx (world st') =
        skipn (rounds * packets_wanted seconds st) (stream_rx (world st)).
Proof.
  induction rounds as [|k IH]; intros st Hready Hfree Hps Hall Hsmall Hnames Hlen.
  - exists st, []. cbn. rewrite app_nil_r. repeat split; auto.
  - destruct (write_wav_round seconds prefix st Hready Hfree Hps Hall
                ltac:(cbn in Hlen; lia) (captured_fits seconds st Hps Hsmall))
      as (st1 & nf & Hw & (Hf & Hname & Hc & Hrx) & (Hready1 & Hfree1 & Hps1 & Hall1) &
          (Hn1 & Hs1 & Hcl1 & Hti1)).
    assert (Hpass : pass_names prefix (S k) st =
                    wav_name prefix st :: pass_names prefix k st1).
    { unfold pass_names, wav_name. cbn [seq map]. now rewrite Hcl1, Hti1. }
    rewrite Hpass in Hnames. apply NoDup_cons_iff in Hnames as [Hfresh Hnames].
    destruct (IH st1 Hready1 Hfree1 Hps1 Hall1) as (st' & new & Hk & Hf' & Hm' & Hl' & Hc' & Hrx').
    { now rewrite Hn1. }
    { exact Hnames. }
    { rewrite Hn1, Hrx, length_skipn. cbn in Hlen. lia. }
    exists st', (nf :: new). cbn [write_wav_continuous]. unfold bind. rewrite Hw.
    split; [exact Hk|]. split.
    { rewrite Hf', Hf, Hpass. cbn [fold_left].
      rewrite removed_app by (rewrite Hname; exact Hfresh).
      now rewrite <- app_assoc. }
    split; [rewrite Hpass; cbn [map]; now rewrite Hname, Hm'|].
    split; [cbn; now rewrite Hl'|].
    split; [constructor; [exact Hc|now rewrite <- Hn1, <- Hs1]|].
    rewrite Hrx', Hn1, Hrx, skipn_skipn. f_equal. cbn. lia.
Qed.

(** ** Captures that do not go through *)

Lemma capture_packet_hang st :
  live_stream (self st) = true ->
  stream_rx (world st) = [] ->
  capture_packet st = Hang.
Proof.
  unfold live_stream. intros Hlive Hrx.
  unfold capture_packet, receivePacket, stream_recv, bind.
  destruct (stream_socket (self st)) as [sock|]; [|discriminate].
  destruct (closed sock); [discriminate|].
  destruct (bound_port sock); [|discriminate]. now rewrite Hrx.
Qed.

Lemma capture_loop_short (rounds : nat) :
  forall st,
    live_stream (self st) = true ->
    indexable (self st) (stream_rx (world st)) = true ->
    (length (stream_rx (world st)) < rounds)%nat ->
    capture_loop rounds st = Hang.
Proof.
  induction rounds as [|n IH]; intros st Hlive Hidx Hlen; [lia|].
  cbn [capture_loop]. unfold bind.
  destruct (stream_rx (world st)) as [|d rx] eqn:Hrx.
  - now rewrite capture_packet_hang.
  - unfold indexable in Hidx. cbn [forallb] in Hidx.
    apply andb_prop in Hidx as [Hd Hrest]. apply Nat.leb_le in Hd.
    pose proof (capture_packet_ok st d rx Hlive Hrx Hd) as Hstep. cbv zeta in Hstep.
    rewrite Hstep. apply IH.
    + cbn [self]. now rewrite live_stream_header_update.
    + cbn [self world stream_rx w_console w_files w_stream_rx].
      now rewrite indexable_header_update.
    + cbn [self world stream_rx w_console w_files w_stream_rx]. cbn in Hlen. lia.
Qed.

(** [write_wav] on a stream that is too short. *)
Lemma write_wav_hangs seconds prefix close st :
  ready_to_capture seconds st ->
  packetSize (self st) = 1036 ->
  all_indexable st ->
  (length (stream_rx (world st)) < packets_wanted seconds st)%nat ->
  write_wav seconds prefix close st = Hang.
Proof.
  intros Hready Hps Hall Hlen.
  rewrite (write_wav_unfold seconds prefix close st Hready).
  destruct Hready as (Hcfg & Havail & Hspp & Hrate & Hsec).
  destruct (prepared_facts seconds prefix st Havail) as (Hlive & Hrx & Hps' & _ & _).
  unfold bind. rewrite capture_loop_short; [reflexivity|exact Hlive| |].
  - rewrite Hrx, indexable_1036; [exact Hall|]. now rewrite Hps'.
  - now rewrite Hrx.
Qed.

(** X16.  The stream dries up before the count is reached: [write_wav] never
    returns.  There is no time-out on the stream socket and no other way
    out of the loop. *)
Theorem write_wav_blocks_on_short_stream (seconds : Z) (prefix : string)
    (close : bool) (st : State) :
  ready_to_capture seconds st ->
  packetSize (self st) = 1036 ->
  all_indexable st ->
  (length (stream_rx (world st)) < packets_wanted seconds st)%nat ->
  write_wav seconds prefix close st = Hang.
Proof. exact (write_wav_hangs seconds prefix close st). Qed.

Lemma receivePacket_short st d rest :
  live_stream (self st) = true ->
  stream_rx (world st) = d :: rest ->
  (length (received (self st) d) < 2)%nat ->
  receivePacket st = Raise IndexError (after_short st d rest).
Proof.
  unfold live_stream, received, after_short. destruct st as [o w]. cbn [self world].
  intros Hlive Hrx Hlen.
  unfold receivePacket, bind, stream_recv. cbn [self world].
  destruct (stream_socket o) as [sock|]; [|discriminate].
  destruct (closed sock); [discriminate|].
  destruct (bound_port sock); [|discriminate].
  rewrite Hrx. unfold received.
  destruct (firstn (Z.to_nat (packetSize o)) d) as [|b0 [|b1 raw]];
    cbn in Hlen; try lia; reflexivity.
Qed.

(** The destructor on a writer that was left open: the file handle is
    released, whatever [close] runs into on its way. *)
Lemma wave_del_open st fs name f :
  files (world st) = fs ++ [(name, f)] ->
  finalized f = false ->
  wave_del st = on_world (w_files (fs ++ [(name, released f)])) st.
Proof.
  intros Hf Hfin.
  assert (Hst : on_world (fun w => w_files (update_last (fun nf => (fst nf, released (snd nf)))
                                              (files w)) w) st =
                on_world (w_files (fs ++ [(name, released f)])) st).
  { unfold on_world. now rewrite Hf, update_last_app. }
  unfold wave_del, wave_close, obj, on_obj, bind, get_world, modify_world.
  rewrite Hf, last_file_app. cbn [snd]. rewrite Hfin. rewrite Hst.
  destruct (match frames f with [] => unset f | _ :: _ => false end); [reflexivity|].
  destruct (header_fits f); reflexivity.
Qed.

(** X17.  A datagram of fewer than two bytes at the head of the stream stops
    the capture with [IndexError].  When the exception leaves [write_wav]
    the datagram is gone, the stream is still open (flag and socket), the
    file that was created, in the place of any older file of its name, is
    empty and its writer has not been closed, no tagging task was
    started, and the sequence numbers are what they were.  The file is
    closed afterwards, by the destructor of the writer once the exception
    has been dealt with: it gets a header for no data, and nothing else
    changes. *)
Theorem short_datagram_aborts_capture (seconds : Z) (prefix : string)
    (close : bool) (st : State) (d : list byte) (rest : list (list byte)) :
  let name := wav_name prefix st in
  let others := remove_file name (files (world st)) in
  let file :=
    {| nchannels := 1; sampwidth := 2; framerate := srate (self st);
       frames := []; finalized := false |} in
  ready_to_capture seconds st ->
  packetSize (self st) = 1036 ->
  stream_rx (world st) = d :: rest ->
  (length d < 2)%nat ->
  (0 < packets_wanted seconds st)%nat ->
  exists st',
    write_wav seconds prefix close st = Raise IndexError st' /\
    stream_rx (world st') = rest /\
    open_stream_port (self st') = true /\
    live_stream (self st') = true /\
    files (world st') = others ++ [(name, file)] /\
    threads (world st') = threads (world st) /\
    newSeqNum (self st') = newSeqNum (self st) /\
    oldSeqNum (self st') = oldSeqNum (self st) /\
    wave_del st' = on_world (w_files (others ++ [(name, released file)])) st' /\
    header_on_disk (released file) = Some 0.
Proof.
  intros name others file Hready Hps Hrx Hd Hpos.
  rewrite (write_wav_unfold seconds prefix close st Hready).
  destruct Hready as (Hcfg & Havail & Hspp & Hrate & Hsec).
  destruct (prepared_facts seconds prefix st Havail) as (Hlive & Hrx' & Hps' & _ & _).
  pose proof (prepared_files seconds prefix st) as Hfiles.
  fold name others file in Hfiles.
  set (st1 := prepared seconds prefix st) in *.
  destruct (packets_wanted seconds st) as [|n]; [lia|].
  assert (Hshort : (length (received (self st1) d) < 2)%nat).
  { unfold received. rewrite length_firstn. lia. }
  rewrite Hrx in Hrx'.
  exists (after_short st1 d rest).
  split.
  { cbn [capture_loop]. unfold bind, capture_packet, bind.
    now rewrite (receivePacket_short st1 d rest Hlive Hrx' Hshort). }
  assert (Hproj : forall o',
            o' = match received (self st1) d with
                 | b :: _ => upd_rtpVersion (Z.of_N (Byte.to_N b)) (self st1)
                 | [] => self st1
                 end ->
            open_stream_port o' = open_stream_port (self st1) /\
            live_stream o' = live_stream (self st1) /\
            newSeqNum o' = newSeqNum (self st1) /\
            oldSeqNum o' = oldSeqNum (self st1)).
  { intros o' ->. destruct (received (self st1) d); repeat split. }
  destruct (Hproj _ eq_refl) as (Ho & Hl & Hn & Hold).
  assert (Hfiles' : files (world (after_short st1 d rest)) = others ++ [(name, file)])
    by exact Hfiles.
  split; [reflexivity|].
  split.
  { unfold after_short. cbn [self]. rewrite Ho.
    unfold st1, prepared, opened. destruct (open_stream_port (self st)) eqn:Hop; [exact Hop|reflexivity]. }
  split; [unfold after_short; cbn [self]; now rewrite Hl|].
  split; [exact Hfiles'|].
  split.
  { unfold after_short. cbn [world threads w_stream_rx].
    unfold st1, prepared, opened. destruct (open_stream_port (self st)); reflexivity. }
  split.
  { unfold after_short. cbn [self]. rewrite Hn.
    unfold st1, prepared, opened. destruct (open_stream_port (self st)); reflexivity. }
  split.
  { unfold after_short. cbn [self]. rewrite Hold.
    unfold st1, prepared, opened. destruct (open_stream_port (self st)); reflexivity. }
  split; [apply (wave_del_open _ _ _ _ Hfiles' eq_refl)|].
  unfold header_on_disk. cbn [frames released finalized andb].
  change (unset (released file)) with (unset file).
  unfold file. now rewrite unset_false.
Qed.

(** X18.  A rate that is not positive (the refresh stores whatever integer the
    device reports), with a duration for which the packet count is exact:
    [write_wav] opens the stream and creates its file, then stops on the
    error [wave] raises for the frame rate, before it reads a packet.
    The file is there, empty, its writer not closed, and no tagging task
    was started.  The destructor of the writer, once the exception has
    been dealt with, releases the file without a header, the rate it would
    need never having been set. *)
Theorem nonpositive_rate_stops_capture (seconds : Z) (prefix : string)
    (close : bool) (st : State) :
  let name := wav_name prefix st in
  let others := remove_file name (files (world st)) in
  let file :=
    {| nchannels := 1; sampwidth := 2; framerate := 0; frames := [];
       finalized := false |} in
  config_info (self st) <> [] ->
  stream_available st = true ->
  samplesPerPacket (self st) = 512 ->
  srate (self st) <= 0 ->
  Z.abs (seconds * srate (self st)) < 2 ^ 53 ->
  writable name st = true ->
  exists st',
    write_wav seconds prefix close st = Raise WaveError st' /\
    stream_rx (world st') = stream_rx (world st) /\
    open_stream_port (self st') = true /\
    files (world st') = others ++ [(name, file)] /\
    threads (world st') = threads (world st) /\
    wave_del st' = on_world (w_files (others ++ [(name, released file)])) st' /\
    header_on_disk (released file) = None.
Proof.
  intros name others file Hcfg Havail Hspp Hrate Hexact Hw.
  pose proof (int_true_div_512 _ Hexact) as Hn.
  subst name others file.
  destruct st as [o w]. cbn [self world] in *.
  unfold stream_available in Havail. cbn [self world] in Havail.
  unfold writable, wav_name in Hw. cbn [self world] in Hw.
  destruct (refusal (prefix ++ "_" ++ clock w (ticks w) ++ ".wav") w) eqn:Hopen';
    [discriminate|clear Hw; rename Hopen' into Hw; unfold refusal in Hw].
  assert (Hr : (0 <? srate o) = false) by (apply Z.ltb_ge; lia).
  unfold wav_name.
  unfold write_wav, packet_count, wave_open, refusal, setnchannels, setsampwidth,
    setframerate, set_parameter, obj, on_obj, bind, get_self, get_world. step.
  destruct (config_info o) as [|c cs] eqn:Hc; [contradiction|]. step.
  destruct (open_stream_port o) eqn:Hopen; step.
  - rewrite Hspp, Hn. step. rewrite Hw. step.
    do 3 file_step. rewrite Hr. step.
    eexists. split; [reflexivity|]. unfold on_world. simpl.
    rewrite ?update_last_app. simpl. rewrite Hopen.
    split; [reflexivity|]. split; [reflexivity|]. split; [reflexivity|].
    split; [reflexivity|]. split; [|reflexivity].
    eapply wave_del_open; [cbn; rewrite ?update_last_app; reflexivity|reflexivity].
  - apply negb_true_iff in Havail. rewrite Havail. step.
    rewrite Hspp, Hn. step. rewrite Hw. step.
    do 3 file_step. rewrite Hr. step.
    eexists. split; [reflexivity|]. unfold on_world. simpl.
    rewrite ?update_last_app. simpl.
    split; [reflexivity|]. split; [reflexivity|]. split; [reflexivity|].
    split; [reflexivity|]. split; [|reflexivity].
    eapply wave_del_open; [cbn; rewrite ?update_last_app; reflexivity|reflexivity].
Qed.

(** ** The refresh off channel 1 *)

(** X19.  When the device does not report channel 1, the refresh takes the
    channel to be 2, does not ask for the gain or the equalizer and
    records both as not applicable, attribute and dict entry alike; it
    sends four queries, not six. *)
Theorem refresh_off_channel_one (st : State) (c : Config) (st' : State) :
  get_config st = Ok c st' ->
  ch (self st') <> 1 ->
  ch (self st') = 2 /\
  gain_status (self st') = VStr "na" /\
  eq_status (self st') = VStr "na" /\
  dict_get "channel" c = Some (VInt 2) /\
  dict_get "gain" c = Some (VStr "na") /\
  dict_get "equalizer" c = Some (VStr "na") /\
  tx (world st') =
    tx (world st) ++
    frames_on (self st)
      ["INPut1:STATe?"%string; "CONFigure:ACQuire:SRATe?"%string;
       "*idn?"%string; "SYSTem:VERSion?"%string].
Proof.
  intros Hget Hch.
  pose proof (get_config_post st) as H. unfold post in H. rewrite Hget in H.
  destruct H as (chv & e & g & r & name & version & Hchv & Hna & Hc & Hs & Ht).
  rewrite Hs in Hch |- *. cbn in Hch |- *.
  destruct (Hna Hch) as [-> ->].
  destruct Hchv as [->| ->]; [contradiction|].
  rewrite Hc, Ht. cbn. repeat split.
Qed.

(** ** [bytes_to_int] *)

Lemma fold_bytes_shift (bytes : list byte) (acc : Z) :
  fold_left (fun result b => result * 256 + Z.of_N (Byte.to_N b)) bytes acc =
    acc * 256 ^ Z.of_nat (length bytes) +
    fold_left (fun result b => result * 256 + Z.of_N (Byte.to_N b)) bytes 0.
Proof.
  revert acc. induction bytes as [|b bytes IH]; intros acc.
  - cbn. lia.
  - cbn [fold_left length]. rewrite IH.
    rewrite (IH (0 * 256 + Z.of_N (Byte.to_N b))).
    rewrite Nat2Z.inj_succ, Z.pow_succ_r by lia. ring.
Qed.

Lemma bytes_to_int_range (bytes : list byte) :
  0 <= bytes_to_int bytes < 256 ^ Z.of_nat (length bytes).
Proof.
  pose proof (bytes_to_int_bound bytes 0 ltac:(lia)) as H.
  unfold bytes_to_int. lia.
Qed.

Lemma bytes_to_int_cons (b : byte) (bytes : list byte) :
  bytes_to_int (b :: bytes) =
    Z.of_N (Byte.to_N b) * 256 ^ Z.of_nat (length bytes) + bytes_to_int bytes.
Proof.
  unfold bytes_to_int. cbn [fold_left]. rewrite fold_bytes_shift. lia.
Qed.

(** X20.  [bytes_to_int] reads its bytes as one number in base 256, the first
    byte the most significant: joining two sequences shifts the first by
    the length of the second; the value of [n] bytes is below [256^n]; and
    two sequences of the same length with the same value are the same
    bytes. *)
Theorem bytes_to_int_base_256 (a b : list byte) :
  bytes_to_int (a ++ b) =
    bytes_to_int a * 256 ^ Z.of_nat (length b) + bytes_to_int b /\
  0 <= bytes_to_int a < 256 ^ Z.of_nat (length a) /\
  (length a = length b -> bytes_to_int a = bytes_to_int b -> a = b).
Proof.
  split; [|split].
  - unfold bytes_to_int. rewrite fold_left_app. apply fold_bytes_shift.
  - apply bytes_to_int_range.
  - revert b. induction a as [|x a IH]; intros [|y b] Hlen Heq;
      try discriminate; [reflexivity|].
    cbn [length] in Hlen. injection Hlen as Hlen.
    rewrite !bytes_to_int_cons, <- Hlen in Heq.
    pose proof (bytes_to_int_range a) as Ha.
    pose proof (bytes_to_int_range b) as Hb. rewrite <- Hlen in Hb.
    assert (Hpos : 0 < 256 ^ Z.of_nat (length a)) by (apply Z.pow_pos_nonneg; lia).
    assert (Hxy : Z.of_N (Byte.to_N x) = Z.of_N (Byte.to_N y)) by nia.
    assert (Hab : bytes_to_int a = bytes_to_int b) by nia.
    f_equal.
    + apply N2Z.inj in Hxy.
      pose proof (Byte.of_to_N x) as Hx. rewrite Hxy, Byte.of_to_N in Hx.
      now inversion Hx.
    + now apply IH.
Qed.

(** ** The stream socket *)

(** X21.  Before any [open_stream] there is no stream socket: [close_stream]
    and [receivePacket] fail on the missing attribute.  After
    [close_stream] the socket is still there but closed and the flag is
    down: [receivePacket] fails on the closed socket and takes nothing
    off the stream, while [write_wav] would open a new one. *)
Theorem stream_socket_lifecycle (fresh st : State) (sock : StreamSocket) :
  stream_socket (self fresh) = None ->
  stream_socket (self st) = Some sock ->
  (close_stream fresh = Raise AttributeError fresh /\
   receivePacket fresh = Raise AttributeError fresh) /\
  exists st',
    close_stream st = Ok tt st' /\
    open_stream_port (self st') = false /\
    live_stream (self st') = false /\
    world st' = world st /\
    receivePacket st' = Raise OSError st' /\
    stream_available st' =
      negb (existsb (Z.eqb (streaming_port (self st))) (ports_in_use (world st))).
Proof.
  intros Hnone Hsome. split.
  - unfold close_stream, receivePacket, stream_recv, bind, get_self.
    rewrite Hnone. split; reflexivity.
  - destruct st as [o w]. cbn [self world] in *.
    unfold close_stream, bind, get_self. cbn. rewrite Hsome. cbn.
    eexists. split; [reflexivity|]. cbn. repeat split.
Qed.

(** ** Two replies in one datagram *)

Lemma remove_crlf_plain_app (a s : string) :
  plain a = true ->
  PyStr.remove_crlf (a ++ PyStr.CRLF ++ s) = (a ++ PyStr.remove_crlf s)%string.
Proof.
  unfold plain. induction a as [|c a IH]; intros H; [reflexivity|].
  cbn [list_ascii_of_string forallb] in H.
  apply andb_prop in H as [Hc Ha]. apply andb_prop in Hc as [Hcr _].
  apply negb_true_iff in Hcr.
  change ((String c a ++ PyStr.CRLF ++ s)%string) with (String c (a ++ PyStr.CRLF ++ s)%string).
  cbn [PyStr.remove_crlf]. rewrite Hcr. cbn [andb].
  rewrite (IH Ha).
  destruct (a ++ PyStr.CRLF ++ s)%string eqn:E; [destruct a; discriminate|reflexivity].
Qed.

(** X22.  [recv_udp] does not keep replies apart: a datagram that carries two
    of them, each with its terminator, comes back as one text, the two
    run together. *)
Theorem two_replies_run_together (st : State) (sk : CmdSocket) (a b : string)
    (rest : list string) :
  socket (self st) = Some sk ->
  udp_rx (world st) = (reply a ++ reply b)%string :: rest ->
  plain a = true ->
  plain b = true ->
  (String.length (reply a ++ reply b) <= 1024)%nat ->
  recv_udp st = Ok (a ++ b)%string (on_world (w_udp_rx rest) st).
Proof.
  intros Hsk Hrx Ha Hb Hlen. unfold recv_udp. rewrite Hsk, Hrx.
  cbn [recv_udp_loop String.append]. rewrite (prefix_all 1024 _ Hlen).
  assert (Hend : PyStr.ends_crlf (reply a ++ reply b) = true).
  { unfold reply at 2. rewrite <- append_assoc. apply (ends_crlf_reply (reply a ++ b)). }
  rewrite Hend. unfold reply at 1. rewrite append_assoc.
  rewrite (remove_crlf_plain_app a (reply b) Ha), (remove_crlf_reply b Hb).
  reflexivity.
Qed.

(** ** The continuous capture has no end of its own *)

Lemma write_wav_oversize seconds prefix st :
  ready_to_capture seconds st ->
  stream_delivers seconds st ->
  header_fits (captured seconds st) = false ->
  exists st', write_wav seconds prefix true st = Raise StructError st'.
Proof.
  intros Hready Hdel Hfit.
  destruct (capture_on_delivery seconds prefix st Hready Hdel)
    as (Ht & _ & Hfiles & _ & _ & _).
  destruct Hready as (_ & _ & _ & Hrate & _).
  destruct (captured_ready seconds st Hrate) as (Hfin & Hset).
  eexists. rewrite Ht. apply (finish_oversize _ _ _ _ _ _ Hfiles Hfin Hset Hfit).
Qed.

(** X23.  On a stream that ends, with at least one packet to a file,
    [write_wav_continuous] does not come back: no number of passes
    returns.  While the files stay below what a header can describe, the
    pass that runs short blocks in [recv]; a pass whose file outgrows its
    header ends the run with the error of [close]. *)
Theorem continuous_capture_never_returns (rounds : nat) (seconds : Z)
    (prefix : string) :
  forall st,
    ready_to_capture seconds st ->
    port_free st ->
    packetSize (self st) = 1036 ->
    all_indexable st ->
    (0 < packets_wanted seconds st)%nat ->
    (length (stream_rx (world st)) < rounds * packets_wanted seconds st)%nat ->
    (Z.of_nat (packets_wanted seconds st) <= 4194303 ->
     write_wav_continuous rounds seconds prefix st = Hang) /\
    (forall st', write_wav_continuous rounds seconds prefix st <> Ok tt st').
Proof.
  induction rounds as [|k IH]; intros st Hready Hfree Hps Hall Hpos Hlen; [cbn in Hlen; lia|].
  cbn [write_wav_continuous]. unfold bind.
  destruct (Nat.lt_ge_cases (length (stream_rx (world st))) (packets_wanted seconds st))
    as [Hshort|Henough].
  - rewrite (write_wav_hangs seconds prefix true st Hready Hps Hall Hshort).
    split; [reflexivity|discriminate].
  - destruct (header_fits (captured seconds st)) eqn:Hfit.
    + destruct (write_wav_round seconds prefix st Hready Hfree Hps Hall Henough Hfit)
        as (st1 & nf & Hw & (Hf & Hname & Hc & Hrx) & (Hready1 & Hfree1 & Hps1 & Hall1) &
            (Hn1 & Hs1 & Hcl1 & Hti1)).
      rewrite Hw. rewrite <- Hn1. apply IH; auto.
      * now rewrite Hn1.
      * rewrite Hn1, Hrx, length_skipn. cbn in Hlen. lia.
    + split.
      * intros Hsmall. rewrite (captured_fits seconds st Hps Hsmall) in Hfit. discriminate.
      * assert (Hdel : stream_delivers seconds st).
        { split; [exact Hps|]. split; [exact Henough|]. now apply forallb_firstn. }
        destruct (write_wav_oversize seconds prefix st Hready Hdel Hfit) as (st1 & Hw).
        rewrite Hw. discriminate.
Qed.

(** ** Instances of the further properties *)

Lemma recv_udp_reassembles_witness :
  match recv_udp split_reply with
  | Ok r st' =>
      exists used,
        used <> [] /\
        udp_rx (world split_reply) = used ++ udp_rx (world st') /\
        r = PyStr.remove_crlf (joined used) /\
        PyStr.ends_crlf (joined used) = true /\
        (forall k, (0 < k < length used)%nat ->
                   PyStr.ends_crlf (joined (firstn k used)) = false) /\
        self st' = self split_reply /\ tx (world st') = tx (world split_reply)
  | Raise e st' =>
      e = SocketTimeout /\
      udp_rx (world st') = [] /\
      self st' = self split_reply /\
      (forall k, (0 < k <= length (udp_rx (world split_reply)))%nat ->
                 PyStr.ends_crlf (joined (firstn k (udp_rx (world split_reply)))) = false)
  | Hang => False
  end.
Proof.
  apply (recv_udp_reassembles split_reply {| timeout := 2 |}). reflexivity.
Defined.

Lemma recv_serial_returns_first_reply_witness :
  recv_serial 256 two_on_the_line =
    Ok "1"%string (on_world (w_serial_rx (reply "100000")) two_on_the_line).
Proof.
  apply (recv_serial_returns_first_reply two_on_the_line 256 "/dev/ttyUSB0" "1"
           (reply "100000")).
  - reflexivity.
  - reflexivity.
  - vm_compute; reflexivity.
  - vm_compute; discriminate.
Defined.

Lemma recv_serial_without_terminator_witness :
  recv_serial 6 unterminated_line =
    Ok "100000"%string (on_world (w_serial_rx EmptyString) unterminated_line) /\
  recv_serial 256 unterminated_line = Hang.
Proof.
  split.
  - apply (recv_serial_without_terminator unterminated_line 6 "/dev/ttyUSB0"
             "100000" EmptyString); vm_compute; reflexivity.
  - apply (recv_serial_without_terminator unterminated_line 256 "/dev/ttyUSB0"
             "100000" EmptyString); vm_compute; reflexivity.
Defined.

Lemma no_interface_no_io_witness :
  refuses (query "*idn?") AssertionError {| self := init; world := quiet |} /\
  refuses (set "CONFigure:STATe" (VStr "STOP") false) AssertionError
    {| self := init; world := quiet |} /\
  refuses get_config AssertionError {| self := init; world := quiet |}.
Proof.
  destruct (no_interface_no_io {| self := init; world := quiet |} "*idn?"
              "CONFigure:STATe" (VStr "STOP") false true "192.168.3.4" eq_refl)
    as (H1 & H2 & H3 & _).
  exact (conj H1 (conj H2 H3)).
Defined.

Lemma set_interface_selects_witness :
  set_interface "tcp" {| self := init; world := quiet |} =
    Raise AssertionError {| self := init; world := quiet |} /\
  bind (set_interface "udp") (fun _ => send "*idn?") {| self := init; world := quiet |} =
    Raise AttributeError
      (on_self (upd_interface (Some Udp)) {| self := init; world := quiet |}).
Proof.
  destruct (set_interface_selects {| self := init; world := quiet |} "tcp" "*idn?")
    as [Hbad _].
  destruct (set_interface_selects {| self := init; world := quiet |} "udp" "*idn?")
    as [_ Hok].
  split.
  - apply Hbad. reflexivity.
  - destruct (Hok Udp eq_refl) as [_ Hmiss]. apply Hmiss. left. split; reflexivity.
Defined.

Lemma quoted_value_never_verifies_witness :
  match
    set "SYSTem:COMMunicate:LAN:RADDRess" (VStr (quoted "192.168.3.4")) false
      {| self := udp_client; world := w_udp_rx [reply (quoted "192.168.3.4")] quiet |}
  with
  | Ok _ _ => False
  | _ => True
  end.
Proof.
  destruct (set "SYSTem:COMMunicate:LAN:RADDRess" (VStr (quoted "192.168.3.4")) false
              {| self := udp_client;
                 world := w_udp_rx [reply (quoted "192.168.3.4")] quiet |})
    as [[] st'|e st'|] eqn:E; [|exact I|exact I].
  apply (quoted_value_never_verifies
           {| self := udp_client; world := w_udp_rx [reply (quoted "192.168.3.4")] quiet |}
           "SYSTem:COMMunicate:LAN:RADDRess" (VStr (quoted "192.168.3.4")) false) with st'.
  - vm_compute. discriminate.
  - exact E.
Defined.

Lemma set_recv_ip_accepts_quoted_echo_witness :
  set_recv_ip "192.168.3.4"
    {| self := udp_client; world := w_udp_rx [reply (quoted "192.168.3.4")] quiet |} =
    Ok tt (after_query hydrophone "SYSTem:COMMunicate:LAN:RADDRess?" []
             (after_send hydrophone
                ("SYSTem:COMMunicate:LAN:RADDRess " ++ quoted "192.168.3.4")
                {| self := udp_client;
                   world := w_udp_rx [reply (quoted "192.168.3.4")] quiet |})).
Proof.
  apply (set_recv_ip_accepts_quoted_echo _ hydrophone "192.168.3.4" []
           (quoted "192.168.3.4")).
  - unfold udp_ready. cbn. split; [reflexivity|]. split; [eexists; reflexivity|reflexivity].
  - vm_compute; reflexivity.
  - cbn. lia.
  - left. reflexivity.
  - reflexivity.
Defined.

Lemma init_udp_silent_device_witness :
  init_udp "192.168.3.220" 7777 {| self := init; world := quiet |} =
    Raise SocketTimeout
      {| self := upd_socket (Some {| timeout := 2 |})
                   (upd_nexos_address (Some ("192.168.3.220"%string, 7777)) init);
         world := w_udp_rx []
                    (w_tx [TxUdp ("192.168.3.220"%string, 7777)
                             ("*idn?" ++ String PyStr.LF (String PyStr.CR EmptyString))]
                       quiet) |}.
Proof.
  apply (init_udp_silent_device {| self := init; world := quiet |}). reflexivity.
Defined.

Lemma capture_loop_prints_loss_lines_witness :
  exists st',
    capture_loop 5 gappy_stream = Ok tt st' /\
    console (world st') =
      console (world gappy_stream) ++
      loss_lines (newSeqNum (self gappy_stream))
        (map (fun d => seq_of (received (self gappy_stream) d))
             (firstn 5 (stream_rx (world gappy_stream)))).
Proof.
  apply (capture_loop_prints_loss_lines 5 gappy_stream).
  - vm_compute; reflexivity.
  - cbn. lia.
  - vm_compute; reflexivity.
Defined.

Lemma loss_lines_account_for_gaps_witness :
  exists st' lines,
    capture_loop 5 gappy_stream = Ok tt st' /\
    console (world st') = console (world gappy_stream) ++ lines /\
    lost_total lines =
      newSeqNum (self st') - newSeqNum (self gappy_stream) - Z.of_nat 5.
Proof.
  apply (loss_lines_account_for_gaps 5 gappy_stream).
  - vm_compute; reflexivity.
  - cbn. lia.
  - vm_compute; reflexivity.
  - cbn. lia.
  - vm_compute; reflexivity.
Defined.

Lemma sentinel_only_once_witness :
  exists st',
    capture_loop 5 gappy_stream = Ok tt st' /\
    0 <= newSeqNum (self st') < 65536 /\
    newSeqNum (self st') =
      seq_of (received (self gappy_stream)
                (nth (5 - 1) (stream_rx (world gappy_stream)) [])).
Proof.
  apply (sentinel_only_once 5 gappy_stream).
  - vm_compute; reflexivity.
  - cbn. lia.
  - vm_compute; reflexivity.
Defined.

Ltac evident := first [reflexivity | discriminate | (vm_compute; first [reflexivity | discriminate])].

Ltac ready_now :=
  unfold ready_to_capture;
  split; [evident|]; split; [evident|]; split; [evident|]; split; [evident|];
  split; [evident|]; split; [evident|]; split; evident.

Lemma slow_capture_ready : ready_to_capture 1 slow_capture.
Proof. ready_now. Defined.

Lemma write_wav_leaves_stream_as_asked_witness :
  exists st',
    write_wav 1 "NeXOS_A2" false slow_capture = Ok 1 st' /\
    open_stream_port (self st') = negb false /\
    live_stream (self st') = negb false /\
    threads (world st') =
      threads (world slow_capture) ++
      [(wav_name "NeXOS_A2" slow_capture, config_info (self slow_capture))] /\
    tx (world st') = tx (world slow_capture) /\
    udp_rx (world st') = udp_rx (world slow_capture) /\
    config_info (self st') = config_info (self slow_capture) /\
    srate (self st') = srate (self slow_capture) /\
    stream_rx (world st') =
      skipn (packets_wanted 1 slow_capture) (stream_rx (world slow_capture)) /\
    files (world st') =
      remove_file (wav_name "NeXOS_A2" slow_capture) (files (world slow_capture)) ++
      [(wav_name "NeXOS_A2" slow_capture,
        wav_of (srate (self slow_capture))
          (map (payload (self slow_capture)) (taken 1 slow_capture)))] /\
    wave_del st' = st'.
Proof.
  apply (write_wav_leaves_stream_as_asked 1 "NeXOS_A2" false slow_capture).
  - exact slow_capture_ready.
  - unfold stream_delivers. split; [reflexivity|].
    split; [apply Nat.leb_le; vm_compute; reflexivity|vm_compute; reflexivity].
  - vm_compute; reflexivity.
Defined.

Lemma forallb_repeat {A} (p : A -> bool) (x : A) (n : nat) :
  p x = true -> forallb p (repeat x n) = true.
Proof. intros Hx. induction n as [|n IH]; [reflexivity|]. cbn. now rewrite Hx, IH. Qed.

Lemma firstn_repeat {A} (x : A) (n : nat) : firstn n (repeat x n) = repeat x n.
Proof. rewrite <- (repeat_length x n) at 1. apply firstn_all. Qed.

Lemma data_written_repeat (c : list byte) (n : nat) (a b r : Z) (fin : bool) :
  data_written {| nchannels := a; sampwidth := b; framerate := r;
                  frames := repeat c n; finalized := fin |} =
    Z.of_nat n * Z.of_nat (length c).
Proof.
  unfold data_written. cbn [frames].
  induction n as [|n IH]; [reflexivity|].
  cbn [repeat fold_right]. rewrite IH. lia.
Qed.

Lemma data_announced_repeat (c : list byte) (n : nat) (r : Z) (fin : bool) :
  (0 < n)%nat ->
  data_announced {| nchannels := 1; sampwidth := 2; framerate := r;
                    frames := repeat c n; finalized := fin |} =
    Z.of_nat (length c) / 2 * 2.
Proof.
  intros Hn. destruct n as [|n]; [lia|]. reflexivity.
Qed.

Lemma long_capture_count : packet_number 21475 long_capture = 4194335.
Proof.
  unfold packet_number. change (srate (self long_capture)) with 100000.
  vm_compute. reflexivity.
Qed.

Lemma long_capture_chunk : length (payload (self long_capture) full_packet) = 1024%nat.
Proof.
  change (self long_capture) with streaming_client. vm_compute. reflexivity.
Qed.

Lemma long_capture_wanted : packets_wanted 21475 long_capture = Z.to_nat 4194335.
Proof. unfold packets_wanted. now rewrite long_capture_count. Qed.

Lemma long_capture_ready : ready_to_capture 21475 long_capture.
Proof.
  unfold ready_to_capture.
  split; [discriminate|]. split; [reflexivity|]. split; [reflexivity|].
  split; [reflexivity|]. split; [discriminate|]. split; [|split; reflexivity].
  unfold count_defined. change (srate (self long_capture)) with 100000.
  vm_compute. reflexivity.
Qed.

Lemma long_capture_delivers : stream_delivers 21475 long_capture.
Proof.
  assert (Hrx : stream_rx (world long_capture) = repeat full_packet (Z.to_nat 4194335))
    by reflexivity.
  unfold stream_delivers.
  rewrite long_capture_wanted, Hrx, firstn_repeat, repeat_length.
  split; [reflexivity|]. split; [apply le_n|].
  apply forallb_repeat. reflexivity.
Qed.

Lemma long_capture_oversize : header_fits (captured 21475 long_capture) = false.
Proof.
  assert (Hrx : stream_rx (world long_capture) = repeat full_packet (Z.to_nat 4194335))
    by reflexivity.
  unfold captured. rewrite long_capture_wanted, Hrx, firstn_repeat, map_repeat.
  unfold header_fits.
  rewrite data_written_repeat, data_announced_repeat, long_capture_chunk by lia.
  rewrite Z2Nat.id by lia. reflexivity.
Qed.

(** On that stream a continuous capture does not block: its first pass has
    all its packets, and ends the run at [close]. *)
Lemma long_run_ends_at_close :
  (length (stream_rx (world long_capture)) < 2 * packets_wanted 21475 long_capture)%nat /\
  exists st',
    write_wav_continuous 2 21475 "NeXOS_A2" long_capture = Raise StructError st'.
Proof.
  split.
  - rewrite long_capture_wanted.
    change (stream_rx (world long_capture)) with (repeat full_packet (Z.to_nat 4194335)).
    rewrite repeat_length. lia.
  - destruct (write_wav_oversize 21475 "NeXOS_A2" long_capture
                long_capture_ready long_capture_delivers long_capture_oversize)
      as (st' & Hw).
    exists st'. cbn [write_wav_continuous]. unfold bind. now rewrite Hw.
Qed.

Lemma oversize_capture_fails_at_close_witness :
  exists st',
    write_wav 21475 "NeXOS_A2" true long_capture = Raise StructError st' /\
    stream_rx (world st') = [] /\
    open_stream_port (self st') = true /\
    live_stream (self st') = true /\
    threads (world st') = threads (world long_capture).
Proof.
  destruct (oversize_capture_fails_at_close 21475 "NeXOS_A2" true long_capture
              long_capture_ready long_capture_delivers long_capture_oversize)
    as (st' & Hw & _ & _ & _ & Hrest & Ho & Hl & Ht & _).
  exists st'. split; [exact Hw|].
  split.
  { rewrite Hrest, long_capture_wanted.
    change (stream_rx (world long_capture)) with (repeat full_packet (Z.to_nat 4194335)).
    apply skipn_all2. rewrite repeat_length. apply le_n. }
  split; [exact Ho|]. split; [exact Hl|exact Ht].
Defined.

Lemma continuous_capture_one_file_per_pass_witness :
  exists st' new,
    write_wav_continuous 2 1 "cont" unhurried_capture = Ok tt st' /\
    files (world st') =
      fold_left (fun l name => remove_file name l) (pass_names "cont" 2 unhurried_capture)
        (files (world unhurried_capture)) ++ new /\
    map fst new = pass_names "cont" 2 unhurried_capture /\
    length new = 2%nat /\
    Forall (complete (srate (self unhurried_capture)) (packets_wanted 1 unhurried_capture)) new /\
    stream_rx (world st') =
      skipn (2 * packets_wanted 1 unhurried_capture) (stream_rx (world unhurried_capture)).
Proof.
  apply (continuous_capture_one_file_per_pass 2 1 "cont" unhurried_capture).
  - ready_now.
  - vm_compute; reflexivity.
  - reflexivity.
  - vm_compute; reflexivity.
  - vm_compute; discriminate.
  - vm_compute. apply NoDup_cons; [intros [H|[]]; discriminate H|].
    apply NoDup_cons; [intros []|apply NoDup_nil].
  - apply Nat.leb_le. vm_compute; reflexivity.
Defined.

Lemma write_wav_blocks_on_short_stream_witness :
  write_wav 3 "NeXOS_A2" true slow_capture = Hang.
Proof.
  apply (write_wav_blocks_on_short_stream 3 "NeXOS_A2" true slow_capture).
  - ready_now.
  - reflexivity.
  - vm_compute; reflexivity.
  - apply Nat.ltb_lt. vm_compute; reflexivity.
Defined.

Lemma continuous_capture_never_returns_witness :
  write_wav_continuous 3 1 "cont" slow_capture = Hang /\
  (forall st', write_wav_continuous 3 1 "cont" slow_capture <> Ok tt st').
Proof.
  destruct (continuous_capture_never_returns 3 1 "cont" slow_capture) as [Hhang Hnever].
  - exact slow_capture_ready.
  - vm_compute; reflexivity.
  - reflexivity.
  - vm_compute; reflexivity.
  - apply Nat.ltb_lt. vm_compute; reflexivity.
  - apply Nat.ltb_lt. vm_compute; reflexivity.
  - split; [apply Hhang; vm_compute; discriminate|exact Hnever].
Defined.

Lemma short_datagram_aborts_capture_witness :
  exists st',
    write_wav 1 "NeXOS_A2" true runt_first = Raise IndexError st' /\
    stream_rx (world st') = repeat (packet x00 x07) 12 /\
    open_stream_port (self st') = true /\
    live_stream (self st') = true /\
    files (world st') =
      [("NeXOS_A2_20231120_101500z.wav"%string,
        {| nchannels := 1; sampwidth := 2; framerate := 2560;
           frames := []; finalized := false |})] /\
    threads (world st') = [] /\
    newSeqNum (self st') = newSeqNum (self runt_first) /\
    oldSeqNum (self st') = oldSeqNum (self runt_first) /\
    files (world (wave_del st')) =
      [("NeXOS_A2_20231120_101500z.wav"%string,
        {| nchannels := 1; sampwidth := 2; framerate := 2560;
           frames := []; finalized := true |})] /\
    header_on_disk
      {| nchannels := 1; sampwidth := 2; framerate := 2560;
         frames := []; finalized := true |} = Some 0.
Proof.
  destruct (short_datagram_aborts_capture 1 "NeXOS_A2" true runt_first [x80]
              (repeat (packet x00 x07) 12))
    as (st' & Hw & Hrx & Ho & Hl & Hf & Ht & Hn & Hold & Hdel & Hh).
  - ready_now.
  - reflexivity.
  - reflexivity.
  - cbn. lia.
  - apply Nat.ltb_lt. vm_compute; reflexivity.
  - exists st'. split; [exact Hw|]. split; [exact Hrx|]. split; [exact Ho|].
    split; [exact Hl|]. split; [exact Hf|]. split; [exact Ht|]. split; [exact Hn|].
    split; [exact Hold|]. split; [rewrite Hdel; reflexivity|exact Hh].
Defined.

Lemma nonpositive_rate_stops_capture_witness :
  exists st',
    write_wav 10 "NeXOS_A2" true
      {| self := upd_srate 0 streaming_client; world := quiet |} = Raise WaveError st' /\
    stream_rx (world st') = [] /\
    open_stream_port (self st') = true /\
    files (world st') =
      [("NeXOS_A2_20231120_101500z.wav"%string,
        {| nchannels := 1; sampwidth := 2; framerate := 0;
           frames := []; finalized := false |})] /\
    threads (world st') = [] /\
    files (world (wave_del st')) =
      [("NeXOS_A2_20231120_101500z.wav"%string,
        {| nchannels := 1; sampwidth := 2; framerate := 0;
           frames := []; finalized := true |})] /\
    header_on_disk
      {| nchannels := 1; sampwidth := 2; framerate := 0;
         frames := []; finalized := true |} = None.
Proof.
  destruct (nonpositive_rate_stops_capture 10 "NeXOS_A2" true
              {| self := upd_srate 0 streaming_client; world := quiet |})
    as (st' & Hw & Hrx & Ho & Hf & Ht & Hdel & Hh).
  - discriminate.
  - reflexivity.
  - reflexivity.
  - cbn. lia.
  - vm_compute; reflexivity.
  - reflexivity.
  - exists st'. split; [exact Hw|]. split; [exact Hrx|]. split; [exact Ho|].
    split; [exact Hf|]. split; [exact Ht|]. split; [rewrite Hdel; reflexivity|exact Hh].
Defined.

Lemma refresh_off_channel_one_witness :
  exists c st',
    get_config device_on_channel_two = Ok c st' /\
    ch (self st') = 2 /\
    gain_status (self st') = VStr "na" /\
    eq_status (self st') = VStr "na" /\
    dict_get "gain" c = Some (VStr "na").
Proof.
  pose (r := get_config device_on_channel_two).
  pose (c := match r with Ok c _ => c | _ => [] end).
  pose (st' := match r with Ok _ s => s | _ => device_on_channel_two end).
  assert (H : get_config device_on_channel_two = Ok c st') by (vm_compute; reflexivity).
  destruct (refresh_off_channel_one device_on_channel_two c st' H)
    as (H1 & H2 & H3 & _ & H5 & _).
  - vm_compute. discriminate.
  - exists c, st'. exact (conj H (conj H1 (conj H2 (conj H3 H5)))).
Defined.

Lemma bytes_to_int_base_256_witness :
  bytes_to_int ([x01] ++ [x02; x03]) =
    bytes_to_int [x01] * 256 ^ Z.of_nat (length [x02; x03]) + bytes_to_int [x02; x03] /\
  0 <= bytes_to_int [x01] < 256 ^ Z.of_nat (length [x01]) /\
  (length [x01] = length [x02; x03] ->
   bytes_to_int [x01] = bytes_to_int [x02; x03] -> [x01] = [x02; x03]).
Proof. exact (bytes_to_int_base_256 [x01] [x02; x03]). Defined.

Lemma stream_socket_lifecycle_witness :
  (close_stream {| self := init; world := quiet |} =
     Raise AttributeError {| self := init; world := quiet |} /\
   receivePacket {| self := init; world := quiet |} =
     Raise AttributeError {| self := init; world := quiet |}) /\
  exists st',
    close_stream gappy_stream = Ok tt st' /\
    open_stream_port (self st') = false /\
    live_stream (self st') = false /\
    world st' = world gappy_stream /\
    receivePacket st' = Raise OSError st' /\
    stream_available st' =
      negb (existsb (Z.eqb (streaming_port (self gappy_stream)))
              (ports_in_use (world gappy_stream))).
Proof.
  apply (stream_socket_lifecycle {| self := init; world := quiet |} gappy_stream
           {| bound_port := Some 4002; closed := false |}); reflexivity.
Defined.

Lemma two_replies_run_together_witness :
  recv_udp {| self := udp_client;
              world := w_udp_rx [(reply "1" ++ reply "100000")%string] quiet |} =
    Ok ("1" ++ "100000")%string
       (on_world (w_udp_rx [])
          {| self := udp_client;
             world := w_udp_rx [(reply "1" ++ reply "100000")%string] quiet |}).
Proof.
  apply (two_replies_run_together _ {| timeout := 2 |} "1" "100000" []).
  - reflexivity.
  - reflexivity.
  - vm_compute; reflexivity.
  - vm_compute; reflexivity.
  - apply Nat.leb_le. vm_compute; reflexivity.
Defined.
